(** * A shallow embedding of [labeling_tool.py]

    The script drives a human-in-the-loop comparison of two segmentation
    methods: for each subject of a worklist it opens an external viewer,
    asks the operator five questions on the console and appends one line to
    a results file.

    The development follows the source file top to bottom:
    - [Py]: the few Python primitives the script relies on ([str.replace],
      [str.split], [int()], slice resolution, [random.shuffle] on a pair);
    - [Mask]: the mask volume built by [run_freeview];
    - [Console]: [stop_labeling] and [question_loop];
    - [Session]: [run_freeview], the record line and the session loop of
      [__main__], with the resume filter and the configuration preamble.

    Effects are explicit: every function that talks to the outside world
    returns the list of events it performed (viewer launches, signals,
    sleeps, console reads, appends to the results file) together with its
    result, which is a value, a raised exception or a call to [sys.exit]. *)

From Stdlib Require Import ZArith QArith Strings.String Strings.Ascii.
From Stdlib Require Import Numbers.DecimalString List Lia.
From stdpp Require Import base list strings gmap.

Local Open Scope string_scope.
Local Open Scope list_scope.

(** ** Results of effectful code *)

(** The exceptions that the modelled part of the script can raise. *)
Inductive exn :=
| KeyError (key : string)
| NameError (name : string)
| ValueError
| OverflowError
| TypeError
| EOFError
| FileNotFoundError (path : string)
| EmptyDataError
| ParserError
| OSError.

(** A computation ends with a value, an uncaught exception or [sys.exit]. *)
Inductive result (A : Type) :=
| Ok (a : A)
| Raise (e : exn)
| Exit (code : Z).
Arguments Ok {A} a.
Arguments Raise {A} e.
Arguments Exit {A} code.

Definition rbind {A B} (r : result A) (f : A -> result B) : result B :=
  match r with
  | Ok a => f a
  | Raise e => Raise e
  | Exit c => Exit c
  end.

(** ** Python primitives *)
Module Py.

(** *** Floats

    A Python float is a finite binary rational, a NaN or an infinity.
    Only [int()] is applied to floats by the script, so finite values are
    kept as rationals. *)
Inductive float :=
| Fin (q : Q)
| Nan
| Inf (negative : bool).

(** [int(x)]: truncation toward zero; [ValueError] on NaN and
    [OverflowError] on an infinity. *)
Definition int (x : float) : result Z :=
  match x with
  | Fin q => Ok (Z.quot (Qnum q) (Zpos (Qden q)))
  | Nan => Raise ValueError
  | Inf _ => Raise OverflowError
  end.

Definition of_Z (z : Z) : float := Fin (inject_Z z).

(** *** Strings *)

(** [str(n)] for an integer. *)
Definition str_int (z : Z) : string := NilZero.string_of_int (Z.to_int z).

(** [s.replace(old, new)] for a non-empty [old]: occurrences are replaced
    left to right and do not overlap; [skip] counts the characters of a
    matched occurrence that are still to be dropped. *)
Fixpoint replace_from (old new : string) (skip : nat) (s : string) : string :=
  match s with
  | EmptyString => EmptyString
  | String c s' =>
      match skip with
      | S k => replace_from old new k s'
      | O =>
          if String.prefix old s
          then new ++ replace_from old new (String.length old - 1) s'
          else String c (replace_from old new 0 s')
      end
  end.

Definition replace (old new s : string) : string := replace_from old new 0 s.

(** [s.split(sep)] for a one-character separator. *)
Fixpoint split (sep : ascii) (s : string) : list string :=
  match s with
  | EmptyString => [EmptyString]
  | String c s' =>
      if Ascii.eqb c sep then EmptyString :: split sep s'
      else match split sep s' with
           | f :: fs => String c f :: fs
           | [] => [String c EmptyString]
           end
  end.

(** [sep.join(fields)]. *)
Fixpoint join (sep : string) (fields : list string) : string :=
  match fields with
  | [] => EmptyString
  | [f] => f
  | f :: fs => f ++ sep ++ join sep fs
  end.

(** [c in s] for a character. *)
Fixpoint contains (c : ascii) (s : string) : bool :=
  match s with
  | EmptyString => false
  | String a s' => Ascii.eqb a c || contains c s'
  end.

(** [int(s)] for a plain decimal numeral (digits only); anything else
    raises [ValueError]. *)
Definition digit_value (c : ascii) : option Z :=
  let n := nat_of_ascii c in
  if (48 <=? n)%nat && (n <=? 57)%nat then Some (Z.of_nat (n - 48)) else None.

Fixpoint int_digits (acc : Z) (s : string) : result Z :=
  match s with
  | EmptyString => Ok acc
  | String c s' =>
      match digit_value c with
      | Some d => int_digits (10 * acc + d) s'
      | None => Raise ValueError
      end
  end.

Definition int_str (s : string) : result Z :=
  match s with
  | EmptyString => Raise ValueError
  | _ => int_digits 0 s
  end.

(** The string with [f] applied to each character. *)
Fixpoint map_chars (f : ascii -> ascii) (s : string) : string :=
  match s with
  | EmptyString => EmptyString
  | String c s' => String (f c) (map_chars f s')
  end.

Definition no_comma (s : string) : Prop := contains "," s = false.

(** *** Slices

    [slice(start, stop).indices(n)] with step 1: a negative bound counts
    from the end of the axis, then each bound is clipped to [0, n]. *)
Definition slice_bound (n i : Z) : Z :=
  if (i <? 0)%Z then Z.max (i + n) 0 else Z.min i n.

(** Whether position [x] of an axis of length [n] is selected by
    [start:stop]. *)
Definition in_slice (n start stop x : Z) : bool :=
  (slice_bound n start <=? x)%Z && (x <? slice_bound n stop)%Z.

(** *** [random.shuffle] on a two-element list

    [shuffle] walks [i] from the last index down to 1, draws
    [j = randbelow(i + 1)] and swaps positions [i] and [j]; on two
    elements that is one draw, and the pair is swapped when [j = 0]. *)
Definition shuffle2 {A} (j_is_zero : bool) (l : A * A) : A * A :=
  if j_is_zero then (snd l, fst l) else l.

End Py.

(** ** The mask volume of [run_freeview] *)
Module Mask.
Local Open Scope Z_scope.

Definition voxel : Type := Z * Z * Z.

Inductive axis := Ax0 | Ax1 | Ax2.

Definition comp (a : axis) (v : voxel) : Z :=
  match a, v with
  | Ax0, (x, _, _) => x
  | Ax1, (_, y, _) => y
  | Ax2, (_, _, z) => z
  end.

(** A three-dimensional array: its shape and the value stored at each
    index. Only indices inside the shape are meaningful. *)
Record ndarray := { shape : voxel; item : voxel -> Z }.

Definition in_shape (sh v : voxel) : Prop :=
  forall a, 0 <= comp a v < comp a sh.

(** [np.ones(shape)] *)
Definition ones (sh : voxel) : ndarray :=
  {| shape := sh; item := fun _ => 1 |}.

(** [arr[a0:b0, a1:b1, a2:b2] = value]: basic slicing never raises, the
    bounds are resolved against the length of each axis. *)
Definition set_block (arr : ndarray) (lo hi : voxel) (value : Z) : ndarray :=
  {| shape := shape arr;
     item := fun v =>
       if Py.in_slice (comp Ax0 (shape arr)) (comp Ax0 lo) (comp Ax0 hi) (comp Ax0 v)
          && Py.in_slice (comp Ax1 (shape arr)) (comp Ax1 lo) (comp Ax1 hi) (comp Ax1 v)
          && Py.in_slice (comp Ax2 (shape arr)) (comp Ax2 lo) (comp Ax2 hi) (comp Ax2 v)
       then value else item arr v |}.

(** [int(center[0])], [int(center[1])], [int(center[2])], left to right. *)
Definition int_center (center : Py.float * Py.float * Py.float) : result voxel :=
  let '(c0, c1, c2) := center in
  rbind (Py.int c0) (fun i0 =>
  rbind (Py.int c1) (fun i1 =>
  rbind (Py.int c2) (fun i2 => Ok (i0, i1, i2)))).

(** Lines 113-114:
    [mask = np.ones(orig_image.shape)]
    [mask[int(c0)-20:int(c0)+20, int(c1)-20:int(c1)+20, int(c2)-20:int(c2)+20] = 0] *)
Definition build_mask (sh : voxel) (center : Py.float * Py.float * Py.float)
  : result ndarray :=
  rbind (int_center center) (fun c =>
    let '(i0, i1, i2) := c in
    Ok (set_block (ones sh)
          (i0 - 20, i1 - 20, i2 - 20) (i0 + 20, i1 + 20, i2 + 20) 0)).

(** The cube of 40 voxels per side around [c], and the mask that is zero
    exactly inside it. *)
Definition in_cube (c v : voxel) : bool :=
  (comp Ax0 c - 20 <=? comp Ax0 v) && (comp Ax0 v <? comp Ax0 c + 20)
  && (comp Ax1 c - 20 <=? comp Ax1 v) && (comp Ax1 v <? comp Ax1 c + 20)
  && (comp Ax2 c - 20 <=? comp Ax2 v) && (comp Ax2 v <? comp Ax2 c + 20).

Definition cube_mask (c v : voxel) : Z := if in_cube c v then 0 else 1.

(** The voxel [v] with its component on axis [a] replaced by [x]. *)
Definition with_comp (a : axis) (x : Z) (v : voxel) : voxel :=
  match a, v with
  | Ax0, (_, y, z) => (x, y, z)
  | Ax1, (x0, _, z) => (x0, x, z)
  | Ax2, (x0, y, _) => (x0, y, x)
  end.

Definition center_of (x y z : Z) : Py.float * Py.float * Py.float :=
  (Py.of_Z x, Py.of_Z y, Py.of_Z z).

End Mask.

(** ** Events, state and the effect monad *)

(** What [input()] delivers: a line of text, or a [KeyboardInterrupt]
    raised while it waits. An exhausted console (end of file) makes
    [input()] raise [EOFError]. *)
Inductive reply :=
| Line (s : string)
| Interrupt.

(** The five questions of [question_loop], in the order they are asked. *)
Inductive question := QBest | QConfidence | QStrength | QFail | QComment.

Inductive xdo := WindowUnmap | WindowMap | WindowClose.

(** The observable actions of the script. A viewer process is named by
    the number it was given at launch, which also stands for its uid.
    [EvInput ps q r]: [question_loop], holding the processes [ps], printed
    question [q] and [input()] delivered [r] ([None]: end of file).
    [EvTerm group p]: SIGTERM sent to [p], to its process group on MacOS.
    [EvAppend p line]: [line] written to the results file, for the subject
    shown by process [p]. *)
Inductive event :=
| EvLaunch (p : nat) (subject_id image seg1 seg2 : string)
| EvSleep (ms : nat)
| EvXdo (action : xdo) (uid : nat)
| EvInput (ps : list nat) (q : question) (r : option reply)
| EvTerm (group : bool) (p : nat)
| EvAppend (p : nat) (line : string).

(** The mutable state of a run: the console input still to come, the
    number of viewer processes created, of random draws made and of
    clock readings taken. *)
Record state := {
  inputs : list reply;
  next_pid : nat;
  draws : nat;
  ticks : nat
}.

Definition set_inputs (ins : list reply) (s : state) : state :=
  {| inputs := ins; next_pid := next_pid s; draws := draws s; ticks := ticks s |}.

Definition M (A : Type) : Type := state -> list event * result (A * state).

Definition ret {A} (a : A) : M A := fun s => ([], Ok (a, s)).

Definition bind {A B} (m : M A) (f : A -> M B) : M B := fun s =>
  match m s with
  | (t, Ok (a, s')) => let '(t', r) := f a s' in (t ++ t', r)
  | (t, Raise e) => (t, Raise e)
  | (t, Exit c) => (t, Exit c)
  end.

Definition emit (e : event) : M unit := fun s => ([e], Ok (tt, s)).

Definition raise {A} (e : exn) : M A := fun _ => ([], Raise e).

Definition lift {A} (r : result A) : M A := fun s =>
  ([], rbind r (fun a => Ok (a, s))).

Definition when (b : bool) (m : M unit) : M unit := if b then m else ret tt.

Declare Scope py_scope.
Delimit Scope py_scope with py.
Notation "'let*' x := m 'in' k" := (bind m (fun x => k))
  (at level 10, x pattern, m at level 100, k at level 200) : py_scope.
Notation "m ;;; k" := (bind m (fun _ => k))
  (at level 100, k at level 200, right associativity) : py_scope.
Local Open Scope py_scope.

(** The outcome without its value. *)
Definition forget {A} (r : result A) : result unit := rbind r (fun _ => Ok tt).

(** [cons_event e (t, r)] is the outcome [(t, r)] preceded by [e]. *)
Definition cons_event {A} (e : event) (o : list event * result A)
  : list event * result A := (e :: fst o, snd o).

(** ** The console: [stop_labeling] and [question_loop] *)
Module Console.

(** [stop_labeling(processes)]: SIGTERM to every process of the list (to
    the process group on MacOS), one second of sleep, [sys.exit(0)]. *)
Definition stop_labeling {A} (darwin : bool) (processes : list nat)
  : list event * result A :=
  (map (EvTerm darwin) processes ++ [EvSleep 1000], Exit 0).

(** The values returned by [question_loop]. *)
Record answers := {
  best : string;
  confidence : string;
  difference_strength : Z;
  fail : string;
  comment : string
}.

(** [best = ''], [confidence = ''], [fail = '']; the other two variables
    are unbound until their loop assigns them. *)
Definition no_answers : answers :=
  {| best := ""; confidence := ""; difference_strength := 0; fail := ""; comment := "" |}.

Definition set_best (v : string) (a : answers) : answers :=
  {| best := v; confidence := confidence a;
     difference_strength := difference_strength a; fail := fail a; comment := comment a |}.
Definition set_confidence (v : string) (a : answers) : answers :=
  {| best := best a; confidence := v;
     difference_strength := difference_strength a; fail := fail a; comment := comment a |}.
Definition set_strength (v : Z) (a : answers) : answers :=
  {| best := best a; confidence := confidence a;
     difference_strength := v; fail := fail a; comment := comment a |}.
Definition set_fail (v : string) (a : answers) : answers :=
  {| best := best a; confidence := confidence a;
     difference_strength := difference_strength a; fail := v; comment := comment a |}.
Definition set_comment (v : string) (a : answers) : answers :=
  {| best := best a; confidence := confidence a;
     difference_strength := difference_strength a; fail := fail a; comment := v |}.

(** [answer in [...]] *)
Definition member (answer : string) (l : list string) : bool :=
  existsb (String.eqb answer) l.

(** The body of each [while not valid] loop once the answer is known not
    to be the stop command: [None] when the answer is rejected (the error
    is printed and the question asked again), otherwise the assignment it
    performs; the inner [else: raise ValueError] branches are kept. *)
Definition decode (q : question) (methods : string * string) (answer : string)
  (a : answers) : option (result answers) :=
  match q with
  | QBest =>
      if member answer ["1"; "2"] then
        Some (if String.eqb answer "1" then Ok (set_best (fst methods) a)
              else if String.eqb answer "2" then Ok (set_best (snd methods) a)
              else Raise ValueError)
      else None
  | QConfidence =>
      if member answer ["1"; "2"; "3"] then
        Some (if String.eqb answer "1" then Ok (set_confidence "random" a)
              else if String.eqb answer "2" then Ok (set_confidence "uncertain" a)
              else if String.eqb answer "3" then Ok (set_confidence "certain" a)
              else Raise ValueError)
      else None
  | QStrength =>
      if member answer ["0"; "1"; "2"; "3"] then
        Some (rbind (Py.int_str answer) (fun n => Ok (set_strength n a)))
      else None
  | QFail =>
      if member answer ["0"; "1"; "2"; "3"] then
        Some (if String.eqb answer "0" then Ok (set_fail "None" a)
              else if String.eqb answer "1" then Ok (set_fail (fst methods) a)
              else if String.eqb answer "2" then Ok (set_fail (snd methods) a)
              else if String.eqb answer "3"
                   then Ok (set_fail (fst methods +:+ "+" +:+ snd methods) a)
              else Raise ValueError)
      else None
  | QComment => Some (Ok (set_comment answer a))
  end.

(** One [try: while not valid: ... except KeyboardInterrupt: ...] block,
    run on the console input [ins]. It returns the assignment made by the
    accepted answer and the input left over. *)
Fixpoint prompt_loop (darwin : bool) (p : list nat) (q : question)
  (methods : string * string) (a : answers) (ins : list reply)
  : list event * result (answers * list reply) :=
  match ins with
  | [] => ([EvInput p q None], Raise EOFError)
  | Interrupt :: _ => cons_event (EvInput p q (Some Interrupt)) (stop_labeling darwin p)
  | Line answer :: rest =>
      cons_event (EvInput p q (Some (Line answer)))
        (if String.eqb answer "stop" then stop_labeling darwin p
         else match decode q methods answer a with
              | Some (Ok a') => ([], Ok (a', rest))
              | Some (Raise e) => ([], Raise e)
              | Some (Exit c) => ([], Exit c)
              | None => prompt_loop darwin p q methods a rest
              end)
  end.

Definition ask (darwin : bool) (p : list nat) (q : question)
  (methods : string * string) (a : answers) : M answers := fun s =>
  let '(t, r) := prompt_loop darwin p q methods a (inputs s) in
  (t, rbind r (fun '(a', rest) => Ok (a', set_inputs rest s))).

(** [question_loop(p, methods)], cut after each of its five loops:
    [from_q a] is the code from the loop of question [q] to the [return],
    with the variables assigned so far in [a]. *)
Definition from_comment darwin p methods (a : answers) : M answers :=
  ask darwin p QComment methods a.

Definition from_fail darwin p methods (a : answers) : M answers :=
  let* a' := ask darwin p QFail methods a in from_comment darwin p methods a'.

Definition from_strength darwin p methods (a : answers) : M answers :=
  let* a' := ask darwin p QStrength methods a in from_fail darwin p methods a'.

Definition from_confidence darwin p methods (a : answers) : M answers :=
  let* a' := ask darwin p QConfidence methods a in from_strength darwin p methods a'.

Definition from_best darwin p methods (a : answers) : M answers :=
  let* a' := ask darwin p QBest methods a in from_confidence darwin p methods a'.

Definition question_loop (darwin : bool) (p : list nat) (methods : string * string)
  : M answers :=
  from_best darwin p methods no_answers.

(** The code that runs from question [q] on, and the question that
    follows [q]. *)
Definition stage (q : question) darwin p methods : answers -> M answers :=
  match q with
  | QBest => from_best darwin p methods
  | QConfidence => from_confidence darwin p methods
  | QStrength => from_strength darwin p methods
  | QFail => from_fail darwin p methods
  | QComment => from_comment darwin p methods
  end.

Definition next_question (q : question) : option question :=
  match q with
  | QBest => Some QConfidence
  | QConfidence => Some QStrength
  | QStrength => Some QFail
  | QFail => Some QComment
  | QComment => None
  end.

(** The answers each question accepts ([None]: any text). *)
Definition valid_answers (q : question) : option (list string) :=
  match q with
  | QBest => Some ["1"; "2"]
  | QConfidence => Some ["1"; "2"; "3"]
  | QStrength => Some ["0"; "1"; "2"; "3"]
  | QFail => Some ["0"; "1"; "2"; "3"]
  | QComment => None
  end.

End Console.

(** ** The session loop of [__main__] *)
Module Session.
Import Console.

(** A value of a column read by [pd.read_csv]: pandas infers the type
    of each column, so that a field comes back as text, as an integer, as
    a float (NaN for a missing value) or as a truth value. *)
Inductive cell :=
| CText (s : string)
| CInt (z : Z)
| CFloat (x : Py.float)
| CBool (b : bool).

(** The outside world, as far as the script depends on it: the platform,
    whether [xdotool] was found, the draws of [randbelow(2)] made by
    [random.shuffle] (whether the n-th draw is 0), the readings of
    [time.time()], the shape of the image stored at a path (if it loads),
    the text an f-string produces for a float, and two library calls whose
    code is not part of the script:
    - [staging image seg1 seg2]: the exception, if any, raised while
      [run_freeview] creates [/tmp/labeling], saves the mask and copies
      the two segmentations (lines 116-129);
    - [read_first_column content]: what
      [pd.read_csv(results_file, header=None).iloc[:,0].tolist()] gives
      for a results file of the given content, with the quoting rules and
      the type inference of pandas, or the exception it raises. *)
Record world := {
  darwin : bool;
  xdotool_installed : bool;
  randbelow_is_zero : nat -> bool;
  clock : nat -> Q;
  nib_load : string -> option Mask.voxel;
  str_float : Q -> string;
  staging : string -> string -> string -> option exn;
  read_first_column : string -> result (list cell)
}.

(** A row of the input table: the index [subject_id], the fixed columns
    and the segmentation path columns, which are named after the methods.
    The identifier is text: the rows are those of a table whose [ID]
    column pandas reads as text. *)
Record row := {
  subject_id : string;
  ID : string;
  image : string;
  x1 : Py.float;
  y1 : Py.float;
  z1 : Py.float;
  num_differences : Z;
  seg : gmap string string
}.

(** The command line, as far as the loop uses it. *)
Record args := {
  met1 : string;
  met2 : string;
  user : option string;
  fs : option string
}.

(** [row[column]] for a segmentation path column. *)
Definition getitem (r : row) (column : string) : result string :=
  match seg r !! column with
  | Some v => Ok v
  | None => Raise (KeyError column)
  end.

(** Reading a global variable that may never have been assigned. *)
Definition global (name : string) (value : option string) : result string :=
  match value with
  | Some v => Ok v
  | None => Raise (NameError name)
  end.

Definition newline : string := String (ascii_of_nat 10) EmptyString.

Definition time (w : world) : M Q := fun s =>
  ([], Ok (clock w (ticks s),
           {| inputs := inputs s; next_pid := next_pid s;
              draws := draws s; ticks := S (ticks s) |})).

(** [random.shuffle(method_idx)] *)
Definition shuffle (w : world) (method_idx : nat * nat) : M (nat * nat) := fun s =>
  ([], Ok (Py.shuffle2 (randbelow_is_zero w (draws s)) method_idx,
           {| inputs := inputs s; next_pid := next_pid s;
              draws := S (draws s); ticks := ticks s |})).

(** [subprocess.Popen(...)]: a new process. *)
Definition popen (subject image seg1 seg2 : string) : M nat := fun s =>
  ([EvLaunch (next_pid s) subject image seg1 seg2],
   Ok (next_pid s,
       {| inputs := inputs s; next_pid := S (next_pid s);
          draws := draws s; ticks := ticks s |})).

(** The path adaptation for MacOS. *)
Definition adapt_path (w : world) (path : string) : string :=
  if darwin w then Py.replace "/groups/" "/Volumes/" path else path.

(** [run_freeview]: load the image, build and save the mask, copy the
    segmentations, start the viewer, sleep one second and hide the new
    window when [xdotool] is there. The files written to [/tmp/labeling]
    are not traced; writing them can fail. *)
Definition run_freeview (w : world) (subject image seg1 seg2 : string)
  (center : Py.float * Py.float * Py.float) (freesurfer_path : string)
  : M (nat * nat) :=
  let image := adapt_path w image in
  let seg1 := adapt_path w seg1 in
  let seg2 := adapt_path w seg2 in
  let* orig_shape :=
    lift (match nib_load w image with
          | Some sh => Ok sh
          | None => Raise (FileNotFoundError image)
          end) in
  let* mask := lift (Mask.build_mask orig_shape center) in
  lift (match staging w image seg1 seg2 with
        | None => Ok tt
        | Some e => Raise e
        end) ;;;
  let* p := popen subject image seg1 seg2 in
  emit (EvSleep 1000) ;;;
  when (xdotool_installed w) (emit (EvXdo WindowUnmap p)) ;;;
  ret (p, p).

(** [[names[i] for i in method_idx]] *)
Definition pick {A} (names : A * A) (i : nat) : A :=
  match i with
  | O => fst names
  | _ => snd names
  end.

Definition select {A} (names : A * A) (method_idx : nat * nat) : A * A :=
  (pick names (fst method_idx), pick names (snd method_idx)).

(** The block that the loop repeats for each window it opens: shuffle
    [method_idx], order the method names and the segmentation paths by it
    and call [run_freeview]. It returns the process, the shuffled method
    names and the new [method_idx]. *)
Definition open_window (w : world) (a : args) (freesurfer_path : option string)
  (r : row) (method_idx : nat * nat) : M (nat * (string * string) * (nat * nat)) :=
  let* method_idx := shuffle w method_idx in
  let methods := select (met1 a, met2 a) method_idx in
  let* s1 := lift (getitem r (met1 a)) in
  let* s2 := lift (getitem r (met2 a)) in
  let segmentations := select (s1, s2) method_idx in
  let* fsp := lift (global "freesurfer_path" freesurfer_path) in
  let* pu := run_freeview w (subject_id r) (image r)
               (fst segmentations) (snd segmentations) (x1 r, y1 r, z1 r) fsp in
  ret (fst pu, methods, method_idx).

(** The variables that live across iterations. *)
Record carried := {
  p_next : option nat;
  method_idx : nat * nat;
  methods_next : string * string;
  already_labeled : nat
}.

Definition initially : carried :=
  {| p_next := None; method_idx := (0, 1); methods_next := ("", "");
     already_labeled := 0 |}.

Fixpoint repeat_m (n : nat) (m : M unit) : M unit :=
  match n with
  | O => ret tt
  | S k => m ;;; repeat_m k m
  end.

(** Lines 363-401: on the first iteration both windows are opened and the
    script waits twelve seconds; afterwards the prefetched window becomes
    the current one and the next one is opened. It returns [p], the new
    [p_next], [methods] and the variables carried on. *)
Definition prefetch (w : world) (a : args) (freesurfer_path : option string)
  (r r_next : row) (c : carried)
  : M (nat * nat * (string * string) * carried) :=
  match p_next c with
  | None =>
      let* cur := open_window w a freesurfer_path r (0, 1) in
      let* nxt := open_window w a freesurfer_path r_next (snd cur) in
      repeat_m 10 (emit (EvSleep 1200)) ;;;
      ret (fst (fst cur), fst (fst nxt), snd (fst cur),
           {| p_next := Some (fst (fst nxt)); method_idx := snd nxt;
              methods_next := snd (fst nxt); already_labeled := already_labeled c |})
  | Some p =>
      let* nxt := open_window w a freesurfer_path r_next (method_idx c) in
      ret (p, fst (fst nxt), methods_next c,
           {| p_next := Some (fst (fst nxt)); method_idx := snd nxt;
              methods_next := snd (fst nxt); already_labeled := already_labeled c |})
  end.

(** Lines 423-431: SIGTERM to the process group on MacOS, otherwise to
    the process, followed by closing its window. *)
Definition terminate (w : world) (p : nat) : M unit :=
  if darwin w then emit (EvTerm true p)
  else (emit (EvTerm false p) ;;; when (xdotool_installed w) (emit (EvXdo WindowClose p))).

(** The eleven values of a record, in the order of line 438. *)
Definition record_fields (w : world) (r : row) (methods : string * string)
  (ans : answers) (comment : string) (user : string) (label_time : Q)
  : list string :=
  [ ID r; fst methods; snd methods; best ans; confidence ans;
    Py.str_int (difference_strength ans); fail ans; comment; user;
    str_float w label_time; Py.str_int (num_differences r) ].

(** The f-string of line 438. *)
Definition record_line (w : world) (r : row) (methods : string * string)
  (ans : answers) (comment : string) (user : string) (label_time : Q)
  : string :=
  ID r +:+ "," +:+ fst methods +:+ "," +:+ snd methods +:+ "," +:+
  best ans +:+ "," +:+ confidence ans +:+ "," +:+
  Py.str_int (difference_strength ans) +:+ "," +:+ fail ans +:+ "," +:+
  comment +:+ "," +:+ user +:+ "," +:+ str_float w label_time +:+ "," +:+
  Py.str_int (num_differences r) +:+ newline.

(** Lines 404-438: reveal the window, ask the questions, sanitize the
    comment, terminate the viewer and append the record. *)
Definition label (w : world) (user : string) (r : row) (p pn : nat)
  (methods : string * string) (c : carried) : M carried :=
  let* labeling_start := time w in
  when (xdotool_installed w) (emit (EvSleep 500) ;;; emit (EvXdo WindowMap p)) ;;;
  let* ans := question_loop (darwin w) [p; pn] methods in
  let comment := Py.replace "," ";" (comment ans) in
  let* now := time w in
  let label_time := (now - labeling_start)%Q in
  terminate w p ;;;
  emit (EvAppend p (record_line w r methods ans comment user label_time)) ;;;
  ret {| p_next := p_next c; method_idx := method_idx c;
         methods_next := methods_next c;
         already_labeled := S (already_labeled c) |}.

(** One iteration of the [for] loop. *)
Definition iteration (w : world) (a : args) (user : string)
  (freesurfer_path : option string) (r r_next : row) (c : carried) : M carried :=
  let* pc := prefetch w a freesurfer_path r r_next c in
  let '(p, pn, methods, c') := pc in
  label w user r p pn methods c'.

Fixpoint session_loop (w : world) (a : args) (user : string)
  (freesurfer_path : option string) (pairs : list (row * row)) (c : carried)
  : M carried :=
  match pairs with
  | [] => ret c
  | (r, r_next) :: rest =>
      let* c' := iteration w a user freesurfer_path r r_next c in
      session_loop w a user freesurfer_path rest c'
  end.

(** [zip(diff_areas[:-1].iterrows(), diff_areas[1:].iterrows())] *)
Definition row_pairs (diff_areas : list row) : list (row * row) :=
  zip (take (length diff_areas - 1) diff_areas) (drop 1 diff_areas).

(** *** The resume filter *)

(** [x == c] for a text [x] and a value [c] read from a file: a text
    equals the text of the same characters, and no number, NaN or truth
    value. *)
Definition eq_text (x : string) (c : cell) : bool :=
  match c with
  | CText s => String.eqb x s
  | _ => false
  end.

(** [diff_areas['ID'].isin(already_labeled_subjs)] on one row *)
Definition isin (r : row) (already_labeled_subjs : list cell) : bool :=
  existsb (eq_text (ID r)) already_labeled_subjs.

(** [diff_areas[~diff_areas['ID'].isin(already_labeled_subjs)]] *)
Definition remove_labeled (already_labeled_subjs : list cell)
  (diff_areas : list row) : list row :=
  List.filter (fun r => negb (isin r already_labeled_subjs)) diff_areas.

(** Lines 345-353; [results] is the content of the results file when the
    file exists. *)
Definition resume (w : world) (results : option string) (diff_areas : list row)
  : result (list row) :=
  match results with
  | None => Ok diff_areas
  | Some content =>
      rbind (read_first_column w content) (fun already_labeled_subjs =>
        Ok (remove_labeled already_labeled_subjs diff_areas))
  end.

(** *** The configuration preamble *)

(** A value of [os.environ] is a string, never [None]. *)
Definition is_not_None (v : string) : bool := true.

Definition paths_to_try : list string :=
  [ "/groups/ag-reuter/software/centos/freesurfer741";
    "/Applications/freesurfer/7.1.1" ].

(** [os.path.isdir(paths_to_try)]: the argument is the whole list, on
    which [os.stat] raises [TypeError]. *)
Definition isdir_paths_to_try (isdir : string -> bool) : result bool :=
  Raise TypeError.

Fixpoint try_paths (isdir : string -> bool) (paths : list string)
  : result (option string) :=
  match paths with
  | [] => Ok None
  | p :: rest =>
      rbind (isdir_paths_to_try isdir) (fun found =>
        if found then Ok (Some p) else try_paths isdir rest)
  end.

(** Lines 313-322. The result is the value of the global
    [freesurfer_path], or [None] when no branch assigned it. *)
Definition resolve_freesurfer (a : args) (env : gmap string string)
  (isdir : string -> bool) : result (option string) :=
  match fs a with
  | None =>
      match env !! "FREESURFER_HOME" with
      | None => Raise (KeyError "FREESURFER_HOME")
      | Some v =>
          if is_not_None v then Ok (Some v)
          else try_paths isdir paths_to_try
      end
  | Some _ => Ok None
  end.

(** Lines 324-326. *)
Definition check_user (a : args) : result string :=
  match user a with
  | None => Exit 1
  | Some u => Ok u
  end.

(** The script from line 313 on, given the parsed input table and the
    content of the results file, if there is one. *)
Definition main (w : world) (a : args) (env : gmap string string)
  (isdir : string -> bool) (diff_areas : list row) (results : option string)
  : M unit :=
  let* freesurfer_path := lift (resolve_freesurfer a env isdir) in
  let* user := lift (check_user a) in
  let* diff_areas := lift (resume w results diff_areas) in
  session_loop w a user freesurfer_path (row_pairs diff_areas) initially ;;;
  ret tt.

Definition start (console : list reply) : state :=
  {| inputs := console; next_pid := 0; draws := 0; ticks := 0 |}.

(** The events of a whole run and how it ends. *)
Definition run (w : world) (a : args) (env : gmap string string)
  (isdir : string -> bool) (diff_areas : list row) (results : option string)
  (console : list reply) : list event * result unit :=
  let '(t, r) := main w a env isdir diff_areas results (start console) in
  (t, forget r).

(** *** Reading a trace *)

(** The lines appended to the results file, in order. *)
Fixpoint appended (t : list event) : list string :=
  match t with
  | [] => []
  | EvAppend _ line :: t' => line :: appended t'
  | _ :: t' => appended t'
  end.

(** The content of the results file after the events of [t]
    ([open(..., mode='a')] creates the file). *)
Definition results_after (before : option string) (t : list event) : option string :=
  match appended t, before with
  | [], _ => before
  | ls, None => Some (String.concat "" ls)
  | ls, Some content => Some (content +:+ String.concat "" ls)
  end.

(** The processes whose record was appended, in order. *)
Fixpoint recorded (t : list event) : list nat :=
  match t with
  | [] => []
  | EvAppend p _ :: t' => p :: recorded t'
  | _ :: t' => recorded t'
  end.

(** The processes for which the last question was answered, in order. *)
Fixpoint answered (t : list event) : list nat :=
  match t with
  | [] => []
  | EvInput (p :: _) QComment (Some (Line s)) :: t' =>
      if String.eqb s "stop" then answered t' else p :: answered t'
  | _ :: t' => answered t'
  end.

(** The processes launched, in order. *)
Fixpoint launched (t : list event) : list nat :=
  match t with
  | [] => []
  | EvLaunch p _ _ _ _ :: t' => p :: launched t'
  | _ :: t' => launched t'
  end.

(** The viewer processes alive after the events of [t], starting from the
    processes [live]: a launch adds a process, SIGTERM removes it. *)
Definition alive_step (live : list nat) (e : event) : list nat :=
  match e with
  | EvLaunch p _ _ _ _ => p :: live
  | EvTerm _ p => List.filter (fun x => negb (Nat.eqb x p)) live
  | _ => live
  end.

Definition alive_from (live : list nat) (t : list event) : list nat :=
  fold_left alive_step t live.

Definition alive (t : list event) : list nat := alive_from [] t.

(** The kinds of event that matter for the order of a run. *)
Definition is_launch (e : event) : bool :=
  match e with EvLaunch _ _ _ _ _ => true | _ => false end.
Definition is_term (e : event) : bool :=
  match e with EvTerm _ _ => true | _ => false end.
Definition is_append (e : event) : bool :=
  match e with EvAppend _ _ => true | _ => false end.

(** A launch of a process numbered above [k + 1]. *)
Definition far_launch (k : nat) (e : event) : bool :=
  match e with EvLaunch p _ _ _ _ => Nat.ltb (S k) p | _ => false end.

(** Sleeps and window commands. *)
Definition quiet (e : event) : Prop :=
  match e with
  | EvSleep _ | EvXdo _ _ => True
  | _ => False
  end.

(** The processes alive at the head of iteration [k]. *)
Definition head_live (k : nat) : list nat :=
  match k with
  | O => []
  | S _ => [k]
  end.

(** A stop command or an interrupt. *)
Definition is_stop (r : reply) : bool :=
  match r with
  | Interrupt => true
  | Line s => String.eqb s "stop"
  end.

(** *** The shape of a run

    What the trace of the session loop looks like, iteration by
    iteration. *)

(** An answered console read of [question_loop] holding the processes
    [ps]: a line other than the stop command. *)
Definition asked (ps : list nat) (e : event) : Prop :=
  exists q s, e = EvInput ps q (Some (Line s)) /\ s <> "stop".

(** A console read of question [q] whose line was rejected. *)
Definition rejected_at (ps : list nat) (q : question) (methods : string * string)
  (a : answers) (e : event) : Prop :=
  exists s, e = EvInput ps q (Some (Line s)) /\ s <> "stop" /\
            decode q methods s a = None.

(** The events of [run_freeview]. *)
Definition window_events (w : world) (p : nat) (subject image seg1 seg2 : string)
  : list event :=
  EvLaunch p subject image seg1 seg2 :: EvSleep 1000 ::
  (if xdotool_installed w then [EvXdo WindowUnmap p] else []).

Definition window_of (w : world) (r : row) (p : nat) (t : list event) : Prop :=
  exists image seg1 seg2, t = window_events w p (subject_id r) image seg1 seg2.

Definition reveal_events (w : world) (p : nat) : list event :=
  if xdotool_installed w then [EvSleep 500; EvXdo WindowMap p] else [].

Definition terminate_events (w : world) (p : nat) : list event :=
  EvTerm (darwin w) p ::
  (if darwin w then []
   else if xdotool_installed w then [EvXdo WindowClose p] else []).

Definition stop_events (group : bool) (ps : list nat) : list event :=
  map (EvTerm group) ps ++ [EvSleep 1000].

(** The windows opened at the start of iteration [k]: both windows and
    the warm-up on the first iteration, the next window afterwards. *)
Definition opening (w : world) (k : nat) (r r_next : row) (t : list event) : Prop :=
  match k with
  | O => exists t0 t1, window_of w r 0 t0 /\ window_of w r_next 1 t1 /\
                       t = t0 ++ t1 ++ repeat (EvSleep 1200) 10
  | S _ => window_of w r_next (S k) t
  end.

(** What is left of the opening when a window fails to open. *)
Definition broken_opening (w : world) (k : nat) (r : row) (t : list event) : Prop :=
  match k with
  | O => t = [] \/ window_of w r 0 t
  | S _ => t = []
  end.

(** The two orders of the method indices. *)
Definition is_order (method_idx : nat * nat) : Prop :=
  method_idx = (0, 1) \/ method_idx = (1, 0).

(** The values [question_loop] can return for the slots [methods]. *)
Definition answers_of (methods : string * string) (ans : answers) : Prop :=
  (best ans = fst methods \/ best ans = snd methods) /\
  (confidence ans = "random" \/ confidence ans = "uncertain" \/
   confidence ans = "certain") /\
  (0 <= difference_strength ans <= 3)%Z /\
  (fail ans = "None" \/ fail ans = fst methods \/ fail ans = snd methods \/
   fail ans = fst methods +:+ "+" +:+ snd methods).

(** What the code from question [q] on guarantees about the values it
    returns, given the values [a] assigned before. *)
Definition after (q : question) (methods : string * string) (a ans : answers)
  : Prop :=
  let ok_best := best ans = fst methods \/ best ans = snd methods in
  let ok_confidence :=
    confidence ans = "random" \/ confidence ans = "uncertain" \/
    confidence ans = "certain" in
  let ok_strength := (0 <= difference_strength ans <= 3)%Z in
  let ok_fail :=
    fail ans = "None" \/ fail ans = fst methods \/ fail ans = snd methods \/
    fail ans = fst methods +:+ "+" +:+ snd methods in
  match q with
  | QBest => ok_best /\ ok_confidence /\ ok_strength /\ ok_fail
  | QConfidence => best ans = best a /\ ok_confidence /\ ok_strength /\ ok_fail
  | QStrength =>
      best ans = best a /\ confidence ans = confidence a /\ ok_strength /\ ok_fail
  | QFail =>
      best ans = best a /\ confidence ans = confidence a /\
      difference_strength ans = difference_strength a /\ ok_fail
  | QComment =>
      best ans = best a /\ confidence ans = confidence a /\
      difference_strength ans = difference_strength a /\ fail ans = fail a
  end.

(** The outcomes of the question sequence run from state [s] while
    holding the processes [ps]: answers (every console read answered, the
    comment read once), a stop or an interrupt followed by
    [stop_labeling], or the end of the console input. *)
Definition question_outcome (group : bool) (ps : list nat) (s : state)
  (P : answers -> Prop) (o : list event * result (answers * state)) : Prop :=
  exists asks, Forall (asked ps) asks /\
    ((exists ans rest, o = (asks, Ok (ans, set_inputs rest s)) /\
        answered asks = take 1 ps /\ P ans /\
        EvInput ps QComment (Some (Line (comment ans))) ∈ asks)
     \/ (exists q rp, is_stop rp = true /\
           o = (asks ++ EvInput ps q (Some rp) :: stop_events group ps, Exit 0) /\
           answered asks = [])
     \/ (exists q, o = (asks ++ [EvInput ps q None], Raise EOFError) /\
           answered asks = [])).

(** [line] is a record of row [r] with the comment [cmt] as the operator
    typed it: the methods in some slot order, the answers of the operator
    with the comment sanitized, the labeler and an elapsed time. *)
Definition record_of (w : world) (a : args) (user : string) (r : row)
  (cmt line : string) : Prop :=
  exists method_idx ans tm,
    is_order method_idx /\
    answers_of (select (met1 a, met2 a) method_idx) ans /\
    comment ans = cmt /\
    line = record_line w r (select (met1 a, met2 a) method_idx) ans
             (Py.replace "," ";" cmt) user tm.

(** What holds of the carried variables and of the state at the head of
    iteration [k]: nothing is open before the first iteration; afterwards
    process [k] is the prefetched one, [k + 1] processes were created and
    [methods_next] lists the methods in the order of [method_idx]. *)
Definition at_head (a : args) (k : nat) (c : carried) (s : state) : Prop :=
  match k with
  | O => p_next c = None /\ next_pid s = 0
  | S _ =>
      p_next c = Some k /\ next_pid s = S k /\ is_order (method_idx c) /\
      methods_next c = select (met1 a, met2 a) (method_idx c)
  end.

(** A console read that delivered a stop command or an interrupt. *)
Definition is_stop_input (e : event) : bool :=
  match e with
  | EvInput _ _ (Some rp) => is_stop rp
  | _ => false
  end.

(** What an event of the loop from iteration [k] on can be: a launch of
    a process for the row of its number, a console read holding two
    consecutive processes, a SIGTERM of the kind the platform asks for,
    the record of a row under the number of its process, a sleep or a
    window command. *)
Definition loop_event (w : world) (a : args) (user : string) (rows : list row)
  (k : nat) (e : event) : Prop :=
  match e with
  | EvLaunch p subject _ _ _ =>
      k <= p /\ exists r, rows !! p = Some r /\ subject = subject_id r
  | EvInput ps _ _ =>
      exists p, ps = [p; S p] /\ k <= p /\ S p < length rows
  | EvTerm group p => group = darwin w /\ k <= p
  | EvAppend p line =>
      k <= p /\ exists r cmt, rows !! p = Some r /\ record_of w a user r cmt line
  | EvSleep _ | EvXdo _ _ => True
  end.

(** [loop_trace w a user rows k t res]: [t] and [res] are a trace and an
    outcome of the loop from iteration [k] on, over the worklist [rows];
    the process numbered [k] shows row [k]. *)
Inductive loop_trace (w : world) (a : args) (user : string) (rows : list row)
  : nat -> list event -> result unit -> Prop :=
| loop_done k :
    length rows <= S k ->
    loop_trace w a user rows k [] (Ok tt)
| loop_next k r r_next t0 asks cmt line t res :
    rows !! k = Some r -> rows !! S k = Some r_next ->
    opening w k r r_next t0 ->
    Forall (asked [k; S k]) asks -> answered asks = [k] ->
    EvInput [k; S k] QComment (Some (Line cmt)) ∈ asks ->
    record_of w a user r cmt line ->
    loop_trace w a user rows (S k) t res ->
    loop_trace w a user rows k
      (t0 ++ reveal_events w k ++ asks ++ terminate_events w k
          ++ EvAppend k line :: t) res
| loop_stop k r r_next t0 asks q rp :
    rows !! k = Some r -> rows !! S k = Some r_next ->
    opening w k r r_next t0 ->
    Forall (asked [k; S k]) asks -> answered asks = [] ->
    is_stop rp = true ->
    loop_trace w a user rows k
      (t0 ++ reveal_events w k ++ asks
          ++ EvInput [k; S k] q (Some rp) :: stop_events (darwin w) [k; S k])
      (Exit 0)
| loop_eof k r r_next t0 asks q :
    rows !! k = Some r -> rows !! S k = Some r_next ->
    opening w k r r_next t0 ->
    Forall (asked [k; S k]) asks -> answered asks = [] ->
    loop_trace w a user rows k
      (t0 ++ reveal_events w k ++ asks ++ [EvInput [k; S k] q None])
      (Raise EOFError)
| loop_broken k r r_next t0 e :
    rows !! k = Some r -> rows !! S k = Some r_next ->
    broken_opening w k r t0 ->
    loop_trace w a user rows k t0 (Raise e).

End Session.

(** Split a conjunction into its conjuncts. *)
Ltac conjuncts := repeat match goal with |- _ /\ _ => split end.

(** Close a goal that evaluates a test on a constructor. *)
Ltac no_kind :=
  first [ reflexivity | intros; reflexivity | assumption ].

(** ** A small scenario

    Three subjects, methods "A" and "B", a Linux host with [xdotool]; it
    is used to run the definitions on concrete inputs. *)
Module Scenario.
Import Console Session.

(** What pandas reads from a results file of plain lines: no quote and
    no carriage return, the same number of fields on every line, and
    first fields that are names such as "S1" (not all of them numbers or
    truth values, none a missing-value marker). The first column is then
    the text before the first comma of each non-empty line; an empty file
    raises [EmptyDataError]. *)
Definition first_field (line : string) : string :=
  match Py.split "," line with
  | f :: _ => f
  | [] => EmptyString
  end.

Definition nonempty (s : string) : bool :=
  match s with
  | EmptyString => false
  | _ => true
  end.

Definition plain_first_column (content : string) : result (list cell) :=
  match List.filter nonempty (Py.split (ascii_of_nat 10) content) with
  | [] => Raise EmptyDataError
  | lines => Ok (map (fun line => CText (first_field line)) lines)
  end.

(** The host of the scenario; its results files are plain. *)
Definition linux : world :=
  {| darwin := false;
     xdotool_installed := true;
     randbelow_is_zero := Nat.even;
     clock := fun n => inject_Z (Z.of_nat (7 * n));
     nib_load := fun _ => Some (256, 256, 256)%Z;
     str_float := fun _ => "7.0";
     staging := fun _ _ _ => None;
     read_first_column := plain_first_column |}.

Definition subject (name : string) (x y z : Z) : row :=
  {| subject_id := name;
     ID := name;
     image := "/data/" +:+ name +:+ "/orig.mgz";
     x1 := Py.of_Z x; y1 := Py.of_Z y; z1 := Py.of_Z z;
     num_differences := 12;
     seg := {[ "A" := "/data/" +:+ name +:+ "/A.mgz";
               "B" := "/data/" +:+ name +:+ "/B.mgz" ]} |}.

Definition worklist : list row :=
  [ subject "S1" 100 120 90; subject "S2" 128 128 128; subject "S3" 60 70 80 ].

Definition cli_as (labeler : string) : args :=
  {| met1 := "A"; met2 := "B"; user := Some labeler; fs := None |}.

Definition cli : args := cli_as "anna".

(** The same command line with [--fs] given. *)
Definition cli_fs : args :=
  {| met1 := "A"; met2 := "B"; user := Some "anna"; fs := Some "/opt/freesurfer" |}.

(** A results file that holds the record of "S1". *)
Definition one_record : string :=
  "S1,B,A,B,certain,2,None,fine; but noisy,anna,7.0,12" +:+ newline.

(** Only the second well-known install location exists. *)
Definition only_applications : string -> bool :=
  String.eqb "/Applications/freesurfer/7.1.1".

Definition env : gmap string string :=
  {[ "FREESURFER_HOME" := "/opt/freesurfer"; "USER" := "anna" ]}.

Definition no_dirs : string -> bool := fun _ => false.

(** Valid answers to the five questions, for as many subjects as asked. *)
Definition one_subject : list reply :=
  [ Line "1"; Line "3"; Line "2"; Line "0"; Line "fine, but noisy" ].

Definition three_subjects : list reply := one_subject ++ one_subject ++ one_subject.

End Scenario.

(** ** The documented labels

    The answers each question accepts and the label each answer stands
    for, as the documentation of the tool words them; the theorems compare
    [question_loop] with these tables. *)
Module Labels.
Import Console.

(** Preference: "1" and "2" stand for the method shown in that slot. *)
Definition preference_label (methods : string * string) (answer : string) : string :=
  if String.eqb answer "1" then fst methods else snd methods.

(** Confidence: "1", "2", "3" stand for random, uncertain, certain. *)
Definition confidence_label (answer : string) : string :=
  if String.eqb answer "1" then "random"
  else if String.eqb answer "2" then "uncertain"
  else "certain".

(** Difference magnitude: "0" to "3" stand for the integer. *)
Definition magnitude_label (answer : string) : Z :=
  if String.eqb answer "0" then 0
  else if String.eqb answer "1" then 1
  else if String.eqb answer "2" then 2
  else 3.

(** Failure: "0" stands for none, "1" and "2" for the method in that
    slot, "3" for both. *)
Definition failure_label (methods : string * string) (answer : string) : string :=
  if String.eqb answer "0" then "None"
  else if String.eqb answer "1" then fst methods
  else if String.eqb answer "2" then snd methods
  else fst methods +:+ "+" +:+ snd methods.

(** The values held once question [q] took [answer]: the variable of
    [q] holds the label of the answer, the others are what they were. *)
Definition labelled (q : question) (methods : string * string) (answer : string)
  (a : answers) : answers :=
  match q with
  | QBest =>
      {| best := preference_label methods answer; confidence := confidence a;
         difference_strength := difference_strength a; fail := fail a;
         comment := comment a |}
  | QConfidence =>
      {| best := best a; confidence := confidence_label answer;
         difference_strength := difference_strength a; fail := fail a;
         comment := comment a |}
  | QStrength =>
      {| best := best a; confidence := confidence a;
         difference_strength := magnitude_label answer; fail := fail a;
         comment := comment a |}
  | QFail =>
      {| best := best a; confidence := confidence a;
         difference_strength := difference_strength a;
         fail := failure_label methods answer; comment := comment a |}
  | QComment =>
      {| best := best a; confidence := confidence a;
         difference_strength := difference_strength a; fail := fail a;
         comment := answer |}
  end.

(** [answer] is in the enumerated set of [q]; the comment takes any text. *)
Definition accepted (q : question) (answer : string) : bool :=
  match valid_answers q with
  | Some l => member answer l
  | None => true
  end.

(** A line that [q] does not take and that is not the stop command. *)
Definition rejected (q : question) (answer : string) : Prop :=
  answer <> "stop" /\ accepted q answer = false.

(** Console lines, and the console reads of question [q] that got them. *)
Definition lines (l : list string) : list reply := map Line l.

Definition reads (p : list nat) (q : question) (l : list string) : list event :=
  map (fun s => EvInput p q (Some (Line s))) l.

End Labels.

(** ** Further observers and inputs *)
Module Cases.
Import Console Session.

(** A console read that met the end of the input. *)
Definition is_eof_input (e : event) : bool :=
  match e with
  | EvInput _ _ None => true
  | _ => false
  end.

(** The subjects of the windows launched, in order. *)
Fixpoint shown (t : list event) : list string :=
  match t with
  | [] => []
  | EvLaunch _ subject _ _ _ :: t' => subject :: shown t'
  | _ :: t' => shown t'
  end.

(** An event that names a row names one that the resume filter kept,
    [found] being the values read from the results file: the window
    launched as process [p] and the record appended for process [p] are
    those of row [p] of [rows], whose identifier is not among [found]; the
    record starts with that identifier. *)
Definition kept_event (found : list cell) (rows : list row) (e : event) : Prop :=
  match e with
  | EvLaunch p subject _ _ _ =>
      exists r, rows !! p = Some r /\ subject = subject_id r /\
                CText (ID r) ∉ found
  | EvAppend p line =>
      exists r rest, rows !! p = Some r /\ line = ID r +:+ "," +:+ rest /\
                     CText (ID r) ∉ found
  | _ => True
  end.

(** The command line of the scenario without a labeler ([--user] not
    given and [USER] not set). *)
Definition cli_nobody : args :=
  {| met1 := "A"; met2 := "B"; user := None; fs := None |}.

(** The command line of the scenario for a method that has no column. *)
Definition cli_other : args :=
  {| met1 := "C"; met2 := "B"; user := Some "anna"; fs := None |}.

(** A row whose first coordinate is missing in the table. *)
Definition blank (name : string) : row :=
  {| subject_id := name;
     ID := name;
     image := "/data/" +:+ name +:+ "/orig.mgz";
     x1 := Py.Nan; y1 := Py.of_Z 128; z1 := Py.of_Z 128;
     num_differences := 12;
     seg := {[ "A" := "/data/" +:+ name +:+ "/A.mgz";
               "B" := "/data/" +:+ name +:+ "/B.mgz" ]} |}.

(** Valid answers for two subjects. *)
Definition two_subjects : list reply := Scenario.one_subject ++ Scenario.one_subject.

(** The table of the scenario with the identifier "007" for its first
    subject, and the record the tool writes for that subject. *)
Definition numbered : list row :=
  [ Scenario.subject "007" 100 120 90; Scenario.subject "S2" 128 128 128;
    Scenario.subject "S3" 60 70 80 ].

Definition record_007 : string :=
  "007,B,A,B,certain,2,None,fine; but noisy,anna,7.0,12" +:+ newline.

(** The host of the scenario reading [record_007]: every field of the
    first column of that file is a number, so pandas reads the column as
    integers and "007" comes back as 7. *)
Definition linux_numbers : world :=
  {| darwin := false;
     xdotool_installed := true;
     randbelow_is_zero := Nat.even;
     clock := fun n => inject_Z (Z.of_nat (7 * n));
     nib_load := fun _ => Some (256, 256, 256)%Z;
     str_float := fun _ => "7.0";
     staging := fun _ _ _ => None;
     read_first_column := fun content =>
       if String.eqb content record_007 then Ok [CInt 7]
       else Scenario.plain_first_column content |}.

End Cases.

(** * Properties *)

(** ** The mask volume *)
Module MaskFacts.
Import Mask.
Local Open Scope Z_scope.

Lemma int_of_Z (z : Z) : Py.int (Py.of_Z z) = Ok z.
Proof. unfold Py.int, Py.of_Z. simpl. now rewrite Z.quot_1_r. Qed.

Lemma int_center_of (x y z : Z) : int_center (center_of x y z) = Ok (x, y, z).
Proof. unfold int_center, center_of. now rewrite !int_of_Z. Qed.

Lemma build_mask_ok sh center c :
  int_center center = Ok c ->
  build_mask sh center =
    Ok (set_block (ones sh)
          (comp Ax0 c - 20, comp Ax1 c - 20, comp Ax2 c - 20)
          (comp Ax0 c + 20, comp Ax1 c + 20, comp Ax2 c + 20) 0).
Proof.
  intros H. unfold build_mask. rewrite H. destruct c as [[i0 i1] i2]. reflexivity.
Qed.

(** On one axis: a lower bound that is not negative selects the
    positions of the cube that lie on the axis. *)
Lemma in_slice_clear n c x :
  0 <= c - 20 -> 0 <= x < n ->
  Py.in_slice n (c - 20) (c + 20) x = (c - 20 <=? x) && (x <? c + 20).
Proof.
  intros Hc Hx. unfold Py.in_slice, Py.slice_bound.
  destruct (Z.ltb_spec (c - 20) 0); [lia|].
  destruct (Z.ltb_spec (c + 20) 0); [lia|].
  destruct (Z.leb_spec (Z.min (c - 20) n) x), (Z.leb_spec (c - 20) x),
    (Z.ltb_spec x (Z.min (c + 20) n)), (Z.ltb_spec x (c + 20)); simpl;
    try reflexivity; exfalso; lia.
Qed.

(** On one axis: a negative lower bound is counted from the end of the
    axis. *)
Lemma slice_bound_negative n i :
  i < 0 -> Py.slice_bound n i = Z.max (n + i) 0.
Proof.
  intros H. unfold Py.slice_bound. destruct (Z.ltb_spec i 0); [|lia].
  now rewrite Z.add_comm.
Qed.

(** With a negative lower bound on an axis longer than the part of the
    cube that lies on it, position 0 is skipped. *)
Lemma in_slice_wrapped_skips_origin n c :
  0 <= c -> c - 20 < 0 -> 20 - c < n ->
  Py.in_slice n (c - 20) (c + 20) 0 = false.
Proof.
  intros H0 Hc Hn. unfold Py.in_slice. rewrite slice_bound_negative by lia.
  destruct (Z.leb_spec (Z.max (n + (c - 20)) 0) 0); [lia|reflexivity].
Qed.

(** With a negative lower bound on an axis of at least 40 positions, the
    slice is empty. *)
Lemma in_slice_wrapped_empty n c x :
  0 <= c -> c - 20 < 0 -> 40 <= n ->
  Py.in_slice n (c - 20) (c + 20) x = false.
Proof.
  intros H0 Hc Hn. unfold Py.in_slice. rewrite slice_bound_negative by lia.
  unfold Py.slice_bound. destruct (Z.ltb_spec (c + 20) 0); [lia|].
  destruct (Z.leb_spec (Z.max (n + (c - 20)) 0) x),
    (Z.ltb_spec x (Z.min (c + 20) n)); simpl; try reflexivity; exfalso; lia.
Qed.

(** When every component of the center is at least 20, the mask is zero
    exactly inside the cube (clipped at the upper end of each axis). *)
Lemma build_mask_clear sh center c :
  int_center center = Ok c ->
  (forall a, 20 <= comp a c) ->
  exists m, build_mask sh center = Ok m /\
    forall v, in_shape sh v -> item m v = cube_mask c v.
Proof.
  intros Hc Hlo. rewrite (build_mask_ok sh center c Hc).
  eexists. split; [reflexivity|].
  intros v Hv. unfold set_block, ones, cube_mask, in_cube. cbn [item shape].
  destruct sh as [[n0 n1] n2], c as [[c0 c1] c2], v as [[x y] z].
  pose proof (Hlo Ax0). pose proof (Hlo Ax1). pose proof (Hlo Ax2).
  pose proof (Hv Ax0). pose proof (Hv Ax1). pose proof (Hv Ax2).
  cbn [comp] in *.
  rewrite !in_slice_clear by lia.
  rewrite !andb_assoc. reflexivity.
Qed.

Lemma set_block_outside arr lo hi value v a :
  Py.in_slice (comp a (shape arr)) (comp a lo) (comp a hi) (comp a v) = false ->
  item (set_block arr lo hi value) v = item arr v.
Proof.
  intros H. unfold set_block. cbn [item].
  destruct a; rewrite H; rewrite ?andb_false_r; reflexivity.
Qed.

(** C8, evaluated on a standard 256-voxel volume with a center 10 voxels
    from the lower face of the first axis: the slice [-10:30] selects
    nothing on an axis of length 256, so no voxel is zeroed. The voxel at
    the center itself lies in the 40-voxel cube and keeps the value one. *)
Theorem mask_near_lower_face_is_all_ones :
  exists m,
    build_mask (256, 256, 256) (center_of 10 128 128) = Ok m /\
    in_cube (10, 128, 128) (10, 128, 128) = true /\
    item m (10, 128, 128) = 1 /\
    forall v, item m v = 1.
Proof.
  rewrite (build_mask_ok _ _ _ (int_center_of 10 128 128)).
  eexists. split; [reflexivity|]. split; [reflexivity|].
  assert (forall v, item (set_block (ones (256, 256, 256))
            (comp Ax0 (10, 128, 128) - 20, comp Ax1 (10, 128, 128) - 20,
             comp Ax2 (10, 128, 128) - 20)
            (comp Ax0 (10, 128, 128) + 20, comp Ax1 (10, 128, 128) + 20,
             comp Ax2 (10, 128, 128) + 20) 0) v = 1) as Hall.
  { intros v. rewrite (set_block_outside _ _ _ _ _ Ax0); [reflexivity|].
    cbn [comp shape ones]. apply in_slice_wrapped_empty; lia. }
  split; [apply Hall | exact Hall].
Qed.

(** C10 as stated fails on a small volume: in a 10 x 10 x 10 image with
    center (5, 5, 5) every lower bound is negative (-15) and is counted
    from the end of the axis, yet after clipping the slice covers the
    whole axis, so the zeroed region is exactly the cube around the
    center. *)
Lemma wrapped_bound_can_give_the_cube :
  in_shape (10, 10, 10) (5, 5, 5) /\
  (forall a, comp a (5, 5, 5) - 20 < 0) /\
  (forall a, Py.slice_bound (comp a (10, 10, 10)) (comp a (5, 5, 5) - 20) = 0) /\
  exists m,
    build_mask (10, 10, 10) (center_of 5 5 5) = Ok m /\
    forall v, in_shape (10, 10, 10) v -> item m v = cube_mask (5, 5, 5) v.
Proof.
  split; [intros []; cbn; lia|].
  split; [intros []; cbn; lia|].
  split; [intros []; reflexivity|].
  rewrite (build_mask_ok _ _ _ (int_center_of 5 5 5)).
  eexists. split; [reflexivity|].
  intros [[x y] z] Hv.
  pose proof (Hv Ax0). pose proof (Hv Ax1). pose proof (Hv Ax2).
  cbn [comp] in *.
  unfold set_block, cube_mask, in_cube, Py.in_slice. cbn [item shape ones comp].
  replace (Py.slice_bound 10 (5 - 20)) with 0 by reflexivity.
  replace (Py.slice_bound 10 (5 + 20)) with 10 by reflexivity.
  destruct (Z.leb_spec 0 x), (Z.ltb_spec x 10), (Z.leb_spec 0 y), (Z.ltb_spec y 10),
    (Z.leb_spec 0 z), (Z.ltb_spec z 10); try lia.
  destruct (Z.leb_spec (5 - 20) x), (Z.ltb_spec x (5 + 20)),
    (Z.leb_spec (5 - 20) y), (Z.ltb_spec y (5 + 20)),
    (Z.leb_spec (5 - 20) z), (Z.ltb_spec z (5 + 20)); try lia.
  reflexivity.
Qed.

(** C10, amended: for an in-shape center with a component [c] such that
    [c - 20 < 0], the mask is built without error; the lower slice bound
    on that axis is negative and is counted from the end of the axis
    (clipped at 0); when the axis is longer than [20 - c] some voxel of
    the cube keeps the value one, so the zeroed region is not the cube;
    and when the axis has at least 40 positions nothing is zeroed: the
    mask is all ones. *)
Theorem negative_lower_bound_wraps sh center c a :
  int_center center = Ok c ->
  in_shape sh c ->
  comp a c - 20 < 0 ->
  exists m,
    build_mask sh center = Ok m /\
    shape m = sh /\
    Py.slice_bound (comp a sh) (comp a c - 20)
      = Z.max (comp a sh + (comp a c - 20)) 0 /\
    (20 - comp a c < comp a sh ->
       exists v, in_shape sh v /\ in_cube c v = true /\ item m v = 1) /\
    (40 <= comp a sh -> forall v, item m v = 1).
Proof.
  intros Hc Hin Hneg. rewrite (build_mask_ok sh center c Hc).
  eexists. split; [reflexivity|]. split; [reflexivity|].
  split; [now apply slice_bound_negative|].
  pose proof (Hin Ax0) as H0. pose proof (Hin Ax1) as H1. pose proof (Hin Ax2) as H2.
  split.
  - intros Hlen. exists (with_comp a 0 c). split; [|split].
    + intros b. destruct sh as [[n0 n1] n2], c as [[c0 c1] c2].
      destruct a, b; cbn [comp with_comp] in *; lia.
    + destruct c as [[c0 c1] c2]. unfold in_cube.
      destruct a; cbn [comp with_comp] in *;
        repeat match goal with
          | |- context [Z.leb ?x ?y] => destruct (Z.leb_spec x y); try lia
          | |- context [Z.ltb ?x ?y] => destruct (Z.ltb_spec x y); try lia
          end; reflexivity.
    + rewrite (set_block_outside _ _ _ _ _ a); [reflexivity|].
      destruct sh as [[n0 n1] n2], c as [[c0 c1] c2].
      destruct a; cbn [comp with_comp shape ones] in *;
        apply in_slice_wrapped_skips_origin; lia.
  - intros Hlen v. rewrite (set_block_outside _ _ _ _ _ a); [reflexivity|].
    destruct sh as [[n0 n1] n2], c as [[c0 c1] c2].
    destruct a; cbn [comp shape ones] in *; apply in_slice_wrapped_empty; lia.
Qed.

Lemma negative_lower_bound_wraps_witness :
  int_center (center_of 10 128 128) = Ok (10, 128, 128) /\
  in_shape (256, 256, 256) (10, 128, 128) /\
  comp Ax0 (10, 128, 128) - 20 < 0 /\
  exists m,
    build_mask (256, 256, 256) (center_of 10 128 128) = Ok m /\
    shape m = (256, 256, 256) /\
    Py.slice_bound (comp Ax0 (256, 256, 256)) (comp Ax0 (10, 128, 128) - 20)
      = Z.max (comp Ax0 (256, 256, 256) + (comp Ax0 (10, 128, 128) - 20)) 0 /\
    (20 - comp Ax0 (10, 128, 128) < comp Ax0 (256, 256, 256) ->
       exists v, in_shape (256, 256, 256) v /\
                 in_cube (10, 128, 128) v = true /\ item m v = 1) /\
    (40 <= comp Ax0 (256, 256, 256) -> forall v, item m v = 1).
Proof.
  assert (in_shape (256, 256, 256) (10, 128, 128)) as Hin
    by (intros []; cbn; lia).
  assert (comp Ax0 (10, 128, 128) - 20 < 0) as Hneg by (cbn; lia).
  split; [reflexivity|]. split; [exact Hin|]. split; [exact Hneg|].
  exact (negative_lower_bound_wraps (256, 256, 256) (center_of 10 128 128)
           (10, 128, 128) Ax0 eq_refl Hin Hneg).
Defined.

End MaskFacts.

(** ** Strings *)
Module PyFacts.

Lemma append_cons c (a b : string) : String c a +:+ b = String c (a +:+ b).
Proof. reflexivity. Qed.

Lemma append_assoc (a b c : string) : (a +:+ b) +:+ c = a +:+ (b +:+ c).
Proof.
  induction a as [|x a IH]; [reflexivity|]. rewrite !append_cons. now f_equal.
Qed.

Lemma contains_append c (a b : string) :
  Py.contains c (a +:+ b) = Py.contains c a || Py.contains c b.
Proof.
  induction a as [|x a IH]; [reflexivity|].
  rewrite append_cons. cbn [Py.contains]. rewrite IH. now rewrite orb_assoc.
Qed.

Lemma no_comma_append a b :
  Py.no_comma a -> Py.no_comma b -> Py.no_comma (a +:+ b).
Proof. unfold Py.no_comma. intros Ha Hb. now rewrite contains_append, Ha, Hb. Qed.

(** A string without the separator is one field. *)
Lemma split_one sep s : Py.contains sep s = false -> Py.split sep s = [s].
Proof.
  induction s as [|c s IH]; [reflexivity|]. cbn [Py.contains Py.split].
  intros H. apply orb_false_iff in H as (Hc & Hs).
  rewrite Hc, (IH Hs). reflexivity.
Qed.

(** A field without the separator, a separator and the rest. *)
Lemma split_field sep (f rest : string) :
  Py.contains sep f = false ->
  Py.split sep (f +:+ String sep rest) = f :: Py.split sep rest.
Proof.
  induction f as [|c f IH].
  - intros _. change ("" +:+ String sep rest) with (String sep rest).
    cbn [Py.split]. now rewrite Ascii.eqb_refl.
  - rewrite append_cons. cbn [Py.contains Py.split].
    intros H. apply orb_false_iff in H as (Hc & Hf).
    rewrite Hc, (IH Hf). reflexivity.
Qed.

Lemma join_cons sep f g fields :
  Py.join sep (f :: g :: fields) = f +:+ sep +:+ Py.join sep (g :: fields).
Proof. reflexivity. Qed.

(** Splitting undoes joining when no field contains the separator. *)
Lemma split_join sep fields :
  fields <> [] ->
  Forall (fun f => Py.contains sep f = false) fields ->
  Py.split sep (Py.join (String sep EmptyString) fields) = fields.
Proof.
  induction fields as [|f fields IH]; [congruence|]. intros _ H.
  apply Forall_cons in H as (Hf & H).
  destruct fields as [|g fields]; [now apply split_one|].
  rewrite join_cons.
  change (String sep "" +:+ ?x) with (String sep x).
  rewrite (split_field _ _ _ Hf). f_equal. now apply IH.
Qed.

(** Replacing a one-character text rewrites each character on its own. *)
Lemma replace_char (old new : ascii) s :
  Py.replace (String old "") (String new "") s
  = Py.map_chars (fun c => if Ascii.eqb c old then new else c) s.
Proof.
  unfold Py.replace. induction s as [|c s IH]; [reflexivity|].
  cbn [Py.replace_from Py.map_chars String.prefix String.length Nat.sub].
  destruct (ascii_dec old c) as [->|Hne].
  - rewrite Ascii.eqb_refl.
    replace (String.prefix "" s) with true by (now destruct s).
    change (String new "" +:+ ?x) with (String new x). now rewrite IH.
  - destruct (Ascii.eqb_spec c old) as [->|_]; [congruence|]. now rewrite IH.
Qed.

Lemma map_chars_contains (old new : ascii) s :
  old <> new ->
  Py.contains old (Py.map_chars (fun c => if Ascii.eqb c old then new else c) s)
  = false.
Proof.
  intros Hne. induction s as [|c s IH]; [reflexivity|].
  cbn. rewrite IH, orb_false_r.
  destruct (Ascii.eqb_spec c old) as [->|Hc]; apply Ascii.eqb_neq; congruence.
Qed.

(** The sanitized comment has no comma left. *)
Lemma sanitized_no_comma s : Py.no_comma (Py.replace "," ";" s).
Proof.
  unfold Py.no_comma. rewrite (replace_char "," ";").
  now apply map_chars_contains.
Qed.

Lemma digits_no_comma d : Py.no_comma (NilEmpty.string_of_uint d).
Proof. unfold Py.no_comma. induction d; cbn; assumption || reflexivity. Qed.

(** [str] of an integer has no comma. *)
Lemma str_int_no_comma z : Py.no_comma (Py.str_int z).
Proof.
  unfold Py.str_int, NilZero.string_of_int, NilZero.string_of_uint.
  destruct (Z.to_int z) as [d|d]; destruct d; try reflexivity;
    first [ apply (digits_no_comma (Decimal.D0 d))
          | apply (digits_no_comma (Decimal.D1 d))
          | apply (digits_no_comma (Decimal.D2 d))
          | apply (digits_no_comma (Decimal.D3 d))
          | apply (digits_no_comma (Decimal.D4 d))
          | apply (digits_no_comma (Decimal.D5 d))
          | apply (digits_no_comma (Decimal.D6 d))
          | apply (digits_no_comma (Decimal.D7 d))
          | apply (digits_no_comma (Decimal.D8 d))
          | apply (digits_no_comma (Decimal.D9 d)) ].
Qed.

End PyFacts.

(** ** The effect monad *)

Lemma bind_ok {A B} (m : M A) (f : A -> M B) s t a s' :
  m s = (t, Ok (a, s')) ->
  bind m f s = (t ++ fst (f a s'), snd (f a s')).
Proof. intros H. unfold bind. rewrite H. now destruct (f a s'). Qed.

Lemma bind_raise {A B} (m : M A) (f : A -> M B) s t e :
  m s = (t, Raise e) -> bind m f s = (t, Raise e).
Proof. intros H. unfold bind. now rewrite H. Qed.

Lemma bind_exit {A B} (m : M A) (f : A -> M B) s t c :
  m s = (t, Exit c) -> bind m f s = (t, Exit c).
Proof. intros H. unfold bind. now rewrite H. Qed.

Lemma bind_lift_ok {A B} (a : A) (f : A -> M B) s :
  bind (lift (Ok a)) f s = f a s.
Proof. unfold bind, lift. cbn. now destruct (f a s). Qed.

Lemma bind_lift_raise {A B} e (f : A -> M B) s :
  bind (lift (Raise e)) f s = ([], Raise e).
Proof. reflexivity. Qed.

Lemma bind_lift_exit {A B} c (f : A -> M B) s :
  bind (lift (Exit c)) f s = ([], Exit c).
Proof. reflexivity. Qed.

Lemma cons_event_eq {A} e (o : list event * result A) t r :
  o = (t, r) -> cons_event e o = (e :: t, r).
Proof. now intros ->. Qed.

(** ** The question sequence *)
Module ConsoleFacts.
Import Console.

Lemma eqb_stop_false s : s <> "stop" -> String.eqb s "stop" = false.
Proof. intros H. now apply String.eqb_neq. Qed.

(** No answer makes a loop take one of its [raise ValueError] branches. *)
Lemma decode_total q methods s a :
  decode q methods s a = None \/ exists a', decode q methods s a = Some (Ok a').
Proof.
  destruct q; cbn [decode member existsb].
  - destruct (String.eqb_spec s "1") as [->|]; [right; eexists; reflexivity|].
    destruct (String.eqb_spec s "2") as [->|]; [right; eexists; reflexivity|].
    now left.
  - destruct (String.eqb_spec s "1") as [->|]; [right; eexists; reflexivity|].
    destruct (String.eqb_spec s "2") as [->|]; [right; eexists; reflexivity|].
    destruct (String.eqb_spec s "3") as [->|]; [right; eexists; reflexivity|].
    now left.
  - destruct (String.eqb_spec s "0") as [->|]; [right; eexists; reflexivity|].
    destruct (String.eqb_spec s "1") as [->|]; [right; eexists; reflexivity|].
    destruct (String.eqb_spec s "2") as [->|]; [right; eexists; reflexivity|].
    destruct (String.eqb_spec s "3") as [->|]; [right; eexists; reflexivity|].
    now left.
  - destruct (String.eqb_spec s "0") as [->|]; [right; eexists; reflexivity|].
    destruct (String.eqb_spec s "1") as [->|]; [right; eexists; reflexivity|].
    destruct (String.eqb_spec s "2") as [->|]; [right; eexists; reflexivity|].
    destruct (String.eqb_spec s "3") as [->|]; [right; eexists; reflexivity|].
    now left.
  - right. eexists. reflexivity.
Qed.

(** An answer is rejected exactly when it is outside the enumerated set
    of its question. *)
Lemma decode_none_iff q methods s a :
  decode q methods s a = None <->
  exists l, valid_answers q = Some l /\ member s l = false.
Proof.
  destruct q; cbn [decode valid_answers].
  1-4: match goal with
       | |- context [member ?x ?l] =>
           destruct (member x l) eqn:E; split;
           [ discriminate
           | intros (l' & Hl & Hm); injection Hl as <-; congruence
           | intros _; eexists; split; [reflexivity|assumption]
           | reflexivity ]
       end.
  split; [discriminate|]. intros (l & Hl & _). discriminate.
Qed.

(** One console line at a question, as [ask] sees it. *)
Lemma ask_line darwin p q methods a s rest st :
  s <> "stop" ->
  ask darwin p q methods a (set_inputs (Line s :: rest) st) =
  cons_event (EvInput p q (Some (Line s)))
    match decode q methods s a with
    | None => ask darwin p q methods a (set_inputs rest st)
    | Some (Ok a') => ([], Ok (a', set_inputs rest st))
    | Some (Raise e) => ([], Raise e)
    | Some (Exit c) => ([], Exit c)
    end.
Proof.
  intros Hs. unfold ask. cbn [inputs set_inputs prompt_loop].
  rewrite (eqb_stop_false s Hs).
  destruct (decode q methods s a) as [[a'| |]|]; try reflexivity.
  destruct (prompt_loop darwin p q methods a rest) as [t r]. reflexivity.
Qed.

Lemma ask_stop darwin p q methods a r rest st :
  Session.is_stop r = true ->
  ask darwin p q methods a (set_inputs (r :: rest) st) =
  (EvInput p q (Some r) :: map (EvTerm darwin) p ++ [EvSleep 1000], Exit 0).
Proof.
  intros Hr. unfold ask. cbn [inputs set_inputs prompt_loop].
  destruct r as [s|]; cbn in Hr.
  - rewrite Hr. reflexivity.
  - reflexivity.
Qed.

Lemma ask_eof darwin p q methods a st :
  ask darwin p q methods a (set_inputs [] st) = ([EvInput p q None], Raise EOFError).
Proof. reflexivity. Qed.

Lemma bind_ask_line {B} (k : answers -> M B) darwin p q methods a s rest st :
  s <> "stop" ->
  bind (ask darwin p q methods a) k (set_inputs (Line s :: rest) st) =
  cons_event (EvInput p q (Some (Line s)))
    match decode q methods s a with
    | None => bind (ask darwin p q methods a) k (set_inputs rest st)
    | Some (Ok a') => k a' (set_inputs rest st)
    | Some (Raise e) => ([], Raise e)
    | Some (Exit c) => ([], Exit c)
    end.
Proof.
  intros Hs. unfold bind at 1. rewrite (ask_line _ _ _ _ _ _ _ _ Hs).
  destruct (decode q methods s a) as [[a'| |]|]; cbn [cons_event fst snd].
  - destruct (k a' (set_inputs rest st)) as [t r]. reflexivity.
  - reflexivity.
  - reflexivity.
  - unfold bind.
    destruct (ask darwin p q methods a (set_inputs rest st)) as [t [[a' s']| |]];
      cbn [fst snd]; try reflexivity.
    destruct (k a' s') as [t' r']. reflexivity.
Qed.

Lemma bind_ask_stop {B} (k : answers -> M B) darwin p q methods a r rest st :
  Session.is_stop r = true ->
  bind (ask darwin p q methods a) k (set_inputs (r :: rest) st) =
  (EvInput p q (Some r) :: map (EvTerm darwin) p ++ [EvSleep 1000], Exit 0).
Proof. intros Hr. apply bind_exit. now apply ask_stop. Qed.

(** A stop command or an interrupt read at any of the five questions
    runs [stop_labeling] on the processes held by [question_loop]. *)
Lemma stage_stop q darwin p methods a r rest st :
  Session.is_stop r = true ->
  stage q darwin p methods a (set_inputs (r :: rest) st) =
  (EvInput p q (Some r) :: map (EvTerm darwin) p ++ [EvSleep 1000], Exit 0).
Proof.
  intros Hr. destruct q; cbn [stage];
    first [ now apply bind_ask_stop | now apply ask_stop ].
Qed.

(** *** Answers and labels *)

(** What a loop does with a line: nothing when the line is outside its
    enumerated set, the assignment of the documented label otherwise. *)
Lemma decode_labelled q methods s a :
  decode q methods s a
  = if Labels.accepted q s then Some (Ok (Labels.labelled q methods s a)) else None.
Proof.
  destruct q;
    cbn [decode Labels.accepted valid_answers member existsb Labels.labelled];
    unfold Labels.preference_label, Labels.confidence_label,
      Labels.magnitude_label, Labels.failure_label;
    repeat match goal with
           | |- context [String.eqb s ?k] =>
               destruct (String.eqb_spec s k) as [->|?]
           end; reflexivity.
Qed.

Lemma stage_step darwin p methods q a s rest st :
  s <> "stop" ->
  stage q darwin p methods a (set_inputs (Line s :: rest) st) =
  cons_event (EvInput p q (Some (Line s)))
    (if Labels.accepted q s then
       match next_question q with
       | Some q' =>
           stage q' darwin p methods (Labels.labelled q methods s a)
             (set_inputs rest st)
       | None => ([], Ok (Labels.labelled q methods s a, set_inputs rest st))
       end
     else stage q darwin p methods a (set_inputs rest st)).
Proof.
  intros Hs.
  destruct q; cbn [stage next_question];
    first [ unfold from_best, from_confidence, from_strength, from_fail;
            rewrite (bind_ask_line _ _ _ _ _ _ _ _ _ Hs)
          | unfold from_comment; rewrite (ask_line _ _ _ _ _ _ _ _ Hs) ];
    rewrite decode_labelled; destruct (Labels.accepted _ s); reflexivity.
Qed.

Lemma reads_snoc p q junk s :
  Labels.reads p q (junk ++ [s])
  = Labels.reads p q junk ++ [EvInput p q (Some (Line s))].
Proof. unfold Labels.reads. now rewrite map_app. Qed.

(** Rejected lines are read and change nothing. *)
Lemma stage_skips darwin p methods q a junk rest st :
  Forall (Labels.rejected q) junk ->
  stage q darwin p methods a (set_inputs (Labels.lines junk ++ rest) st) =
  (Labels.reads p q junk ++ fst (stage q darwin p methods a (set_inputs rest st)),
   snd (stage q darwin p methods a (set_inputs rest st))).
Proof.
  induction 1 as [|s junk (Hs & Hacc) _ IH]; cbn [Labels.lines Labels.reads map app].
  - now destruct (stage q darwin p methods a (set_inputs rest st)).
  - rewrite (stage_step _ _ _ _ _ _ _ _ Hs), Hacc.
    unfold Labels.lines, Labels.reads in IH. rewrite IH. reflexivity.
Qed.

(** Rejected lines followed by an accepted one. *)
Lemma stage_accepts darwin p methods q a junk s rest st :
  Forall (Labels.rejected q) junk ->
  s <> "stop" -> Labels.accepted q s = true ->
  stage q darwin p methods a (set_inputs (Labels.lines junk ++ Line s :: rest) st) =
  (Labels.reads p q (junk ++ [s])
     ++ fst match next_question q with
            | Some q' =>
                stage q' darwin p methods (Labels.labelled q methods s a)
                  (set_inputs rest st)
            | None => ([], Ok (Labels.labelled q methods s a, set_inputs rest st))
            end,
   snd match next_question q with
       | Some q' =>
           stage q' darwin p methods (Labels.labelled q methods s a)
             (set_inputs rest st)
       | None => ([], Ok (Labels.labelled q methods s a, set_inputs rest st))
       end).
Proof.
  intros Hjunk Hs Hacc.
  rewrite (stage_skips _ _ _ _ _ _ _ _ Hjunk), (stage_step _ _ _ _ _ _ _ _ Hs), Hacc.
  rewrite reads_snoc, <- app_assoc. reflexivity.
Qed.

Lemma accepted_not_stop q s :
  q <> QComment -> Labels.accepted q s = true -> s <> "stop".
Proof. intros Hq H ->. destruct q; try discriminate H. now destruct Hq. Qed.

(** C4. At each of the five questions, for every console line [s]
    other than the stop command: when [s] is outside the enumerated set of
    the question, the same question is asked again with the values
    assigned so far unchanged; when [s] is in the set (any text, for the
    comment), the sequence moves to the next question (or returns, after
    the comment) and the variable of the question holds the documented
    label: the method shown in slot "1" or "2"; random, uncertain or
    certain for "1", "2", "3"; the integer for "0" to "3"; and None, the
    method in slot 1, the method in slot 2 or both joined by "+" for "0",
    "1", "2", "3". Hence on every console input made of rejected lines and
    one accepted line per question, [question_loop] reads every line once,
    each at its question, and returns exactly the labels of the five
    accepted lines. *)
Theorem prompt_reasks_or_advances darwin p methods st :
  (forall q a s rest,
     s <> "stop" ->
     stage q darwin p methods a (set_inputs (Line s :: rest) st) =
     cons_event (EvInput p q (Some (Line s)))
       (if Labels.accepted q s then
          match next_question q with
          | Some q' =>
              stage q' darwin p methods (Labels.labelled q methods s a)
                (set_inputs rest st)
          | None => ([], Ok (Labels.labelled q methods s a, set_inputs rest st))
          end
        else stage q darwin p methods a (set_inputs rest st))) /\
  (forall junk1 s1 junk2 s2 junk3 s3 junk4 s4 c rest,
     Forall (Labels.rejected QBest) junk1 -> Labels.accepted QBest s1 = true ->
     Forall (Labels.rejected QConfidence) junk2 ->
     Labels.accepted QConfidence s2 = true ->
     Forall (Labels.rejected QStrength) junk3 ->
     Labels.accepted QStrength s3 = true ->
     Forall (Labels.rejected QFail) junk4 -> Labels.accepted QFail s4 = true ->
     c <> "stop" ->
     question_loop darwin p methods
       (set_inputs
          (Labels.lines junk1 ++ Line s1 :: Labels.lines junk2 ++ Line s2 ::
           Labels.lines junk3 ++ Line s3 :: Labels.lines junk4 ++ Line s4 ::
           Line c :: rest) st)
     = (Labels.reads p QBest (junk1 ++ [s1])
          ++ Labels.reads p QConfidence (junk2 ++ [s2])
          ++ Labels.reads p QStrength (junk3 ++ [s3])
          ++ Labels.reads p QFail (junk4 ++ [s4])
          ++ Labels.reads p QComment [c],
        Ok ({| best := Labels.preference_label methods s1;
               confidence := Labels.confidence_label s2;
               difference_strength := Labels.magnitude_label s3;
               fail := Labels.failure_label methods s4;
               comment := c |},
            set_inputs rest st))).
Proof.
  split.
  - intros q a s rest Hs. now apply stage_step.
  - intros junk1 s1 junk2 s2 junk3 s3 junk4 s4 c rest J1 A1 J2 A2 J3 A3 J4 A4 Hc.
    change (question_loop darwin p methods)
      with (stage QBest darwin p methods no_answers).
    rewrite (stage_accepts _ _ _ QBest _ _ _ _ _ J1
               (accepted_not_stop QBest s1 ltac:(discriminate) A1) A1).
    cbn [next_question].
    rewrite (stage_accepts _ _ _ QConfidence _ _ _ _ _ J2
               (accepted_not_stop QConfidence s2 ltac:(discriminate) A2) A2).
    cbn [next_question].
    rewrite (stage_accepts _ _ _ QStrength _ _ _ _ _ J3
               (accepted_not_stop QStrength s3 ltac:(discriminate) A3) A3).
    cbn [next_question].
    rewrite (stage_accepts _ _ _ QFail _ _ _ _ _ J4
               (accepted_not_stop QFail s4 ltac:(discriminate) A4) A4).
    cbn [next_question].
    rewrite (stage_step _ _ _ QComment _ _ _ _ Hc).
    cbn [Labels.accepted valid_answers next_question cons_event fst snd].
    reflexivity.
Qed.

Lemma prompt_reasks_or_advances_witness :
  Forall (Labels.rejected QBest) ["7"; ""] /\
  Forall (Labels.rejected QConfidence) ["0"] /\
  Forall (Labels.rejected QStrength) ["4"] /\
  Forall (Labels.rejected QFail) ["both"] /\
  question_loop false [0; 1] ("B", "A")
    (set_inputs
       [Line "7"; Line ""; Line "2"; Line "0"; Line "3"; Line "4"; Line "2";
        Line "both"; Line "3"; Line "ok, fine"; Line "1"] (Session.start []))
  = ([EvInput [0; 1] QBest (Some (Line "7"));
      EvInput [0; 1] QBest (Some (Line ""));
      EvInput [0; 1] QBest (Some (Line "2"));
      EvInput [0; 1] QConfidence (Some (Line "0"));
      EvInput [0; 1] QConfidence (Some (Line "3"));
      EvInput [0; 1] QStrength (Some (Line "4"));
      EvInput [0; 1] QStrength (Some (Line "2"));
      EvInput [0; 1] QFail (Some (Line "both"));
      EvInput [0; 1] QFail (Some (Line "3"));
      EvInput [0; 1] QComment (Some (Line "ok, fine"))],
     Ok ({| best := "A"; confidence := "certain"; difference_strength := 2;
            fail := "B+A"; comment := "ok, fine" |},
         set_inputs [Line "1"] (Session.start []))).
Proof.
  assert (Forall (Labels.rejected QBest) ["7"; ""]) as J1
    by (repeat constructor; discriminate).
  assert (Forall (Labels.rejected QConfidence) ["0"]) as J2
    by (repeat constructor; discriminate).
  assert (Forall (Labels.rejected QStrength) ["4"]) as J3
    by (repeat constructor; discriminate).
  assert (Forall (Labels.rejected QFail) ["both"]) as J4
    by (repeat constructor; discriminate).
  split; [exact J1|]. split; [exact J2|]. split; [exact J3|]. split; [exact J4|].
  exact (proj2 (prompt_reasks_or_advances false [0; 1] ("B", "A") (Session.start []))
           ["7"; ""] "2" ["0"] "3" ["4"] "2" ["both"] "3" "ok, fine" [Line "1"]
           J1 eq_refl J2 eq_refl J3 eq_refl J4 eq_refl ltac:(discriminate)).
Defined.

End ConsoleFacts.

(** ** The session loop *)
Module SessionFacts.
Import Console Session ConsoleFacts.

(** *** Reading a trace in pieces *)

Lemma answered_app t1 t2 : answered (t1 ++ t2) = answered t1 ++ answered t2.
Proof.
  induction t1 as [|e t1 IH]; [reflexivity|].
  destruct e as [| | |ps q r| |]; cbn [app answered]; try exact IH.
  destruct ps as [|p ps]; [exact IH|].
  destruct q; try exact IH.
  destruct r as [[s|]|]; try exact IH.
  destruct (String.eqb s "stop"); [exact IH|]. cbn. now rewrite IH.
Qed.

Lemma recorded_app t1 t2 : recorded (t1 ++ t2) = recorded t1 ++ recorded t2.
Proof.
  induction t1 as [|e t1 IH]; [reflexivity|].
  destruct e; cbn [app recorded]; try exact IH. cbn. now rewrite IH.
Qed.

Lemma appended_app t1 t2 : appended (t1 ++ t2) = appended t1 ++ appended t2.
Proof.
  induction t1 as [|e t1 IH]; [reflexivity|].
  destruct e; cbn [app appended]; try exact IH. cbn. now rewrite IH.
Qed.

Lemma launched_app t1 t2 : launched (t1 ++ t2) = launched t1 ++ launched t2.
Proof.
  induction t1 as [|e t1 IH]; [reflexivity|].
  destruct e; cbn [app launched]; try exact IH. cbn. now rewrite IH.
Qed.

Lemma alive_from_app live t1 t2 :
  alive_from live (t1 ++ t2) = alive_from (alive_from live t1) t2.
Proof. unfold alive_from. apply fold_left_app. Qed.

(** *** The question sequence as a trace *)

Lemma rejected_asked ps q methods a e : rejected_at ps q methods a e -> asked ps e.
Proof. intros (s & -> & Hs & _). exists q, s. now split. Qed.

Lemma answered_rejected ps q methods a t :
  Forall (rejected_at ps q methods a) t -> answered t = [].
Proof.
  induction 1 as [|e t (s & -> & Hs & Hd) _ IH]; [reflexivity|].
  destruct q; try discriminate Hd; cbn [answered]; destruct ps; exact IH.
Qed.

Lemma answered_comment ps s :
  s <> "stop" -> answered [EvInput ps QComment (Some (Line s))] = take 1 ps.
Proof.
  intros Hs. destruct ps as [|p ps]; [reflexivity|]. cbn.
  now rewrite (eqb_stop_false s Hs).
Qed.

Lemma answered_other ps q r :
  q <> QComment -> answered [EvInput ps q r] = [].
Proof. intros Hq. destruct ps, q; try reflexivity. now destruct Hq. Qed.

Lemma is_stop_line_false s : s <> "stop" -> is_stop (Line s) = false.
Proof. apply eqb_stop_false. Qed.

(** One [while] loop of [question_loop]: rejected lines, then an accepted
    line, a stop or the end of the input. *)
Lemma prompt_loop_shape darwin ps q methods a ins :
  exists asks, Forall (rejected_at ps q methods a) asks /\
    ((exists a' rest l,
        prompt_loop darwin ps q methods a ins
          = (asks ++ [EvInput ps q (Some (Line l))], Ok (a', rest)) /\
        l <> "stop" /\ decode q methods l a = Some (Ok a'))
     \/ (exists rp, is_stop rp = true /\
           prompt_loop darwin ps q methods a ins
             = (asks ++ EvInput ps q (Some rp) :: stop_events darwin ps, Exit 0))
     \/ prompt_loop darwin ps q methods a ins
          = (asks ++ [EvInput ps q None], Raise EOFError)).
Proof.
  induction ins as [|r ins IH].
  - exists []. split; [constructor|]. right. right. reflexivity.
  - destruct r as [l|].
    + destruct (String.eqb_spec l "stop") as [->|Hl].
      * exists []. split; [constructor|]. right. left.
        exists (Line "stop"). split; reflexivity.
      * cbn [prompt_loop]. rewrite (eqb_stop_false l Hl).
        destruct (decode_total q methods l a) as [Hd|[a' Hd]]; rewrite Hd.
        -- destruct IH as (asks & Hasks & IH).
           exists (EvInput ps q (Some (Line l)) :: asks). split.
           { constructor; [|assumption]. exists l. now repeat split. }
           destruct IH as [(a' & rest & l' & E & Hl' & Hd')|[(rp & Hrp & E)|E]];
             rewrite E.
           ++ left. exists a', rest, l'. now repeat split.
           ++ right. left. exists rp. now split.
           ++ right. right. reflexivity.
        -- exists []. split; [constructor|]. left. exists a', ins, l.
           now repeat split.
    + exists []. split; [constructor|]. right. left. exists Interrupt.
      split; reflexivity.
Qed.

Lemma ask_shape darwin ps q methods a s :
  exists asks, Forall (rejected_at ps q methods a) asks /\
    ((exists a' rest l,
        ask darwin ps q methods a s
          = (asks ++ [EvInput ps q (Some (Line l))], Ok (a', set_inputs rest s)) /\
        l <> "stop" /\ decode q methods l a = Some (Ok a'))
     \/ (exists rp, is_stop rp = true /\
           ask darwin ps q methods a s
             = (asks ++ EvInput ps q (Some rp) :: stop_events darwin ps, Exit 0))
     \/ ask darwin ps q methods a s = (asks ++ [EvInput ps q None], Raise EOFError)).
Proof.
  destruct (prompt_loop_shape darwin ps q methods a (inputs s))
    as (asks & Hasks & H).
  exists asks. split; [assumption|]. unfold ask.
  destruct H as [(a' & rest & l & E & Hl & Hd)|[(rp & Hrp & E)|E]]; rewrite E.
  - left. exists a', rest, l. now repeat split.
  - right. left. exists rp. now split.
  - right. right. reflexivity.
Qed.

Lemma set_inputs_twice r1 r2 s : set_inputs r2 (set_inputs r1 s) = set_inputs r2 s.
Proof. reflexivity. Qed.

(** What an accepted answer assigns. *)
Lemma decode_accepts q methods l a a' :
  decode q methods l a = Some (Ok a') ->
  match q with
  | QBest => exists v, a' = set_best v a /\ (v = fst methods \/ v = snd methods)
  | QConfidence =>
      exists v, a' = set_confidence v a /\
                (v = "random" \/ v = "uncertain" \/ v = "certain")
  | QStrength => exists n, a' = set_strength n a /\ (0 <= n <= 3)%Z
  | QFail =>
      exists v, a' = set_fail v a /\
                (v = "None" \/ v = fst methods \/ v = snd methods \/
                 v = fst methods +:+ "+" +:+ snd methods)
  | QComment => a' = set_comment l a
  end.
Proof.
  destruct q; cbn [decode member existsb].
  - destruct (String.eqb_spec l "1") as [->|];
      [intros [= <-]; eexists; split; [reflexivity|]; tauto|].
    destruct (String.eqb_spec l "2") as [->|];
      [intros [= <-]; eexists; split; [reflexivity|]; tauto|].
    discriminate.
  - destruct (String.eqb_spec l "1") as [->|];
      [intros [= <-]; eexists; split; [reflexivity|]; tauto|].
    destruct (String.eqb_spec l "2") as [->|];
      [intros [= <-]; eexists; split; [reflexivity|]; tauto|].
    destruct (String.eqb_spec l "3") as [->|];
      [intros [= <-]; eexists; split; [reflexivity|]; tauto|].
    discriminate.
  - destruct (String.eqb_spec l "0") as [->|];
      [intros [= <-]; eexists; split; [reflexivity|]; lia|].
    destruct (String.eqb_spec l "1") as [->|];
      [intros [= <-]; eexists; split; [reflexivity|]; lia|].
    destruct (String.eqb_spec l "2") as [->|];
      [intros [= <-]; eexists; split; [reflexivity|]; lia|].
    destruct (String.eqb_spec l "3") as [->|];
      [intros [= <-]; eexists; split; [reflexivity|]; lia|].
    discriminate.
  - destruct (String.eqb_spec l "0") as [->|];
      [intros [= <-]; eexists; split; [reflexivity|]; tauto|].
    destruct (String.eqb_spec l "1") as [->|];
      [intros [= <-]; eexists; split; [reflexivity|]; tauto|].
    destruct (String.eqb_spec l "2") as [->|];
      [intros [= <-]; eexists; split; [reflexivity|]; tauto|].
    destruct (String.eqb_spec l "3") as [->|];
      [intros [= <-]; eexists; split; [reflexivity|]; tauto|].
    discriminate.
  - now intros [= <-].
Qed.

(** A loop followed by the rest of the sequence. *)
Lemma ask_then_shape darwin ps q methods a s (k : answers -> M answers)
  (P : answers -> Prop) (P' : answers -> answers -> Prop) :
  q <> QComment ->
  (forall a' rest, question_outcome darwin ps (set_inputs rest s) (P' a')
                     (k a' (set_inputs rest s))) ->
  (forall l a' ans, decode q methods l a = Some (Ok a') -> P' a' ans -> P ans) ->
  question_outcome darwin ps s P (bind (ask darwin ps q methods a) k s).
Proof.
  intros Hq Hk HP.
  destruct (ask_shape darwin ps q methods a s) as (asks & Hasks & H).
  pose proof (answered_rejected _ _ _ _ _ Hasks) as Hnone.
  assert (Forall (asked ps) asks) as Hasked
    by (eapply Forall_impl; [exact Hasks|intros ?; apply rejected_asked]).
  destruct H as [(a' & rest & l & E & Hl & Hd)|[(rp & Hrp & E)|E]].
  - rewrite (bind_ok _ _ _ _ _ _ E).
    destruct (Hk a' rest) as (asks' & Hasks' & H').
    assert (Forall (asked ps) ((asks ++ [EvInput ps q (Some (Line l))]) ++ asks'))
      as Hall.
    { apply Forall_app. split; [|assumption]. apply Forall_app. split; [assumption|].
      constructor; [|constructor]. exists q, l. now split. }
    assert (answered ((asks ++ [EvInput ps q (Some (Line l))]) ++ asks')
            = answered asks') as Hans.
    { rewrite !answered_app, Hnone, (answered_other _ _ _ Hq). reflexivity. }
    exists ((asks ++ [EvInput ps q (Some (Line l))]) ++ asks').
    split; [exact Hall|].
    destruct H' as [(ans & rest' & E' & Ha & HP')|[(q' & rp & Hrp & E' & Ha)|(q' & E' & Ha)]];
      rewrite E'; cbn [fst snd].
    + destruct HP' as (HP' & Hcm).
      left. exists ans, rest'. rewrite set_inputs_twice.
      split; [reflexivity|]. split; [congruence|].
      split; [eapply HP; eassumption|].
      apply elem_of_app. now right.
    + right. left. exists q', rp. split; [assumption|].
      split; [now rewrite <- !app_assoc|congruence].
    + right. right. exists q'. split; [now rewrite <- !app_assoc|congruence].
  - rewrite (bind_exit _ _ _ _ _ E). exists asks. split; [assumption|].
    right. left. exists q, rp. now repeat split.
  - rewrite (bind_raise _ _ _ _ _ E). exists asks. split; [assumption|].
    right. right. exists q. now split.
Qed.

Lemma from_comment_shape darwin ps methods a s :
  question_outcome darwin ps s (after QComment methods a)
    (from_comment darwin ps methods a s).
Proof.
  unfold from_comment.
  destruct (ask_shape darwin ps QComment methods a s) as (asks & Hasks & H).
  pose proof (answered_rejected _ _ _ _ _ Hasks) as Hnone.
  assert (Forall (asked ps) asks) as Hasked
    by (eapply Forall_impl; [exact Hasks|intros ?; apply rejected_asked]).
  destruct H as [(a' & rest & l & E & Hl & Hd)|[(rp & Hrp & E)|E]]; rewrite E.
  - exists (asks ++ [EvInput ps QComment (Some (Line l))]). split.
    { apply Forall_app. split; [assumption|].
      constructor; [|constructor]. exists QComment, l. now split. }
    left. exists a', rest. split; [reflexivity|].
    apply decode_accepts in Hd. subst a'. split; [|split].
    + now rewrite answered_app, Hnone, (answered_comment _ _ Hl).
    + cbn. tauto.
    + apply elem_of_app. right. apply elem_of_cons. now left.
  - exists asks. split; [assumption|]. right. left. exists QComment, rp.
    now repeat split.
  - exists asks. split; [assumption|]. right. right. exists QComment. now split.
Qed.

Lemma from_fail_shape darwin ps methods a s :
  question_outcome darwin ps s (after QFail methods a)
    (from_fail darwin ps methods a s).
Proof.
  unfold from_fail.
  apply ask_then_shape with (P' := after QComment methods); [discriminate| |].
  - intros. apply from_comment_shape.
  - intros l a' ans Hd H. apply decode_accepts in Hd as (v & -> & Hv).
    unfold after in *. cbn in *. intuition (congruence || lia).
Qed.

Lemma from_strength_shape darwin ps methods a s :
  question_outcome darwin ps s (after QStrength methods a)
    (from_strength darwin ps methods a s).
Proof.
  unfold from_strength.
  apply ask_then_shape with (P' := after QFail methods); [discriminate| |].
  - intros. apply from_fail_shape.
  - intros l a' ans Hd H. apply decode_accepts in Hd as (v & -> & Hv).
    unfold after in *. cbn in *. intuition (congruence || lia).
Qed.

Lemma from_confidence_shape darwin ps methods a s :
  question_outcome darwin ps s (after QConfidence methods a)
    (from_confidence darwin ps methods a s).
Proof.
  unfold from_confidence.
  apply ask_then_shape with (P' := after QStrength methods); [discriminate| |].
  - intros. apply from_strength_shape.
  - intros l a' ans Hd H. apply decode_accepts in Hd as (v & -> & Hv).
    unfold after in *. cbn in *. intuition (congruence || lia).
Qed.

Lemma question_loop_shape darwin ps methods s :
  question_outcome darwin ps s (answers_of methods)
    (question_loop darwin ps methods s).
Proof.
  unfold question_loop, from_best.
  apply ask_then_shape with (P' := after QConfidence methods); [discriminate| |].
  - intros. apply from_confidence_shape.
  - intros l a' ans Hd H. apply decode_accepts in Hd as (v & -> & Hv).
    unfold after, answers_of in *. cbn in *. intuition (congruence || lia).
Qed.

(** *** One window *)

Lemma shuffle_order b idx : is_order idx -> is_order (Py.shuffle2 b idx).
Proof. unfold is_order. intros [->| ->]; destruct b; cbn; tauto. Qed.

Lemma run_freeview_shape w subject image seg1 seg2 center fsp s :
  (exists e, run_freeview w subject image seg1 seg2 center fsp s = ([], Raise e))
  \/ (exists image' seg1' seg2' s',
        run_freeview w subject image seg1 seg2 center fsp s
          = (window_events w (next_pid s) subject image' seg1' seg2',
             Ok ((next_pid s, next_pid s), s')) /\
        next_pid s' = S (next_pid s) /\ inputs s' = inputs s).
Proof.
  unfold run_freeview, bind, lift, rbind, popen, emit, when, ret, window_events.
  destruct (nib_load w (adapt_path w image)) as [sh|]; [|left; eexists; reflexivity].
  destruct (Mask.build_mask sh center) as [m|e|c] eqn:Hm.
  - destruct (staging w (adapt_path w image) (adapt_path w seg1) (adapt_path w seg2))
      as [e|]; [left; eexists; reflexivity|].
    right. destruct (xdotool_installed w); cbn;
      do 4 eexists; (split; [reflexivity|split; reflexivity]).
  - left. eexists. reflexivity.
  - unfold Mask.build_mask, Mask.int_center, rbind in Hm.
    destruct center as [[c0 c1] c2].
    destruct c0, c1, c2; cbn in Hm; discriminate Hm.
Qed.

Lemma open_window_shape w a fsp r idx s :
  (exists e, open_window w a fsp r idx s = ([], Raise e))
  \/ (exists idx' t s',
        open_window w a fsp r idx s
          = (t, Ok ((next_pid s, select (met1 a, met2 a) idx', idx'), s')) /\
        window_of w r (next_pid s) t /\
        next_pid s' = S (next_pid s) /\ inputs s' = inputs s /\
        (is_order idx -> is_order idx')).
Proof.
  unfold open_window.
  set (s1 := {| inputs := inputs s; next_pid := next_pid s;
                draws := S (draws s); ticks := ticks s |}).
  set (idx' := Py.shuffle2 (randbelow_is_zero w (draws s)) idx).
  rewrite (bind_ok (shuffle w idx) _ s [] idx' s1 eq_refl).
  unfold getitem, global.
  destruct (seg r !! met1 a) as [p1|]; [|left; eexists; reflexivity].
  destruct (seg r !! met2 a) as [p2|]; [|left; eexists; reflexivity].
  destruct fsp as [fsp|]; [|left; eexists; reflexivity].
  cbn -[run_freeview select].
  destruct (run_freeview_shape w (subject_id r) (image r)
              (fst (select (p1, p2) idx')) (snd (select (p1, p2) idx'))
              (x1 r, y1 r, z1 r) fsp s1)
    as [(e & E)|(image' & seg1' & seg2' & s' & E & Hp & Hi)].
  - left. exists e. unfold bind. rewrite E. reflexivity.
  - right. exists idx', (window_events w (next_pid s) (subject_id r) image' seg1' seg2'), s'.
    split; [|split; [|split; [|split]]].
    + unfold bind. rewrite E. cbn. now rewrite app_nil_r.
    + now exists image', seg1', seg2'.
    + exact Hp.
    + exact Hi.
    + apply shuffle_order.
Qed.

(** *** One iteration *)

Lemma repeat_sleep_shape n ms s :
  repeat_m n (emit (EvSleep ms)) s = (repeat (EvSleep ms) n, Ok (tt, s)).
Proof.
  induction n as [|n IH]; [reflexivity|].
  cbn [repeat_m repeat]. unfold bind at 1. cbn [emit]. now rewrite IH.
Qed.

Lemma prefetch_shape w a fsp r r_next c s k :
  at_head a k c s ->
  (exists e t0, prefetch w a fsp r r_next c s = (t0, Raise e) /\
                broken_opening w k r t0)
  \/ (exists t0 methods c' s',
        prefetch w a fsp r r_next c s = (t0, Ok ((k, S k, methods, c'), s')) /\
        opening w k r r_next t0 /\
        at_head a (S k) c' s' /\ inputs s' = inputs s /\
        (exists idx, is_order idx /\ methods = select (met1 a, met2 a) idx)).
Proof.
  intros Hhead. unfold prefetch. destruct k as [|k]; cbn [at_head] in Hhead.
  - destruct Hhead as (Hp & Hn). rewrite Hp.
    destruct (open_window_shape w a fsp r (0, 1) s)
      as [(e & E)|(idx0 & t0 & s0 & E & Hw0 & Hn0 & Hi0 & Ho0)].
    { left. exists e, []. split; [now apply bind_raise|now left]. }
    rewrite (bind_ok _ _ _ _ _ _ E). cbn [fst snd].
    rewrite Hn in *.
    destruct (open_window_shape w a fsp r_next idx0 s0)
      as [(e & E1)|(idx1 & t1 & s1 & E1 & Hw1 & Hn1 & Hi1 & Ho1)].
    { left. exists e, t0. rewrite (bind_raise _ _ _ _ _ E1). cbn.
      rewrite app_nil_r. split; [reflexivity|now right]. }
    rewrite (bind_ok _ _ _ _ _ _ E1). cbn [fst snd].
    rewrite Hn0 in *.
    rewrite (bind_ok _ _ _ _ _ _ (repeat_sleep_shape 10 1200 s1)).
    cbn [ret fst snd].
    right. do 4 eexists. split; [reflexivity|].
    split; [|split; [|split]].
    + exists t0, t1. rewrite app_nil_r. now repeat split.
    + cbn. repeat split; try assumption. apply Ho1, Ho0. now left.
    + congruence.
    + exists idx0. split; [apply Ho0; now left|reflexivity].
  - destruct Hhead as (Hp & Hn & Ho & Hm). rewrite Hp.
    destruct (open_window_shape w a fsp r_next (method_idx c) s)
      as [(e & E)|(idx1 & t1 & s1 & E & Hw1 & Hn1 & Hi1 & Ho1)].
    { left. exists e, []. split; [now apply bind_raise|reflexivity]. }
    rewrite (bind_ok _ _ _ _ _ _ E). cbn [fst snd ret].
    rewrite Hn in *.
    right. do 4 eexists. split; [reflexivity|].
    split; [|split; [|split]].
    + cbn. now rewrite app_nil_r.
    + cbn. repeat split; try assumption. now apply Ho1.
    + exact Hi1.
    + exists (method_idx c). now split.
Qed.

Lemma terminate_shape w p s : terminate w p s = (terminate_events w p, Ok (tt, s)).
Proof.
  unfold terminate, terminate_events, when, bind, emit, ret.
  destruct (darwin w); [reflexivity|]. now destruct (xdotool_installed w).
Qed.

Lemma reveal_shape w p s :
  when (xdotool_installed w) (bind (emit (EvSleep 500)) (fun _ => emit (EvXdo WindowMap p))) s
  = (reveal_events w p, Ok (tt, s)).
Proof.
  unfold when, reveal_events, bind, emit, ret. now destruct (xdotool_installed w).
Qed.

Lemma label_shape w user r p pn methods c s :
  exists asks, Forall (asked [p; pn]) asks /\
    ((exists ans tm c' s',
        label w user r p pn methods c s
          = (reveal_events w p ++ asks ++ terminate_events w p
               ++ [EvAppend p (record_line w r methods ans
                                 (Py.replace "," ";" (comment ans)) user tm)],
             Ok (c', s')) /\
        answered asks = [p] /\ answers_of methods ans /\
        EvInput [p; pn] QComment (Some (Line (comment ans))) ∈ asks /\
        next_pid s' = next_pid s /\ p_next c' = p_next c /\
        method_idx c' = method_idx c /\ methods_next c' = methods_next c)
     \/ (exists q rp, is_stop rp = true /\
           label w user r p pn methods c s
             = (reveal_events w p ++ asks
                  ++ EvInput [p; pn] q (Some rp) :: stop_events (darwin w) [p; pn],
                Exit 0) /\
           answered asks = [])
     \/ (exists q,
           label w user r p pn methods c s
             = (reveal_events w p ++ asks ++ [EvInput [p; pn] q None],
                Raise EOFError) /\
           answered asks = [])).
Proof.
  unfold label.
  set (s1 := {| inputs := inputs s; next_pid := next_pid s;
                draws := draws s; ticks := S (ticks s) |}).
  rewrite (bind_ok (time w) _ s [] (clock w (ticks s)) s1 eq_refl).
  cbn [app fst snd].
  rewrite (bind_ok _ _ _ _ _ _ (reveal_shape w p s1)). cbn [fst snd].
  destruct (question_loop_shape (darwin w) [p; pn] methods s1)
    as (asks & Hasks & H).
  exists asks. split; [assumption|].
  destruct H as [(ans & rest & E & Ha & HP & Hcm)|[(q & rp & Hrp & E & Ha)|(q & E & Ha)]].
  - left. rewrite (bind_ok _ _ _ _ _ _ E). cbn [fst snd].
    set (s2 := set_inputs rest s1).
    set (s3 := {| inputs := inputs s2; next_pid := next_pid s2;
                  draws := draws s2; ticks := S (ticks s2) |}).
    rewrite (bind_ok (time w) _ s2 [] (clock w (ticks s2)) s3 eq_refl).
    cbn [app fst snd].
    rewrite (bind_ok _ _ _ _ _ _ (terminate_shape w p s3)). cbn [fst snd].
    unfold bind, emit, ret. cbn [app fst snd].
    do 4 eexists. split; [reflexivity|].
    split; [exact Ha|]. split; [exact HP|]. split; [exact Hcm|]. repeat split.
  - right. left. exists q, rp. split; [assumption|].
    rewrite (bind_exit _ _ _ _ _ E). now split.
  - right. right. exists q. rewrite (bind_raise _ _ _ _ _ E). now split.
Qed.

Lemma iteration_shape w a user fsp rows r r_next c s k :
  at_head a k c s ->
  rows !! k = Some r -> rows !! S k = Some r_next ->
  (exists t0 asks cmt line c' s',
      iteration w a user fsp r r_next c s
        = (t0 ++ reveal_events w k ++ asks ++ terminate_events w k
              ++ [EvAppend k line], Ok (c', s')) /\
      opening w k r r_next t0 /\ Forall (asked [k; S k]) asks /\
      answered asks = [k] /\
      EvInput [k; S k] QComment (Some (Line cmt)) ∈ asks /\
      record_of w a user r cmt line /\
      at_head a (S k) c' s')
  \/ (exists t, (exists e, iteration w a user fsp r r_next c s = (t, Raise e)) /\
                loop_trace w a user rows k t
                  (forget (snd (iteration w a user fsp r r_next c s))))
  \/ (exists t, iteration w a user fsp r r_next c s = (t, Exit 0) /\
                loop_trace w a user rows k t (Exit 0)).
Proof.
  intros Hhead Hr Hr'. unfold iteration.
  destruct (prefetch_shape w a fsp r r_next c s k Hhead)
    as [(e & t0 & E & Hb)|(t0 & methods & c1 & s1 & E & Hopen & Hhead1 & Hin & idx & Hidx & ->)].
  { right. left. exists t0. rewrite (bind_raise _ _ _ _ _ E). cbn.
    split; [now exists e|]. now apply (loop_broken _ _ _ _ _ r r_next). }
  rewrite (bind_ok _ _ _ _ _ _ E).
  destruct (label_shape w user r k (S k) (select (met1 a, met2 a) idx) c1 s1)
    as (asks & Hasks & H).
  destruct H as [(ans & tm & c2 & s2 & El & Ha & HP & Hcm & Hn & Hp & Hm & Hmn)
                |[(q & rp & Hrp & El & Ha)|(q & El & Ha)]];
    rewrite El; cbn [fst snd].
  - left. exists t0, asks, (comment ans). eexists. exists c2, s2.
    split; [reflexivity|].
    split; [assumption|]. split; [assumption|]. split; [assumption|].
    split; [assumption|]. split.
    + exists idx, ans, tm. split; [assumption|]. split; [assumption|].
      split; reflexivity.
    + cbn [at_head] in *. destruct Hhead1 as (H1 & H2 & H3 & H4).
      repeat split; congruence.
  - right. right. eexists. split; [reflexivity|].
    now apply (loop_stop _ _ _ _ _ r r_next).
  - right. left. eexists. split; [now eexists|].
    now apply (loop_eof _ _ _ _ _ r r_next).
Qed.

(** *** The whole loop *)

(** Every run of the loop has the shape of [loop_trace]. *)
Lemma session_loop_shape w a user fsp rows pairs : forall k c s,
  (forall j r r', pairs !! j = Some (r, r') ->
     rows !! (k + j) = Some r /\ rows !! S (k + j) = Some r') ->
  length rows <= S (k + length pairs) ->
  at_head a k c s ->
  loop_trace w a user rows k
    (fst (session_loop w a user fsp pairs c s))
    (forget (snd (session_loop w a user fsp pairs c s))).
Proof.
  induction pairs as [|[r r_next] pairs IH]; intros k c s Hrows Hlen Hhead.
  - cbn. apply loop_done. cbn in Hlen. lia.
  - cbn [session_loop].
    destruct (Hrows 0 r r_next eq_refl) as (Hr & Hr').
    rewrite Nat.add_0_r in Hr, Hr'.
    destruct (iteration_shape w a user fsp rows r r_next c s k Hhead Hr Hr')
      as [(t0 & asks & cmt & line & c' & s' & E & Hopen & Hasks & Ha & Hcm & Hrec & Hhead')
         |[(t & (e & E) & Hl)|(t & E & Hl)]].
    + rewrite (bind_ok _ _ _ _ _ _ E).
      cbn [fst snd].
      replace ((t0 ++ reveal_events w k ++ asks ++ terminate_events w k
                  ++ [EvAppend k line])
               ++ fst (session_loop w a user fsp pairs c' s'))
        with (t0 ++ reveal_events w k ++ asks ++ terminate_events w k
                ++ EvAppend k line :: fst (session_loop w a user fsp pairs c' s'))
        by (now rewrite <- !app_assoc).
      apply (loop_next _ _ _ _ _ r r_next _ _ cmt); try assumption.
      apply IH; [| |assumption].
      * intros j r1 r1' Hj. specialize (Hrows (S j) r1 r1' Hj).
        now rewrite Nat.add_succ_r in Hrows.
      * cbn in Hlen. lia.
    + rewrite (bind_raise _ _ _ _ _ E). rewrite E in Hl. exact Hl.
    + rewrite (bind_exit _ _ _ _ _ E). exact Hl.
Qed.

Lemma row_pairs_lookup rows j r r' :
  row_pairs rows !! j = Some (r, r') ->
  rows !! j = Some r /\ rows !! S j = Some r'.
Proof.
  unfold row_pairs. rewrite lookup_zip_Some, lookup_take_Some, lookup_drop.
  intros ((H1 & _) & H2). now split.
Qed.

Lemma row_pairs_length rows : length (row_pairs rows) = length rows - 1.
Proof. unfold row_pairs. rewrite length_zip, length_take, length_drop. lia. Qed.

(** A run either stops in the preamble with nothing done, or runs the
    loop over the rows left by the resume filter. *)
Lemma run_cases w a env isdir diff_areas results console :
  (fst (run w a env isdir diff_areas results console) = [] /\
   snd (run w a env isdir diff_areas results console) <> Ok tt)
  \/ (exists u rows,
        user a = Some u /\ resume w results diff_areas = Ok rows /\
        loop_trace w a u rows 0
          (fst (run w a env isdir diff_areas results console))
          (snd (run w a env isdir diff_areas results console))).
Proof.
  unfold run, main.
  destruct (resolve_freesurfer a env isdir) as [fsp|e|c] eqn:Hfs;
    [|left; now split..].
  rewrite bind_lift_ok.
  unfold check_user. destruct (user a) as [u|] eqn:Hu; [|left; now split].
  rewrite bind_lift_ok.
  destruct (resume w results diff_areas) as [rows|e|c] eqn:Hres;
    [|left; now split..].
  rewrite bind_lift_ok.
  right. exists u, rows. split; [reflexivity|]. split; [reflexivity|].
  pose proof (session_loop_shape w a u fsp rows (row_pairs rows) 0 initially
                (start console)) as H.
  unfold bind, ret.
  destruct (session_loop w a u fsp (row_pairs rows) initially (start console))
    as [t [[c' s']|e|c]]; cbn [fst snd forget rbind app] in *;
    rewrite ?app_nil_r; apply H;
    try (intros j r r' Hj; now apply row_pairs_lookup);
    try (rewrite row_pairs_length; lia); now split.
Qed.

(** *** The pieces of an iteration, read by each observer *)

Lemma quiet_silent qs :
  Forall quiet qs ->
  recorded qs = [] /\ answered qs = [] /\ launched qs = [] /\ appended qs = [] /\
  forall live, alive_from live qs = live.
Proof.
  induction 1 as [|e qs He _ (IH1 & IH2 & IH3 & IH4 & IH5)].
  - now conjuncts.
  - destruct e; try contradiction; cbn; conjuncts; try assumption;
      intros live; apply IH5.
Qed.

Lemma asked_silent ps asks :
  Forall (asked ps) asks ->
  recorded asks = [] /\ launched asks = [] /\ appended asks = [] /\
  forall live, alive_from live asks = live.
Proof.
  induction 1 as [|e asks (q & l & -> & _) _ (IH1 & IH2 & IH3 & IH4)].
  - now conjuncts.
  - cbn. conjuncts; assumption.
Qed.

Lemma window_quiet w p :
  Forall quiet (EvSleep 1000 :: (if xdotool_installed w then [EvXdo WindowUnmap p] else [])).
Proof. destruct (xdotool_installed w); repeat constructor. Qed.

Lemma reveal_quiet w p : Forall quiet (reveal_events w p).
Proof. unfold reveal_events. destruct (xdotool_installed w); repeat constructor. Qed.

Lemma closing_quiet w p :
  Forall quiet (if darwin w then []
                else if xdotool_installed w then [EvXdo WindowClose p] else []).
Proof. destruct (darwin w), (xdotool_installed w); repeat constructor. Qed.

Lemma sleeps_quiet n ms : Forall quiet (repeat (EvSleep ms) n).
Proof. induction n; cbn; constructor; [exact I|assumption]. Qed.

Lemma window_of_form w r p t :
  window_of w r p t ->
  exists image seg1 seg2 qs,
    t = EvLaunch p (subject_id r) image seg1 seg2 :: qs /\ Forall quiet qs.
Proof.
  intros (image & seg1 & seg2 & ->). exists image, seg1, seg2. eexists.
  split; [reflexivity|]. apply window_quiet.
Qed.

(** The opening of iteration [k] ends with the launch of process
    [k + 1] for the next row; before it, the first iteration launches
    process 0 for the current row. *)
Lemma opening_form w k r r_next t0 :
  opening w k r r_next t0 ->
  exists pre image seg1 seg2 qs,
    t0 = pre ++ EvLaunch (S k) (subject_id r_next) image seg1 seg2 :: qs /\
    Forall quiet qs /\
    match k with
    | O => exists image0 seg01 seg02 qs0,
             pre = EvLaunch 0 (subject_id r) image0 seg01 seg02 :: qs0 /\
             Forall quiet qs0
    | S _ => pre = []
    end.
Proof.
  destruct k as [|k]; cbn [opening].
  - intros (t & t1 & H0 & H1 & ->).
    apply window_of_form in H0 as (i0 & a0 & b0 & qs0 & -> & Hq0).
    apply window_of_form in H1 as (i1 & a1 & b1 & qs1 & -> & Hq1).
    exists (EvLaunch 0 (subject_id r) i0 a0 b0 :: qs0), i1, a1, b1,
      (qs1 ++ repeat (EvSleep 1200) 10).
    split; [reflexivity|]. split.
    + apply Forall_app. split; [assumption|apply sleeps_quiet].
    + now exists i0, a0, b0, qs0.
  - intros H. apply window_of_form in H as (i1 & a1 & b1 & qs1 & -> & Hq1).
    exists [], i1, a1, b1, qs1. now conjuncts.
Qed.

Lemma opening_read w k r r_next t0 :
  opening w k r r_next t0 ->
  recorded t0 = [] /\ answered t0 = [] /\ appended t0 = [] /\
  launched t0 = match k with O => [0; 1] | S _ => [S k] end /\
  alive_from (head_live k) t0 = [S k; k].
Proof.
  intros H. apply opening_form in H as (pre & i1 & a1 & b1 & qs & -> & Hq & Hpre).
  destruct (quiet_silent qs Hq) as (Q1 & Q2 & Q3 & Q4 & Q5).
  destruct k as [|k].
  - destruct Hpre as (i0 & a0 & b0 & qs0 & -> & Hq0).
    destruct (quiet_silent qs0 Hq0) as (P1 & P2 & P3 & P4 & P5).
    rewrite recorded_app, answered_app, appended_app, launched_app,
      alive_from_app.
    cbn [recorded answered appended launched]. rewrite P1, P2, P3, P4, Q1, Q2, Q3, Q4.
    conjuncts; try reflexivity.
    cbn [head_live alive_from fold_left alive_step].
    change (fold_left alive_step qs0 [0]) with (alive_from [0] qs0).
    rewrite P5. cbn [fold_left alive_step].
    change (fold_left alive_step qs [1; 0]) with (alive_from [1; 0] qs).
    apply Q5.
  - subst pre. cbn [app recorded answered appended launched].
    rewrite Q1, Q2, Q3, Q4. conjuncts; try reflexivity.
    cbn [head_live alive_from fold_left alive_step].
    change (fold_left alive_step qs [S (S k); S k])
      with (alive_from [S (S k); S k] qs).
    apply Q5.
Qed.

Lemma terminate_read w p :
  recorded (terminate_events w p) = [] /\ answered (terminate_events w p) = [] /\
  appended (terminate_events w p) = [] /\ launched (terminate_events w p) = [] /\
  forall live, alive_from live (terminate_events w p)
               = List.filter (fun x => negb (Nat.eqb x p)) live.
Proof.
  unfold terminate_events.
  destruct (quiet_silent _ (closing_quiet w p)) as (Q1 & Q2 & Q3 & Q4 & Q5).
  cbn [recorded answered appended launched]. conjuncts; try assumption.
  intros live. cbn [alive_from fold_left alive_step]. apply Q5.
Qed.

Lemma stop_read group p pn :
  recorded (stop_events group [p; pn]) = [] /\
  answered (stop_events group [p; pn]) = [] /\
  appended (stop_events group [p; pn]) = [] /\
  launched (stop_events group [p; pn]) = [] /\
  forall live, alive_from live (stop_events group [p; pn])
               = List.filter (fun x => negb (Nat.eqb x pn))
                   (List.filter (fun x => negb (Nat.eqb x p)) live).
Proof. conjuncts; reflexivity. Qed.

Lemma filter_current k :
  List.filter (fun x => negb (Nat.eqb x k)) [S k; k] = [S k].
Proof.
  cbn [List.filter]. rewrite Nat.eqb_refl.
  destruct (Nat.eqb_spec (S k) k) as [E|_]; [lia|reflexivity].
Qed.

(** A completed iteration, read by each observer. *)
Lemma chunk_read w k r r_next t0 asks line :
  opening w k r r_next t0 ->
  Forall (asked [k; S k]) asks -> answered asks = [k] ->
  let chunk := t0 ++ reveal_events w k ++ asks ++ terminate_events w k
                  ++ [EvAppend k line] in
  recorded chunk = [k] /\ answered chunk = [k] /\ appended chunk = [line] /\
  launched chunk = match k with O => [0; 1] | S _ => [S k] end /\
  alive_from (head_live k) chunk = [S k].
Proof.
  intros Hopen Hasks Ha chunk. subst chunk.
  destruct (opening_read _ _ _ _ _ Hopen) as (O1 & O2 & O3 & O4 & O5).
  destruct (quiet_silent _ (reveal_quiet w k)) as (R1 & R2 & R3 & R4 & R5).
  destruct (asked_silent _ _ Hasks) as (A1 & A2 & A3 & A4).
  destruct (terminate_read w k) as (T1 & T2 & T3 & T4 & T5).
  rewrite !recorded_app, !answered_app, !appended_app, !launched_app,
    !alive_from_app.
  rewrite O1, O2, O3, O4, O5, R1, R2, R3, R4, R5, A1, A2, A3, A4, Ha,
    T1, T2, T3, T4, T5, filter_current.
  conjuncts; try reflexivity. now rewrite app_nil_r.
Qed.

Lemma chunk_split {A} (t0 r a tm : list A) e t :
  t0 ++ r ++ a ++ tm ++ e :: t = (t0 ++ r ++ a ++ tm ++ [e]) ++ t.
Proof. now rewrite <- !app_assoc. Qed.

Lemma answered_stop_input ps q rp t :
  is_stop rp = true -> answered (EvInput ps q (Some rp) :: t) = answered t.
Proof.
  intros H. destruct ps, q, rp as [l|]; try reflexivity.
  cbn in *. now rewrite H.
Qed.

Lemma answered_eof_input ps q t :
  answered (EvInput ps q None :: t) = answered t.
Proof. now destruct ps, q. Qed.

Lemma broken_opening_read w k r t0 :
  broken_opening w k r t0 ->
  recorded t0 = [] /\ answered t0 = [] /\ appended t0 = [] /\
  length (launched t0) <= 1 /\ (k <> 0 -> launched t0 = []).
Proof.
  destruct k as [|k]; cbn [broken_opening].
  - intros [->|H].
    + cbn. conjuncts; try reflexivity; lia.
    + apply window_of_form in H as (i & s1 & s2 & qs & -> & Hq).
      destruct (quiet_silent qs Hq) as (Q1 & Q2 & Q3 & Q4 & _).
      cbn. rewrite Q1, Q2, Q3, Q4.
      conjuncts; try reflexivity; try (cbn; lia); try (intros H; now destruct H).
  - intros ->. cbn. conjuncts; try reflexivity; lia.
Qed.

(** *** Records

    From iteration [k] on, the records appended are those of the
    processes [k], [k + 1], ... in order, one for each process whose
    comment question was answered; the last row is never reached. *)
Lemma loop_records w a u rows k t res :
  loop_trace w a u rows k t res ->
  exists n,
    recorded t = seq k n /\ answered t = seq k n /\ length (appended t) = n /\
    (n = 0 \/ k + n < length rows) /\
    (res = Ok tt -> length rows <= S (k + n)).
Proof.
  induction 1 as [k Hlen
                 |k r r_next t0 asks cmt line t res Hr Hr' Hopen Hasks Ha Hcmt Hrec _ IH
                 |k r r_next t0 asks q rp Hr Hr' Hopen Hasks Ha Hrp
                 |k r r_next t0 asks q Hr Hr' Hopen Hasks Ha
                 |k r r_next t0 e Hr Hr' Hb].
  - exists 0. cbn. conjuncts; first [reflexivity | now left | intros _; lia].
  - destruct IH as (n & I1 & I2 & I3 & I4 & I5).
    destruct (chunk_read w k r r_next t0 asks line Hopen Hasks Ha)
      as (C1 & C2 & C3 & _).
    exists (S n). rewrite chunk_split, recorded_app, answered_app, appended_app.
    rewrite C1, C2, C3, I1, I2. cbn [app seq length].
    conjuncts; try reflexivity.
    + now rewrite I3.
    + right. apply lookup_lt_Some in Hr'. lia.
    + intros E. specialize (I5 E). lia.
  - destruct (opening_read _ _ _ _ _ Hopen) as (O1 & O2 & O3 & _).
    destruct (quiet_silent _ (reveal_quiet w k)) as (R1 & R2 & _ & R3 & _).
    destruct (asked_silent _ _ Hasks) as (A1 & _ & A3 & _).
    destruct (stop_read (darwin w) k (S k)) as (S1 & S2 & S3 & _).
    exists 0. rewrite !recorded_app, !answered_app, !appended_app.
    rewrite (answered_stop_input _ _ _ _ Hrp).
    cbn [recorded appended].
    rewrite O1, O2, O3, R1, R2, R3, A1, A3, Ha, S1, S2, S3.
    cbn. conjuncts; first [reflexivity | now left | discriminate].
  - destruct (opening_read _ _ _ _ _ Hopen) as (O1 & O2 & O3 & _).
    destruct (quiet_silent _ (reveal_quiet w k)) as (R1 & R2 & _ & R3 & _).
    destruct (asked_silent _ _ Hasks) as (A1 & _ & A3 & _).
    exists 0. rewrite !recorded_app, !answered_app, !appended_app.
    rewrite answered_eof_input.
    rewrite O1, O2, O3, R1, R2, R3, A1, A3, Ha.
    cbn. conjuncts; first [reflexivity | now left | discriminate].
  - destruct (broken_opening_read _ _ _ _ Hb) as (B1 & B2 & B3 & _).
    exists 0. rewrite B1, B2, B3.
    cbn. conjuncts; first [reflexivity | now left | discriminate].
Qed.

(** *** Viewer processes alive *)

Lemma alive_step_length live e :
  length (alive_step live e) <= length live + length (launched [e]).
Proof.
  destruct e; cbn; try lia.
  induction live as [|x live IH]; cbn; [lia|].
  destruct (negb (Nat.eqb x p)); cbn in *; lia.
Qed.

Lemma alive_from_length t : forall live,
  length (alive_from live t) <= length live + length (launched t).
Proof.
  induction t as [|e t IH]; intros live; [cbn; lia|].
  change (alive_from live (e :: t)) with (alive_from (alive_step live e) t).
  specialize (IH (alive_step live e)).
  pose proof (alive_step_length live e) as H.
  change (e :: t) with ([e] ++ t). rewrite launched_app, length_app. lia.
Qed.

Lemma launched_take n t : length (launched (take n t)) <= length (launched t).
Proof.
  revert n. induction t as [|e t IH]; intros [|n]; cbn; try lia.
  specialize (IH n). destruct e; cbn; lia.
Qed.

(** At most [length live] plus the launches of [t] processes are alive
    after any prefix of [t]. *)
Lemma alive_prefix_bound live t n :
  length (alive_from live (take n t)) <= length live + length (launched t).
Proof.
  pose proof (alive_from_length (take n t) live).
  pose proof (launched_take n t). lia.
Qed.

Lemma head_live_length k :
  length (head_live k) + length (match k with O => [0; 1] | S _ => [S k] end) = 2.
Proof. now destruct k. Qed.

Lemma loop_alive_bound w a u rows k t res :
  loop_trace w a u rows k t res ->
  forall n, length (alive_from (head_live k) (take n t)) <= 2.
Proof.
  induction 1 as [k Hlen
                 |k r r_next t0 asks cmt line t res Hr Hr' Hopen Hasks Ha Hcmt Hrec _ IH
                 |k r r_next t0 asks q rp Hr Hr' Hopen Hasks Ha Hrp
                 |k r r_next t0 asks q Hr Hr' Hopen Hasks Ha
                 |k r r_next t0 e Hr Hr' Hb]; intros n.
  - rewrite take_nil. destruct k; cbn; lia.
  - destruct (chunk_read w k r r_next t0 asks line Hopen Hasks Ha)
      as (_ & _ & _ & C4 & C5).
    rewrite chunk_split.
    set (chunk := t0 ++ reveal_events w k ++ asks ++ terminate_events w k
                    ++ [EvAppend k line]) in *.
    destruct (Nat.le_gt_cases n (length chunk)) as [Hn|Hn].
    + rewrite take_app_le by assumption.
      pose proof (alive_prefix_bound (head_live k) chunk n) as Hb.
      rewrite C4 in Hb. pose proof (head_live_length k). lia.
    + rewrite take_app_ge by lia. rewrite alive_from_app, C5. apply IH.
  - pose proof (alive_prefix_bound (head_live k)
                  (t0 ++ reveal_events w k ++ asks
                     ++ EvInput [k; S k] q (Some rp) :: stop_events (darwin w) [k; S k])
                  n) as Hb.
    destruct (opening_read _ _ _ _ _ Hopen) as (_ & _ & _ & O4 & _).
    destruct (quiet_silent _ (reveal_quiet w k)) as (_ & _ & R3 & _).
    destruct (asked_silent _ _ Hasks) as (_ & A2 & _).
    rewrite !launched_app in Hb. cbn [launched] in Hb.
    destruct (stop_read (darwin w) k (S k)) as (_ & _ & _ & S4 & _).
    rewrite O4, R3, A2, S4, !app_nil_r in Hb.
    pose proof (head_live_length k). lia.
  - pose proof (alive_prefix_bound (head_live k)
                  (t0 ++ reveal_events w k ++ asks ++ [EvInput [k; S k] q None])
                  n) as Hb.
    destruct (opening_read _ _ _ _ _ Hopen) as (_ & _ & _ & O4 & _).
    destruct (quiet_silent _ (reveal_quiet w k)) as (_ & _ & R3 & _).
    destruct (asked_silent _ _ Hasks) as (_ & A2 & _).
    rewrite !launched_app in Hb. cbn [launched] in Hb.
    rewrite O4, R3, A2, !app_nil_r in Hb.
    pose proof (head_live_length k). lia.
  - pose proof (alive_prefix_bound (head_live k) t0 n) as Hbd.
    destruct (broken_opening_read _ _ _ _ Hb) as (_ & _ & _ & B4 & B5).
    destruct k as [|k]; cbn [head_live length] in *; [lia|].
    rewrite B5 in Hbd by discriminate. cbn in Hbd. lia.
Qed.

(** *** The events of a run *)

Lemma loop_event_weaken w a u rows k k' e :
  k' <= k -> loop_event w a u rows k e -> loop_event w a u rows k' e.
Proof.
  intros Hk. destruct e; cbn; try tauto.
  - intros (H & Hr). split; [lia|assumption].
  - intros (p' & -> & H & Hl). exists p'. conjuncts; [reflexivity|lia|assumption].
  - intros (-> & H). split; [reflexivity|lia].
  - intros (H & Hr). split; [lia|assumption].
Qed.

Lemma quiet_loop_event w a u rows k qs :
  Forall quiet qs -> Forall (loop_event w a u rows k) qs.
Proof.
  intros H. eapply Forall_impl; [exact H|].
  intros e He. destruct e; try contradiction; exact I.
Qed.

Lemma asked_loop_event w a u rows k asks :
  S k < length rows ->
  Forall (asked [k; S k]) asks -> Forall (loop_event w a u rows k) asks.
Proof.
  intros Hk H. eapply Forall_impl; [exact H|].
  intros e (q & l & -> & _). exists k. now conjuncts.
Qed.

Lemma opening_loop_event w a u rows k r r_next t0 :
  rows !! k = Some r -> rows !! S k = Some r_next ->
  opening w k r r_next t0 -> Forall (loop_event w a u rows k) t0.
Proof.
  intros Hr Hr' H.
  apply opening_form in H as (pre & i1 & a1 & b1 & qs & -> & Hq & Hpre).
  apply Forall_app. split.
  - destruct k as [|k]; [|subst pre; constructor].
    destruct Hpre as (i0 & a0 & b0 & qs0 & -> & Hq0).
    constructor; [|now apply quiet_loop_event].
    split; [lia|]. now exists r.
  - constructor; [|now apply quiet_loop_event].
    split; [lia|]. now exists r_next.
Qed.

Lemma broken_loop_event w a u rows k r t0 :
  rows !! k = Some r ->
  broken_opening w k r t0 -> Forall (loop_event w a u rows k) t0.
Proof.
  intros Hr. destruct k as [|k]; cbn [broken_opening].
  - intros [->|H]; [constructor|].
    apply window_of_form in H as (i0 & a0 & b0 & qs0 & -> & Hq0).
    constructor; [|now apply quiet_loop_event].
    split; [lia|]. now exists r.
  - intros ->. constructor.
Qed.

Lemma terminate_loop_event w a u rows k :
  Forall (loop_event w a u rows k) (terminate_events w k).
Proof.
  unfold terminate_events. constructor; [now split|].
  apply quiet_loop_event, closing_quiet.
Qed.

(** Every event of the loop is a launch, a console read, a SIGTERM or a
    record of the documented kind, a sleep or a window command. *)
Lemma loop_events w a u rows k t res :
  loop_trace w a u rows k t res -> Forall (loop_event w a u rows k) t.
Proof.
  induction 1 as [k Hlen
                 |k r r_next t0 asks cmt line t res Hr Hr' Hopen Hasks Ha Hcmt Hrec _ IH
                 |k r r_next t0 asks q rp Hr Hr' Hopen Hasks Ha Hrp
                 |k r r_next t0 asks q Hr Hr' Hopen Hasks Ha
                 |k r r_next t0 e Hr Hr' Hb].
  - constructor.
  - pose proof (lookup_lt_Some _ _ _ Hr') as Hlt.
    repeat (apply Forall_app; split).
    + eapply opening_loop_event; eassumption.
    + apply quiet_loop_event, reveal_quiet.
    + now apply asked_loop_event.
    + apply terminate_loop_event.
    + constructor.
      * split; [lia|]. now exists r, cmt.
      * eapply Forall_impl; [exact IH|].
        intros e. apply loop_event_weaken. lia.
  - pose proof (lookup_lt_Some _ _ _ Hr') as Hlt.
    repeat (apply Forall_app; split).
    + eapply opening_loop_event; eassumption.
    + apply quiet_loop_event, reveal_quiet.
    + now apply asked_loop_event.
    + constructor; [exists k; now conjuncts|].
      repeat constructor; lia.
  - pose proof (lookup_lt_Some _ _ _ Hr') as Hlt.
    repeat (apply Forall_app; split).
    + eapply opening_loop_event; eassumption.
    + apply quiet_loop_event, reveal_quiet.
    + now apply asked_loop_event.
    + constructor; [exists k; now conjuncts|constructor].
  - eapply broken_loop_event; eassumption.
Qed.

(** *** The order of events *)

(** If [e] satisfies a test that fails on every element of [seg], an
    occurrence of [e] in [seg ++ rest] lies in [rest]. *)
Lemma peel {A} (f : A -> bool) seg : forall rest pre e post,
  Forall (fun x => f x = false) seg -> f e = true ->
  seg ++ rest = pre ++ e :: post ->
  exists pre', pre = seg ++ pre' /\ rest = pre' ++ e :: post.
Proof.
  induction seg as [|x seg IH]; intros rest pre e post Hseg He E.
  - now exists pre.
  - apply Forall_cons in Hseg as (Hx & Hseg).
    destruct pre as [|y pre]; cbn in E; injection E as -> E.
    + congruence.
    + destruct (IH _ _ _ _ Hseg He E) as (pre' & -> & ->). now exists pre'.
Qed.

Lemma absent {A} (f : A -> bool) t pre e post :
  Forall (fun x => f x = false) t -> f e = true -> t = pre ++ e :: post -> False.
Proof.
  intros Ht He ->. apply Forall_app in Ht as (_ & Ht).
  apply Forall_cons in Ht as (Hx & _). congruence.
Qed.


Lemma quiet_fails (f : event -> bool) qs :
  (forall ms, f (EvSleep ms) = false) ->
  (forall x uid, f (EvXdo x uid) = false) ->
  Forall quiet qs -> Forall (fun x => f x = false) qs.
Proof.
  intros H1 H2 H. eapply Forall_impl; [exact H|].
  intros e He. destruct e; try contradiction; auto.
Qed.

Lemma asked_fails (f : event -> bool) ps asks :
  (forall q r, f (EvInput ps q r) = false) ->
  Forall (asked ps) asks -> Forall (fun x => f x = false) asks.
Proof.
  intros H1 H. eapply Forall_impl; [exact H|].
  intros e (q & l & -> & _). apply H1.
Qed.

Lemma opening_fails (f : event -> bool) w k r r_next t0 :
  (forall ms, f (EvSleep ms) = false) ->
  (forall x uid, f (EvXdo x uid) = false) ->
  (forall p sid i s1 s2, p <= S k -> f (EvLaunch p sid i s1 s2) = false) ->
  opening w k r r_next t0 -> Forall (fun x => f x = false) t0.
Proof.
  intros H1 H2 H3 H.
  apply opening_form in H as (pre & i1 & a1 & b1 & qs & -> & Hq & Hpre).
  apply Forall_app. split.
  - destruct k as [|k]; [|subst pre; constructor].
    destruct Hpre as (i0 & a0 & b0 & qs0 & -> & Hq0).
    constructor; [apply H3; lia|now apply quiet_fails].
  - constructor; [apply H3; lia|now apply quiet_fails].
Qed.

Lemma broken_fails (f : event -> bool) w k r t0 :
  (forall ms, f (EvSleep ms) = false) ->
  (forall x uid, f (EvXdo x uid) = false) ->
  (forall p sid i s1 s2, p <= S k -> f (EvLaunch p sid i s1 s2) = false) ->
  broken_opening w k r t0 -> Forall (fun x => f x = false) t0.
Proof.
  intros H1 H2 H3. destruct k as [|k]; cbn [broken_opening].
  - intros [->|H]; [constructor|].
    apply window_of_form in H as (i0 & a0 & b0 & qs0 & -> & Hq0).
    constructor; [apply H3; lia|now apply quiet_fails].
  - intros ->. constructor.
Qed.

Lemma terminate_fails (f : event -> bool) w k :
  (forall ms, f (EvSleep ms) = false) ->
  (forall x uid, f (EvXdo x uid) = false) ->
  (forall g p, f (EvTerm g p) = false) ->
  Forall (fun x => f x = false) (terminate_events w k).
Proof.
  intros H1 H2 H3. unfold terminate_events. constructor; [apply H3|].
  apply quiet_fails; [assumption..|apply closing_quiet].
Qed.

Lemma stop_fails (f : event -> bool) group ps :
  (forall ms, f (EvSleep ms) = false) ->
  (forall g p, f (EvTerm g p) = false) ->
  Forall (fun x => f x = false) (stop_events group ps).
Proof.
  intros H1 H3. unfold stop_events. apply Forall_app. split.
  - apply Forall_fmap. apply Forall_forall. intros p _. apply H3.
  - constructor; [apply H1|constructor].
Qed.


Lemma terminate_has_term w k : EvTerm (darwin w) k ∈ terminate_events w k.
Proof. unfold terminate_events. apply elem_of_cons. now left. Qed.

(** A record is appended only after its comment was read from the
    console and SIGTERM was sent to the process that showed its subject. *)
Lemma loop_append_after w a u rows k t res :
  loop_trace w a u rows k t res ->
  forall pre p line post,
    t = pre ++ EvAppend p line :: post ->
    EvTerm (darwin w) p ∈ pre /\
    exists r cmt, rows !! p = Some r /\ record_of w a u r cmt line /\
                  EvInput [p; S p] QComment (Some (Line cmt)) ∈ pre.
Proof.
  induction 1 as [k Hlen
                 |k r r_next t0 asks cmt line0 t res Hr Hr' Hopen Hasks Ha Hcmt Hrec _ IH
                 |k r r_next t0 asks q rp Hr Hr' Hopen Hasks Ha Hrp
                 |k r r_next t0 asks q Hr Hr' Hopen Hasks Ha
                 |k r r_next t0 e Hr Hr' Hb]; intros pre p line post E.
  - now destruct pre.
  - apply (peel is_append) in E as (pre0 & -> & E);
      [|eapply opening_fails; [..|eassumption]; no_kind|reflexivity].
    apply (peel is_append) in E as (pre1 & -> & E);
      [|apply quiet_fails; [..|apply reveal_quiet]; no_kind|reflexivity].
    apply (peel is_append) in E as (pre2 & -> & E);
      [|eapply asked_fails; [|eassumption]; no_kind|reflexivity].
    apply (peel is_append) in E as (pre3 & -> & E);
      [|apply terminate_fails; no_kind|reflexivity].
    destruct pre3 as [|x pre3]; cbn in E.
    + injection E as -> -> ->. rewrite app_nil_r. split.
      * rewrite !elem_of_app. right. right. right. apply terminate_has_term.
      * exists r, cmt. conjuncts; try assumption.
        rewrite !elem_of_app. right. right. now left.
    + injection E as _ E.
      destruct (IH _ _ _ _ E) as (IH1 & r1 & cmt1 & IH2 & IH3 & IH4). split.
      * rewrite !elem_of_app, elem_of_cons. tauto.
      * exists r1, cmt1. conjuncts; try assumption.
        rewrite !elem_of_app, elem_of_cons. tauto.
  - exfalso. apply (fun H => absent is_append _ _ (EvAppend p line) _ H eq_refl E).
    repeat (apply Forall_app; split).
    + eapply opening_fails; [..|eassumption]; no_kind.
    + apply quiet_fails; [..|apply reveal_quiet]; no_kind.
    + eapply asked_fails; [|eassumption]; no_kind.
    + constructor; [reflexivity|]. apply stop_fails; no_kind.
  - exfalso. apply (fun H => absent is_append _ _ (EvAppend p line) _ H eq_refl E).
    repeat (apply Forall_app; split).
    + eapply opening_fails; [..|eassumption]; no_kind.
    + apply quiet_fails; [..|apply reveal_quiet]; no_kind.
    + eapply asked_fails; [|eassumption]; no_kind.
    + constructor; [reflexivity|constructor].
  - exfalso. apply (fun H => absent is_append _ _ (EvAppend p line) _ H eq_refl E).
    eapply broken_fails; [..|eassumption]; no_kind.
Qed.



Lemma far_launch_near k p sid i s1 s2 :
  p <= S k -> far_launch k (EvLaunch p sid i s1 s2) = false.
Proof. intros H. cbn [far_launch]. apply Nat.ltb_ge. lia. Qed.

(** The window of row [p + 2] is launched only after SIGTERM was sent to
    process [p]. *)
Lemma loop_launch_after_term w a u rows k t res :
  loop_trace w a u rows k t res ->
  forall pre p sid i s1 s2 post,
    t = pre ++ EvLaunch (S (S p)) sid i s1 s2 :: post ->
    k <= p -> EvTerm (darwin w) p ∈ pre.
Proof.
  induction 1 as [k Hlen
                 |k r r_next t0 asks cmt line0 t res Hr Hr' Hopen Hasks Ha Hcmt Hrec _ IH
                 |k r r_next t0 asks q0 rp0 Hr Hr' Hopen Hasks Ha Hrp
                 |k r r_next t0 asks q0 Hr Hr' Hopen Hasks Ha
                 |k r r_next t0 e Hr Hr' Hb];
    intros pre p sid i s1 s2 post E Hk;
    assert (far_launch k (EvLaunch (S (S p)) sid i s1 s2) = true) as Hfar
      by (cbn [far_launch]; apply Nat.ltb_lt; lia).
  - now destruct pre.
  - apply (peel (far_launch k)) in E as (pre0 & -> & E);
      [|eapply opening_fails; [..|eassumption];
        first [no_kind|intros; now apply far_launch_near]|assumption].
    apply (peel (far_launch k)) in E as (pre1 & -> & E);
      [|apply quiet_fails; [..|apply reveal_quiet]; no_kind|assumption].
    apply (peel (far_launch k)) in E as (pre2 & -> & E);
      [|eapply asked_fails; [|eassumption]; no_kind|assumption].
    apply (peel (far_launch k)) in E as (pre3 & -> & E);
      [|apply terminate_fails; no_kind|assumption].
    destruct pre3 as [|x pre3]; cbn in E; [discriminate E|].
    injection E as _ E. rewrite !elem_of_app, elem_of_cons.
    destruct (Nat.eq_dec p k) as [->|Hne].
    + right. right. right. left. apply terminate_has_term.
    + right. right. right. right. right. apply (IH _ _ _ _ _ _ _ E). lia.
  - exfalso.
    apply (fun H => absent (far_launch k) _ _ _ _ H Hfar E).
    repeat (apply Forall_app; split).
    + eapply opening_fails; [..|eassumption];
        first [no_kind|intros; now apply far_launch_near].
    + apply quiet_fails; [..|apply reveal_quiet]; no_kind.
    + eapply asked_fails; [|eassumption]; no_kind.
    + constructor; [reflexivity|]. apply stop_fails; no_kind.
  - exfalso.
    apply (fun H => absent (far_launch k) _ _ _ _ H Hfar E).
    repeat (apply Forall_app; split).
    + eapply opening_fails; [..|eassumption];
        first [no_kind|intros; now apply far_launch_near].
    + apply quiet_fails; [..|apply reveal_quiet]; no_kind.
    + eapply asked_fails; [|eassumption]; no_kind.
    + constructor; [reflexivity|constructor].
  - exfalso.
    apply (fun H => absent (far_launch k) _ _ _ _ H Hfar E).
    eapply broken_fails; [..|eassumption];
      first [no_kind|intros; now apply far_launch_near].
Qed.

(** *** Stopping *)

Lemma asked_not_stop ps asks :
  Forall (asked ps) asks -> Forall (fun x => is_stop_input x = false) asks.
Proof.
  intros H. eapply Forall_impl; [exact H|].
  intros e (q & l & -> & Hl). cbn. now apply eqb_stop_false.
Qed.

Lemma filter_both k :
  List.filter (fun x => negb (Nat.eqb x (S k)))
    (List.filter (fun x => negb (Nat.eqb x k)) [S k; k]) = [].
Proof. rewrite filter_current. cbn [List.filter]. now rewrite Nat.eqb_refl. Qed.

(** A stop command or an interrupt read at a question ends the run: what
    follows is [stop_labeling] on the two processes alive, the run exits
    with status 0, no record is written for the subject in progress and
    the records written before are those of the earlier subjects. *)
Lemma loop_stop_read w a u rows k t res :
  loop_trace w a u rows k t res ->
  forall pre ps q rp post,
    t = pre ++ EvInput ps q (Some rp) :: post -> is_stop rp = true ->
    post = stop_events (darwin w) ps /\ res = Exit 0 /\
    exists p, k <= p /\ ps = [p; S p] /\
      alive_from (head_live k) pre = [S p; p] /\
      recorded t = seq k (p - k) /\
      alive_from (head_live k) t = [] /\
      appended t = appended pre.
Proof.
  induction 1 as [k Hlen
                 |k r r_next t0 asks cmt line0 t res Hr Hr' Hopen Hasks Ha Hcmt Hrec _ IH
                 |k r r_next t0 asks q0 rp0 Hr Hr' Hopen Hasks Ha Hrp
                 |k r r_next t0 asks q0 Hr Hr' Hopen Hasks Ha
                 |k r r_next t0 e Hr Hr' Hb];
    intros pre ps q rp post E Hstop;
    assert (is_stop_input (EvInput ps q (Some rp)) = true) as Hf by exact Hstop.
  - now destruct pre.
  - destruct (chunk_read w k r r_next t0 asks line0 Hopen Hasks Ha)
      as (C1 & C2 & C3 & C4 & C5).
    apply (peel is_stop_input) in E as (pre0 & -> & E);
      [|eapply opening_fails; [..|eassumption]; no_kind|assumption].
    apply (peel is_stop_input) in E as (pre1 & -> & E);
      [|apply quiet_fails; [..|apply reveal_quiet]; no_kind|assumption].
    apply (peel is_stop_input) in E as (pre2 & -> & E);
      [|eapply asked_not_stop; eassumption|assumption].
    apply (peel is_stop_input) in E as (pre3 & -> & E);
      [|apply terminate_fails; no_kind|assumption].
    destruct pre3 as [|x pre3]; cbn in E; [discriminate E|].
    injection E as <- E.
    destruct (IH _ _ _ _ _ E Hstop) as (-> & -> & p & Hp & -> & I1 & I2 & I3 & I4).
    split; [reflexivity|]. split; [reflexivity|].
    exists p. split; [lia|]. split; [reflexivity|].
    rewrite (chunk_split t0 _ _ _ _ t), (chunk_split t0 _ _ _ _ pre3).
    set (chunk := t0 ++ reveal_events w k ++ asks ++ terminate_events w k
                    ++ [EvAppend k line0]) in *.
    rewrite !recorded_app, !alive_from_app, !appended_app, C1, C3, C5.
    conjuncts.
    + exact I1.
    + rewrite I2. replace (p - k) with (S (p - S k)) by lia. reflexivity.
    + exact I3.
    + now rewrite I4.
  - destruct (opening_read _ _ _ _ _ Hopen) as (O1 & O2 & O3 & O4 & O5).
    destruct (quiet_silent _ (reveal_quiet w k)) as (R1 & R2 & R3 & R4 & R5).
    destruct (asked_silent _ _ Hasks) as (A1 & A2 & A3 & A4).
    apply (peel is_stop_input) in E as (pre0 & -> & E);
      [|eapply opening_fails; [..|eassumption]; no_kind|assumption].
    apply (peel is_stop_input) in E as (pre1 & -> & E);
      [|apply quiet_fails; [..|apply reveal_quiet]; no_kind|assumption].
    apply (peel is_stop_input) in E as (pre2 & -> & E);
      [|eapply asked_not_stop; eassumption|assumption].
    destruct pre2 as [|x pre2]; cbn [app] in E.
    + injection E as <- <- <- <-.
      split; [reflexivity|]. split; [reflexivity|].
      exists k. split; [lia|]. split; [reflexivity|].
      rewrite !recorded_app, !alive_from_app, !appended_app, !app_nil_r.
      cbn [recorded appended].
      change (alive_from ?l (EvInput ?ps ?q ?r :: ?t)) with (alive_from l t).
      destruct (stop_read (darwin w) k (S k)) as (S1 & S2 & S3 & S4 & S5).
      rewrite O1, O3, O5, R1, R4, !R5, A1, A3, !A4, ?S1, ?S3, S5, filter_both.
      rewrite Nat.sub_diag. conjuncts; reflexivity.
    + injection E as _ E. exfalso.
      apply (fun H => absent is_stop_input _ _ _ _ H Hf E).
      apply stop_fails; no_kind.
  - apply (peel is_stop_input) in E as (pre0 & -> & E);
      [|eapply opening_fails; [..|eassumption]; no_kind|assumption].
    apply (peel is_stop_input) in E as (pre1 & -> & E);
      [|apply quiet_fails; [..|apply reveal_quiet]; no_kind|assumption].
    apply (peel is_stop_input) in E as (pre2 & -> & E);
      [|eapply asked_not_stop; eassumption|assumption].
    destruct pre2 as [|x pre2]; cbn [app] in E; [discriminate E|].
    injection E as _ E. now destruct pre2.
  - exfalso. apply (fun H => absent is_stop_input _ _ _ _ H Hf E).
    eapply broken_fails; [..|eassumption]; no_kind.
Qed.

End SessionFacts.

(** ** Whole runs *)
Module RunFacts.
Import Console Session ConsoleFacts SessionFacts PyFacts.

Lemma resume_none w diff_areas : resume w None diff_areas = Ok diff_areas.
Proof. reflexivity. Qed.

(** The loop never reaches the last row: a run appends at most one
    record less than there are rows, and exactly that many when it ends
    normally. *)
Lemma run_leaves_last_row w a env isdir diff_areas results console rows :
  resume w results diff_areas = Ok rows ->
  length (appended (fst (run w a env isdir diff_areas results console)))
    <= length rows - 1 /\
  (snd (run w a env isdir diff_areas results console) = Ok tt ->
   length (appended (fst (run w a env isdir diff_areas results console)))
     = length rows - 1).
Proof.
  intros Hres.
  destruct (run_cases w a env isdir diff_areas results console)
    as [(Ht & Hne)|(u & rows' & Hu & Hres' & Hloop)].
  - rewrite Ht. cbn. split; [lia|]. intros E. now destruct Hne.
  - rewrite Hres in Hres'. injection Hres' as <-.
    destruct (loop_records _ _ _ _ _ _ _ Hloop) as (n & _ & _ & Hn & Hb & Hok).
    rewrite Hn. split; [lia|]. intros E. specialize (Hok E). lia.
Qed.

(** With the labeler [u] and the rows [rows] left by the resume filter,
    a run that does anything is a run of the loop over [rows]. *)
Lemma run_loop w a env isdir diff_areas results console u rows :
  user a = Some u ->
  resume w results diff_areas = Ok rows ->
  fst (run w a env isdir diff_areas results console) = [] \/
  loop_trace w a u rows 0
    (fst (run w a env isdir diff_areas results console))
    (snd (run w a env isdir diff_areas results console)).
Proof.
  intros Hu Hres.
  destruct (run_cases w a env isdir diff_areas results console)
    as [(Ht & _)|(u' & rows' & Hu' & Hres' & Hloop)]; [now left|].
  rewrite Hu in Hu'. injection Hu' as <-.
  rewrite Hres in Hres'. injection Hres' as <-. now right.
Qed.

(** C1, run on the scenario of the claim (three subjects, none labeled,
    methods "A" and "B"): whatever the operator types, at most two records
    are appended; with valid answers for all three subjects the run ends
    normally with the records of "S1" and "S2" only. The window of "S3"
    (process 2) is launched, but its questions are never asked. *)
Theorem three_subjects_give_two_records :
  (forall w console,
     length (appended (fst (run w Scenario.cli Scenario.env Scenario.no_dirs
                              Scenario.worklist None console))) <= 2) /\
  snd (run Scenario.linux Scenario.cli Scenario.env Scenario.no_dirs
         Scenario.worklist None Scenario.three_subjects) = Ok tt /\
  appended (fst (run Scenario.linux Scenario.cli Scenario.env Scenario.no_dirs
                   Scenario.worklist None Scenario.three_subjects))
    = [ "S1,B,A,B,certain,2,None,fine; but noisy,anna,7.0,12" +:+ newline;
        "S2,B,A,B,certain,2,None,fine; but noisy,anna,7.0,12" +:+ newline ] /\
  launched (fst (run Scenario.linux Scenario.cli Scenario.env Scenario.no_dirs
                   Scenario.worklist None Scenario.three_subjects)) = [0; 1; 2] /\
  answered (fst (run Scenario.linux Scenario.cli Scenario.env Scenario.no_dirs
                   Scenario.worklist None Scenario.three_subjects)) = [0; 1].
Proof.
  split.
  - intros w console.
    exact (proj1 (run_leaves_last_row w Scenario.cli Scenario.env Scenario.no_dirs
                    Scenario.worklist None console Scenario.worklist
                    (resume_none _ _))).
  - conjuncts; vm_compute; reflexivity.
Qed.

(** C7. After every prefix of every run at most two viewer processes
    are alive (launched and not yet sent SIGTERM); and the window of row
    [p + 2] is launched only after SIGTERM was sent to process [p]. *)
Theorem at_most_two_viewers w a env isdir diff_areas results console :
  (forall n,
     length (alive (take n (fst (run w a env isdir diff_areas results console))))
       <= 2) /\
  (forall pre p sid i s1 s2 post,
     fst (run w a env isdir diff_areas results console)
       = pre ++ EvLaunch (S (S p)) sid i s1 s2 :: post ->
     EvTerm (darwin w) p ∈ pre).
Proof.
  destruct (run_cases w a env isdir diff_areas results console)
    as [(Ht & Hne)|(u & rows & Hu & Hres & Hloop)].
  - rewrite Ht. split.
    + intros n. rewrite take_nil. cbn. lia.
    + intros pre p sid i s1 s2 post E. now destruct pre.
  - split.
    + intros n. exact (loop_alive_bound _ _ _ _ _ _ _ Hloop n).
    + intros pre p sid i s1 s2 post E.
      apply (loop_launch_after_term _ _ _ _ _ _ _ Hloop _ _ _ _ _ _ _ E). lia.
Qed.

Lemma at_most_two_viewers_witness :
  fst (run Scenario.linux Scenario.cli Scenario.env Scenario.no_dirs
         Scenario.worklist None Scenario.three_subjects)
    = take 26 (fst (run Scenario.linux Scenario.cli Scenario.env Scenario.no_dirs
                      Scenario.worklist None Scenario.three_subjects))
      ++ EvLaunch 2 "S3" "/data/S3/orig.mgz" "/data/S3/A.mgz" "/data/S3/B.mgz"
      :: drop 27 (fst (run Scenario.linux Scenario.cli Scenario.env Scenario.no_dirs
                         Scenario.worklist None Scenario.three_subjects)) /\
  EvTerm (darwin Scenario.linux) 0
    ∈ take 26 (fst (run Scenario.linux Scenario.cli Scenario.env Scenario.no_dirs
                      Scenario.worklist None Scenario.three_subjects)).
Proof.
  assert (fst (run Scenario.linux Scenario.cli Scenario.env Scenario.no_dirs
                 Scenario.worklist None Scenario.three_subjects)
          = take 26 (fst (run Scenario.linux Scenario.cli Scenario.env
                            Scenario.no_dirs Scenario.worklist None
                            Scenario.three_subjects))
            ++ EvLaunch 2 "S3" "/data/S3/orig.mgz" "/data/S3/A.mgz" "/data/S3/B.mgz"
            :: drop 27 (fst (run Scenario.linux Scenario.cli Scenario.env
                               Scenario.no_dirs Scenario.worklist None
                               Scenario.three_subjects))) as E
    by (vm_compute; reflexivity).
  split; [exact E|].
  exact (proj2 (at_most_two_viewers Scenario.linux Scenario.cli Scenario.env
                  Scenario.no_dirs Scenario.worklist None Scenario.three_subjects)
           _ 0 _ _ _ _ _ E).
Defined.



(** C3. Whenever a console read of a run delivers the stop command or an
    interrupt, at whatever question and for whatever subject: what follows
    is SIGTERM to the two processes held (the current one [p] and the
    prefetched one [p + 1], which are exactly the processes alive), a sleep
    of one second, and the end of the run with exit status 0; no process
    is left alive, no record of [p] is written, and the results file is
    what it was when the command was read. *)
Theorem stop_is_graceful w a env isdir diff_areas results console pre ps q rp post :
  fst (run w a env isdir diff_areas results console)
    = pre ++ EvInput ps q (Some rp) :: post ->
  is_stop rp = true ->
  post = stop_events (darwin w) ps /\
  snd (run w a env isdir diff_areas results console) = Exit 0 /\
  exists p,
    ps = [p; S p] /\ alive pre = [S p; p] /\
    alive (fst (run w a env isdir diff_areas results console)) = [] /\
    (p ∉ recorded (fst (run w a env isdir diff_areas results console))) /\
    appended (fst (run w a env isdir diff_areas results console)) = appended pre /\
    results_after results (fst (run w a env isdir diff_areas results console))
      = results_after results pre.
Proof.
  intros E Hstop.
  destruct (run_cases w a env isdir diff_areas results console)
    as [(Ht & Hne)|(u & rows & Hu & Hres & Hloop)].
  - rewrite Ht in E. now destruct pre.
  - destruct (loop_stop_read _ _ _ _ _ _ _ Hloop _ _ _ _ _ E Hstop)
      as (Hpost & Hexit & p & _ & Hps & Hpre & Hrec & Hall & Happ).
    split; [exact Hpost|]. split; [exact Hexit|].
    exists p. conjuncts.
    + exact Hps.
    + exact Hpre.
    + exact Hall.
    + rewrite Hrec, Nat.sub_0_r. intros Hin. apply elem_of_seq in Hin. lia.
    + exact Happ.
    + unfold results_after. now rewrite Happ.
Qed.

Lemma stop_is_graceful_witness :
  fst (run Scenario.linux Scenario.cli Scenario.env Scenario.no_dirs
         Scenario.worklist None [Line "1"; Line "x"; Line "stop"])
    = take 20 (fst (run Scenario.linux Scenario.cli Scenario.env Scenario.no_dirs
                      Scenario.worklist None [Line "1"; Line "x"; Line "stop"]))
      ++ (EvInput [0; 1] QConfidence (Some (Line "stop"))
          :: [EvTerm false 0; EvTerm false 1; EvSleep 1000]) /\
  is_stop (Line "stop") = true /\
  snd (run Scenario.linux Scenario.cli Scenario.env Scenario.no_dirs
         Scenario.worklist None [Line "1"; Line "x"; Line "stop"]) = Exit 0.
Proof.
  assert (fst (run Scenario.linux Scenario.cli Scenario.env Scenario.no_dirs
                 Scenario.worklist None [Line "1"; Line "x"; Line "stop"])
          = take 20 (fst (run Scenario.linux Scenario.cli Scenario.env
                            Scenario.no_dirs Scenario.worklist None
                            [Line "1"; Line "x"; Line "stop"]))
            ++ (EvInput [0; 1] QConfidence (Some (Line "stop"))
                :: [EvTerm false 0; EvTerm false 1; EvSleep 1000])) as E
    by (vm_compute; reflexivity).
  split; [exact E|]. split; [reflexivity|].
  exact (proj1 (proj2 (stop_is_graceful Scenario.linux Scenario.cli Scenario.env
                         Scenario.no_dirs Scenario.worklist None
                         [Line "1"; Line "x"; Line "stop"] _ _ _ _ _ E eq_refl))).
Defined.

(** *** Resuming *)

(** A text is found in a column exactly when the column holds that text. *)
Lemma isin_spec r labeled : isin r labeled = true <-> CText (ID r) ∈ labeled.
Proof.
  unfold isin. rewrite existsb_exists. split.
  - intros (x & Hx & E). destruct x as [s| | |]; try discriminate E.
    apply String.eqb_eq in E. subst s. now apply list_elem_of_In.
  - intros H. exists (CText (ID r)). split; [now apply list_elem_of_In|].
    apply String.eqb_refl.
Qed.

(** The filter keeps the rows whose identifier is not found, in the
    order of the table. *)
Lemma remove_labeled_spec labeled diff_areas r :
  r ∈ remove_labeled labeled diff_areas
  <-> r ∈ diff_areas /\ CText (ID r) ∉ labeled.
Proof.
  unfold remove_labeled. split.
  - intros H. apply list_elem_of_In, filter_In in H as (H1 & H2).
    split; [now apply list_elem_of_In|].
    intros Hin. apply isin_spec in Hin. rewrite Hin in H2. discriminate H2.
  - intros (H1 & H2). apply list_elem_of_In, filter_In.
    split; [now apply list_elem_of_In|].
    destruct (isin r labeled) eqn:E; [|reflexivity].
    apply isin_spec in E. contradiction.
Qed.

Lemma remove_labeled_sublist labeled diff_areas :
  remove_labeled labeled diff_areas `sublist_of` diff_areas.
Proof.
  unfold remove_labeled. induction diff_areas as [|r l IH]; cbn; [constructor|].
  destruct (negb (isin r labeled)); [now apply sublist_skip|now apply sublist_cons].
Qed.

(** C2, run on the example of the claim: the results file holds the
    record of "S1" and the table holds "S1", "S2", "S3". The filter leaves
    "S2" and "S3", in that order, and both windows are launched; but
    whatever the operator types, at most one record is appended, and with
    valid answers for every subject the run ends normally having asked
    about "S2" only (process 0) and having appended the record of "S2"
    only: "S3" is shown and never processed. *)
Theorem resumed_example_labels_only_S2 :
  resume Scenario.linux (Some Scenario.one_record) Scenario.worklist
    = Ok [Scenario.subject "S2" 128 128 128; Scenario.subject "S3" 60 70 80] /\
  (forall console,
     length (appended (fst (run Scenario.linux Scenario.cli Scenario.env
                              Scenario.no_dirs Scenario.worklist
                              (Some Scenario.one_record) console))) <= 1) /\
  snd (run Scenario.linux Scenario.cli Scenario.env Scenario.no_dirs
         Scenario.worklist (Some Scenario.one_record) Scenario.three_subjects)
    = Ok tt /\
  Cases.shown (fst (run Scenario.linux Scenario.cli Scenario.env Scenario.no_dirs
                      Scenario.worklist (Some Scenario.one_record)
                      Scenario.three_subjects)) = ["S2"; "S3"] /\
  answered (fst (run Scenario.linux Scenario.cli Scenario.env Scenario.no_dirs
                   Scenario.worklist (Some Scenario.one_record)
                   Scenario.three_subjects)) = [0] /\
  appended (fst (run Scenario.linux Scenario.cli Scenario.env Scenario.no_dirs
                   Scenario.worklist (Some Scenario.one_record)
                   Scenario.three_subjects))
    = [ "S2,B,A,B,certain,2,None,fine; but noisy,anna,7.0,12" +:+ newline ].
Proof.
  assert (resume Scenario.linux (Some Scenario.one_record) Scenario.worklist
          = Ok [Scenario.subject "S2" 128 128 128; Scenario.subject "S3" 60 70 80])
    as Hres by (vm_compute; reflexivity).
  split; [exact Hres|]. split.
  - intros console.
    exact (proj1 (run_leaves_last_row Scenario.linux Scenario.cli Scenario.env
                    Scenario.no_dirs Scenario.worklist (Some Scenario.one_record)
                    console _ Hres)).
  - conjuncts; vm_compute; reflexivity.
Qed.

(** *** The record line *)

Lemma record_line_join w r methods ans cmt u tm :
  record_line w r methods ans cmt u tm
  = Py.join "," (record_fields w r methods ans cmt u tm) +:+ newline.
Proof.
  unfold record_line, record_fields. rewrite !join_cons. cbn [Py.join].
  rewrite !append_assoc. reflexivity.
Qed.

Lemma select_no_comma (names : string * string) idx :
  Py.no_comma (fst names) -> Py.no_comma (snd names) ->
  Py.no_comma (fst (select names idx)) /\ Py.no_comma (snd (select names idx)).
Proof.
  intros H1 H2. unfold select, pick. destruct idx as [[|i] [|j]]; now split.
Qed.

(** The fields of a record have no comma when the identifier, the method
    names, the labeler and the formatted time have none. *)
Lemma record_fields_no_comma w r methods ans cmt u tm :
  Py.no_comma (ID r) -> Py.no_comma (fst methods) -> Py.no_comma (snd methods) ->
  Py.no_comma u -> Py.no_comma (str_float w tm) ->
  answers_of methods ans ->
  Forall Py.no_comma
    (record_fields w r methods ans (Py.replace "," ";" cmt) u tm).
Proof.
  intros Hid H1 H2 Hu Htm (Hb & Hc & _ & Hf). unfold record_fields.
  repeat constructor; try assumption.
  - destruct Hb as [->| ->]; assumption.
  - destruct Hc as [->|[->| ->]]; reflexivity.
  - apply str_int_no_comma.
  - destruct Hf as [->|[->|[->| ->]]]; try assumption; [reflexivity|].
    apply no_comma_append; [assumption|].
    apply no_comma_append; [reflexivity|assumption].
  - apply sanitized_no_comma.
  - apply str_int_no_comma.
Qed.

(** C5 as stated fails when another field holds a comma: with the
    labeler given as "Doe, John" the record of "S1" splits into twelve
    fields, although the comma of the comment was replaced. *)
Lemma comma_in_labeler_adds_a_field :
  exists line,
    appended (fst (run Scenario.linux (Scenario.cli_as "Doe, John") Scenario.env
                     Scenario.no_dirs Scenario.worklist None Scenario.one_subject))
      = [line] /\
    line = "S1,B,A,B,certain,2,None,fine; but noisy,Doe, John,7.0,12" +:+ newline /\
    length (Py.split "," line) = 12.
Proof.
  eexists. split; [vm_compute; reflexivity|]. split; vm_compute; reflexivity.
Qed.

(** C5, amended: provided the subject identifiers, the two method names,
    the labeler and the formatted elapsed time contain no comma, every
    record appended in a run is the comma-joined line of eleven fields
    followed by a newline, it splits on the comma into exactly these
    fields (identifier, method in slot 1, method in slot 2, best,
    confidence, difference strength, failure, comment, labeler, elapsed
    time, difference count), and its comment field is the comment read
    from the console with every comma replaced by a semicolon and nothing
    else changed. *)
Theorem sanitized_record_has_eleven_fields
  w a env isdir diff_areas results console u rows pre p line post :
  user a = Some u ->
  resume w results diff_areas = Ok rows ->
  Py.no_comma (met1 a) -> Py.no_comma (met2 a) -> Py.no_comma u ->
  (forall tm, Py.no_comma (str_float w tm)) ->
  Forall (fun r => Py.no_comma (ID r)) rows ->
  fst (run w a env isdir diff_areas results console)
    = pre ++ EvAppend p line :: post ->
  exists r methods ans cmt tm,
    rows !! p = Some r /\
    EvInput [p; S p] QComment (Some (Line cmt)) ∈ pre /\
    line = Py.join "," (record_fields w r methods ans (Py.replace "," ";" cmt) u tm)
           +:+ newline /\
    Py.split ","
      (Py.join "," (record_fields w r methods ans (Py.replace "," ";" cmt) u tm))
    = record_fields w r methods ans (Py.replace "," ";" cmt) u tm /\
    length (record_fields w r methods ans (Py.replace "," ";" cmt) u tm) = 11 /\
    Py.replace "," ";" cmt
    = Py.map_chars (fun c => if Ascii.eqb c "," then ";"%char else c) cmt /\
    Py.no_comma (Py.replace "," ";" cmt).
Proof.
  intros Hu Hres Hm1 Hm2 Hnu Htm Hrows E.
  destruct (run_loop w a env isdir diff_areas results console u rows Hu Hres)
    as [Ht|Hloop]; [rewrite Ht in E; now destruct pre|].
  destruct (loop_append_after _ _ _ _ _ _ _ Hloop _ _ _ _ E)
    as (_ & r & cmt & Hr & Hrec & Hin).
  destruct Hrec as (idx & ans & tm & Hidx & Hans & Hcmt & ->).
  exists r, (select (met1 a, met2 a) idx), ans, cmt, tm.
  destruct (select_no_comma (met1 a, met2 a) idx Hm1 Hm2) as (Hs1 & Hs2).
  assert (Py.no_comma (ID r)) as Hid
    by (eapply Forall_lookup_1 in Hrows; [exact Hrows|exact Hr]).
  conjuncts.
  - exact Hr.
  - exact Hin.
  - apply record_line_join.
  - apply (split_join ","%char); [discriminate|].
    now apply record_fields_no_comma.
  - reflexivity.
  - apply (replace_char "," ";").
  - apply sanitized_no_comma.
Qed.

Lemma sanitized_record_has_eleven_fields_witness :
  user Scenario.cli = Some "anna" /\
  resume Scenario.linux None Scenario.worklist = Ok Scenario.worklist /\
  Py.no_comma (met1 Scenario.cli) /\ Py.no_comma (met2 Scenario.cli) /\
  Py.no_comma "anna" /\
  (forall tm, Py.no_comma (str_float Scenario.linux tm)) /\
  Forall (fun r => Py.no_comma (ID r)) Scenario.worklist /\
  fst (run Scenario.linux Scenario.cli Scenario.env Scenario.no_dirs
         Scenario.worklist None Scenario.three_subjects)
    = take 25 (fst (run Scenario.linux Scenario.cli Scenario.env Scenario.no_dirs
                      Scenario.worklist None Scenario.three_subjects))
      ++ EvAppend 0 ("S1,B,A,B,certain,2,None,fine; but noisy,anna,7.0,12"
                     +:+ newline)
      :: drop 26 (fst (run Scenario.linux Scenario.cli Scenario.env
                         Scenario.no_dirs Scenario.worklist None
                         Scenario.three_subjects)) /\
  exists r methods ans cmt tm,
    Scenario.worklist !! 0 = Some r /\
    EvInput [0; 1] QComment (Some (Line cmt))
      ∈ take 25 (fst (run Scenario.linux Scenario.cli Scenario.env
                        Scenario.no_dirs Scenario.worklist None
                        Scenario.three_subjects)) /\
    "S1,B,A,B,certain,2,None,fine; but noisy,anna,7.0,12" +:+ newline
    = Py.join "," (record_fields Scenario.linux r methods ans
                     (Py.replace "," ";" cmt) "anna" tm) +:+ newline /\
    Py.split ","
      (Py.join "," (record_fields Scenario.linux r methods ans
                      (Py.replace "," ";" cmt) "anna" tm))
    = record_fields Scenario.linux r methods ans (Py.replace "," ";" cmt) "anna" tm /\
    length (record_fields Scenario.linux r methods ans
              (Py.replace "," ";" cmt) "anna" tm) = 11 /\
    Py.replace "," ";" cmt
    = Py.map_chars (fun c => if Ascii.eqb c "," then ";"%char else c) cmt /\
    Py.no_comma (Py.replace "," ";" cmt).
Proof.
  assert (forall tm, Py.no_comma (str_float Scenario.linux tm)) as Htm
    by (intros tm; reflexivity).
  assert (Forall (fun r => Py.no_comma (ID r)) Scenario.worklist) as Hrows
    by (repeat constructor).
  assert (fst (run Scenario.linux Scenario.cli Scenario.env Scenario.no_dirs
                 Scenario.worklist None Scenario.three_subjects)
          = take 25 (fst (run Scenario.linux Scenario.cli Scenario.env
                            Scenario.no_dirs Scenario.worklist None
                            Scenario.three_subjects))
            ++ EvAppend 0 ("S1,B,A,B,certain,2,None,fine; but noisy,anna,7.0,12"
                           +:+ newline)
            :: drop 26 (fst (run Scenario.linux Scenario.cli Scenario.env
                               Scenario.no_dirs Scenario.worklist None
                               Scenario.three_subjects))) as E
    by (vm_compute; reflexivity).
  split; [reflexivity|]. split; [reflexivity|]. split; [reflexivity|].
  split; [reflexivity|]. split; [reflexivity|]. split; [exact Htm|].
  split; [exact Hrows|]. split; [exact E|].
  exact (sanitized_record_has_eleven_fields Scenario.linux Scenario.cli
           Scenario.env Scenario.no_dirs Scenario.worklist None
           Scenario.three_subjects "anna" Scenario.worklist _ 0 _ _
           eq_refl eq_refl eq_refl eq_refl eq_refl Htm Hrows E).
Defined.

(** *** The configuration preamble *)

(** Whatever directories exist, the install root is the value of the
    environment variable or nothing: the well-known locations are never
    tried, and with [--fs] given the variable [freesurfer_path] stays
    unassigned. *)
Lemma resolve_freesurfer_cases a env isdir :
  resolve_freesurfer a env isdir =
  match fs a, env !! "FREESURFER_HOME" with
  | Some _, _ => Ok None
  | None, Some v => Ok (Some v)
  | None, None => Raise (KeyError "FREESURFER_HOME")
  end.
Proof.
  unfold resolve_freesurfer. destruct (fs a); [reflexivity|].
  now destruct (env !! "FREESURFER_HOME").
Qed.

(** C9, evaluated without [--fs], with the environment variable unset
    and the install location "/Applications/freesurfer/7.1.1" present:
    the lookup [os.environ["FREESURFER_HOME"]] raises [KeyError] and the
    run ends there, before any window is launched; the well-known
    locations are not consulted. With [--fs] given, [freesurfer_path] is
    never assigned and the first launch raises [NameError]. *)
Theorem known_locations_are_never_tried :
  Scenario.only_applications "/Applications/freesurfer/7.1.1" = true /\
  resolve_freesurfer Scenario.cli ∅ Scenario.only_applications
    = Raise (KeyError "FREESURFER_HOME") /\
  run Scenario.linux Scenario.cli ∅ Scenario.only_applications
    Scenario.worklist None Scenario.three_subjects
    = ([], Raise (KeyError "FREESURFER_HOME")) /\
  (forall a env isdir,
     resolve_freesurfer a env isdir =
     match fs a, env !! "FREESURFER_HOME" with
     | Some _, _ => Ok None
     | None, Some v => Ok (Some v)
     | None, None => Raise (KeyError "FREESURFER_HOME")
     end) /\
  run Scenario.linux Scenario.cli_fs Scenario.env Scenario.no_dirs
    Scenario.worklist None Scenario.three_subjects
    = ([], Raise (NameError "freesurfer_path")).
Proof.
  conjuncts; first [exact resolve_freesurfer_cases | vm_compute; reflexivity].
Qed.

End RunFacts.

(** ** Edge and error behaviour *)
Module EdgeFacts.
Import Console Session Cases ConsoleFacts SessionFacts.

(** *** Helpers *)

Lemma row_pairs_cons r r' rest :
  row_pairs (r :: r' :: rest) = (r, r') :: row_pairs (r' :: rest).
Proof.
  unfold row_pairs. cbn [length Nat.sub drop take zip zip_with].
  now rewrite Nat.sub_0_r.
Qed.

(** When the first window cannot be opened, the run ends with the
    exception of [open_window] and an empty trace. *)
Lemma first_window_fails w a env isdir diff_areas results console
  fsp u r r' rest e :
  resolve_freesurfer a env isdir = Ok fsp ->
  user a = Some u ->
  resume w results diff_areas = Ok (r :: r' :: rest) ->
  open_window w a fsp r (0, 1) (start console) = ([], Raise e) ->
  run w a env isdir diff_areas results console = ([], Raise e).
Proof.
  intros Hfs Hu Hres Hwin. unfold run, main.
  rewrite Hfs, bind_lift_ok. unfold check_user. rewrite Hu, bind_lift_ok.
  rewrite Hres, bind_lift_ok, row_pairs_cons.
  erewrite bind_raise; [reflexivity|].
  cbn [session_loop]. apply bind_raise. unfold iteration. apply bind_raise.
  unfold prefetch. cbn [p_next initially]. apply bind_raise. exact Hwin.
Qed.

Lemma asked_not_eof ps asks :
  Forall (asked ps) asks -> Forall (fun x => is_eof_input x = false) asks.
Proof.
  intros H. eapply Forall_impl; [exact H|].
  now intros e (q & l & -> & _).
Qed.

(** A console read that meets the end of the input is the last event of
    the loop: the loop ends with [EOFError] while the two processes held
    are alive. *)
Lemma loop_eof_read w a u rows k t res :
  loop_trace w a u rows k t res ->
  forall pre ps q post,
    t = pre ++ EvInput ps q None :: post ->
    post = [] /\ res = Raise EOFError /\
    exists p, k <= p /\ ps = [p; S p] /\
      alive_from (head_live k) t = [S p; p] /\
      recorded t = seq k (p - k).
Proof.
  induction 1 as [k Hlen
                 |k r r_next t0 asks cmt line0 t res Hr Hr' Hopen Hasks Ha Hcmt Hrec _ IH
                 |k r r_next t0 asks q0 rp0 Hr Hr' Hopen Hasks Ha Hrp
                 |k r r_next t0 asks q0 Hr Hr' Hopen Hasks Ha
                 |k r r_next t0 e Hr Hr' Hb];
    intros pre ps q post E;
    assert (is_eof_input (EvInput ps q None) = true) as Hf by reflexivity.
  - now destruct pre.
  - destruct (chunk_read w k r r_next t0 asks line0 Hopen Hasks Ha)
      as (C1 & C2 & C3 & C4 & C5).
    apply (peel is_eof_input) in E as (pre0 & -> & E);
      [|eapply opening_fails; [..|eassumption]; no_kind|assumption].
    apply (peel is_eof_input) in E as (pre1 & -> & E);
      [|apply quiet_fails; [..|apply reveal_quiet]; no_kind|assumption].
    apply (peel is_eof_input) in E as (pre2 & -> & E);
      [|eapply asked_not_eof; eassumption|assumption].
    apply (peel is_eof_input) in E as (pre3 & -> & E);
      [|apply terminate_fails; no_kind|assumption].
    destruct pre3 as [|x pre3]; cbn in E; [discriminate E|].
    injection E as <- E.
    destruct (IH _ _ _ _ E) as (-> & -> & p & Hp & -> & I1 & I2).
    split; [reflexivity|]. split; [reflexivity|].
    exists p. split; [lia|]. split; [reflexivity|].
    rewrite (chunk_split t0 _ _ _ _ t).
    set (chunk := t0 ++ reveal_events w k ++ asks ++ terminate_events w k
                    ++ [EvAppend k line0]) in *.
    rewrite recorded_app, alive_from_app, C1, C5. split.
    + exact I1.
    + rewrite I2. replace (p - k) with (S (p - S k)) by lia. reflexivity.
  - apply (peel is_eof_input) in E as (pre0 & -> & E);
      [|eapply opening_fails; [..|eassumption]; no_kind|assumption].
    apply (peel is_eof_input) in E as (pre1 & -> & E);
      [|apply quiet_fails; [..|apply reveal_quiet]; no_kind|assumption].
    apply (peel is_eof_input) in E as (pre2 & -> & E);
      [|eapply asked_not_eof; eassumption|assumption].
    destruct pre2 as [|x pre2]; cbn [app] in E; [discriminate E|].
    injection E as _ E. exfalso.
    apply (fun H => absent is_eof_input _ _ _ _ H Hf E).
    apply stop_fails; no_kind.
  - destruct (opening_read _ _ _ _ _ Hopen) as (O1 & O2 & O3 & O4 & O5).
    destruct (quiet_silent _ (reveal_quiet w k)) as (R1 & R2 & R3 & R4 & R5).
    destruct (asked_silent _ _ Hasks) as (A1 & A2 & A3 & A4).
    pose proof E as E'.
    apply (peel is_eof_input) in E as (pre0 & -> & E);
      [|eapply opening_fails; [..|eassumption]; no_kind|assumption].
    apply (peel is_eof_input) in E as (pre1 & -> & E);
      [|apply quiet_fails; [..|apply reveal_quiet]; no_kind|assumption].
    apply (peel is_eof_input) in E as (pre2 & -> & E);
      [|eapply asked_not_eof; eassumption|assumption].
    destruct pre2 as [|x pre2]; cbn [app] in E.
    + injection E as <- <- <-.
      split; [reflexivity|]. split; [reflexivity|].
      exists k. split; [lia|]. split; [reflexivity|].
      rewrite !recorded_app, !alive_from_app, O1, O5, R1, R5, A1, A4.
      rewrite Nat.sub_diag. split; reflexivity.
    + injection E as _ E. now destruct pre2.
  - exfalso. apply (fun H => absent is_eof_input _ _ _ _ H Hf E).
    eapply broken_fails; [..|eassumption]; no_kind.
Qed.

(** After a loop that ends normally the process alive is the one
    prefetched by the last iteration. *)
Lemma loop_completes w a u rows k t res :
  loop_trace w a u rows k t res ->
  res = Ok tt ->
  alive_from (head_live k) t = head_live (k + length (recorded t)).
Proof.
  induction 1 as [k Hlen
                 |k r r_next t0 asks cmt line0 t res Hr Hr' Hopen Hasks Ha Hcmt Hrec _ IH
                 |k r r_next t0 asks q0 rp0 Hr Hr' Hopen Hasks Ha Hrp
                 |k r r_next t0 asks q0 Hr Hr' Hopen Hasks Ha
                 |k r r_next t0 e Hr Hr' Hb]; intros Hok; try discriminate Hok.
  - cbn. now rewrite Nat.add_0_r.
  - destruct (chunk_read w k r r_next t0 asks line0 Hopen Hasks Ha)
      as (C1 & C2 & C3 & C4 & C5).
    rewrite (chunk_split t0 _ _ _ _ t).
    set (chunk := t0 ++ reveal_events w k ++ asks ++ terminate_events w k
                    ++ [EvAppend k line0]) in *.
    rewrite recorded_app, alive_from_app, C1, C5.
    change (alive_from [S k] t) with (alive_from (head_live (S k)) t).
    rewrite (IH Hok). cbn [length app]. f_equal. lia.
Qed.

Lemma select_order (names : string * string) idx :
  is_order idx ->
  select names idx = names \/ select names idx = (snd names, fst names).
Proof. destruct names. intros [->| ->]; [now left|now right]. Qed.

Lemma record_starts_with_ID w a u r cmt line :
  record_of w a u r cmt line -> exists rest, line = ID r +:+ "," +:+ rest.
Proof. intros (idx & ans & tm & _ & _ & _ & ->). eexists. reflexivity. Qed.

Lemma isin_numbers r cells :
  Forall (fun c => forall s, c <> CText s) cells -> isin r cells = false.
Proof.
  unfold isin. induction 1 as [|c cells Hc _ IH]; [reflexivity|].
  cbn [existsb]. rewrite IH.
  destruct c as [s| | |]; try reflexivity. now destruct (Hc s).
Qed.

Lemma remove_labeled_numbers cells diff_areas :
  Forall (fun c => forall s, c <> CText s) cells ->
  remove_labeled cells diff_areas = diff_areas.
Proof.
  intros H. unfold remove_labeled.
  induction diff_areas as [|r l IH]; [reflexivity|].
  cbn [List.filter]. now rewrite (isin_numbers r cells H), IH.
Qed.

(** *** The question sequence *)

(** X1. What [question_loop] returns: the preferred segmentation is one
    of the two slot methods, the confidence one of the three words, the
    strength an integer from 0 to 3, the failure "None", one of the two
    methods or both joined by "+"; the comment is the line read at the
    comment question; and every console read of the call was answered by a
    line other than the stop command. *)
Theorem question_loop_returns_documented_values darwin ps methods s t ans s' :
  question_loop darwin ps methods s = (t, Ok (ans, s')) ->
  (best ans = fst methods \/ best ans = snd methods) /\
  (confidence ans = "random" \/ confidence ans = "uncertain" \/
   confidence ans = "certain") /\
  (0 <= difference_strength ans <= 3)%Z /\
  (fail ans = "None" \/ fail ans = fst methods \/ fail ans = snd methods \/
   fail ans = fst methods +:+ "+" +:+ snd methods) /\
  EvInput ps QComment (Some (Line (comment ans))) ∈ t /\
  Forall (asked ps) t.
Proof.
  intros E.
  destruct (question_loop_shape darwin ps methods s)
    as (asks & Hasks & [(ans' & rest & Ho & _ & Hans & Hc)
                       |[(q & rp & _ & Ho & _)|(q & Ho & _)]]);
    rewrite E in Ho; try discriminate Ho.
  injection Ho as -> -> _.
  destruct Hans as (H1 & H2 & H3 & H4). now conjuncts.
Qed.

Lemma question_loop_returns_documented_values_witness :
  question_loop false [0; 1] ("B", "A") (start Scenario.one_subject)
    = ([EvInput [0; 1] QBest (Some (Line "1"));
        EvInput [0; 1] QConfidence (Some (Line "3"));
        EvInput [0; 1] QStrength (Some (Line "2"));
        EvInput [0; 1] QFail (Some (Line "0"));
        EvInput [0; 1] QComment (Some (Line "fine, but noisy"))],
       Ok ({| best := "B"; confidence := "certain"; difference_strength := 2;
              fail := "None"; comment := "fine, but noisy" |}, start [])) /\
  (0 <= 2 <= 3)%Z.
Proof.
  split; [reflexivity|].
  exact (proj1 (proj2 (proj2
    (question_loop_returns_documented_values false [0; 1] ("B", "A")
       (start Scenario.one_subject) _ _ _ eq_refl)))).
Defined.

(** X2. [question_loop] ends in one of three ways only: it returns, it
    exits with status 0 (through [stop_labeling]), or it raises [EOFError]
    at the end of the console input. In particular the [raise ValueError]
    branches inside the loops are never taken. *)
Theorem question_loop_ends_in_three_ways darwin ps methods s :
  (exists ans s', snd (question_loop darwin ps methods s) = Ok (ans, s')) \/
  snd (question_loop darwin ps methods s) = Exit 0 \/
  snd (question_loop darwin ps methods s) = Raise EOFError.
Proof.
  destruct (question_loop_shape darwin ps methods s)
    as (asks & Hasks & [(ans' & rest & Ho & _)
                       |[(q & rp & _ & Ho & _)|(q & Ho & _)]]); rewrite Ho.
  - left. now eexists _, _.
  - right. now left.
  - right. now right.
Qed.

(** *** Before the first window *)

(** X4. Without a labeler name the run exits with status 1 before it
    reads the input table or launches anything, whenever the FreeSurfer
    location resolved. *)
Theorem missing_labeler_exits_before_any_launch
  w a env isdir diff_areas results console fsp :
  resolve_freesurfer a env isdir = Ok fsp ->
  user a = None ->
  run w a env isdir diff_areas results console = ([], Exit 1).
Proof.
  intros Hfs Hu. unfold run, main. rewrite Hfs, bind_lift_ok.
  unfold check_user. now rewrite Hu.
Qed.

Lemma missing_labeler_exits_before_any_launch_witness :
  resolve_freesurfer cli_nobody Scenario.env Scenario.no_dirs
    = Ok (Some "/opt/freesurfer") /\
  user cli_nobody = None /\
  run Scenario.linux cli_nobody Scenario.env Scenario.no_dirs
    Scenario.worklist None Scenario.three_subjects = ([], Exit 1).
Proof.
  assert (resolve_freesurfer cli_nobody Scenario.env Scenario.no_dirs
            = Ok (Some "/opt/freesurfer")) as H by (vm_compute; reflexivity).
  split; [exact H|]. split; [reflexivity|].
  exact (missing_labeler_exits_before_any_launch Scenario.linux cli_nobody
           Scenario.env Scenario.no_dirs Scenario.worklist None
           Scenario.three_subjects _ H eq_refl).
Defined.

(** X5. With [--fs] given the global [freesurfer_path] is never
    assigned: as soon as there are two rows to work on, the first call of
    [run_freeview] raises [NameError] and nothing is launched. *)
Theorem fs_option_leaves_path_unbound
  w a env isdir diff_areas results console path u r r' rest f1 f2 :
  fs a = Some path ->
  user a = Some u ->
  resume w results diff_areas = Ok (r :: r' :: rest) ->
  seg r !! met1 a = Some f1 ->
  seg r !! met2 a = Some f2 ->
  run w a env isdir diff_areas results console
    = ([], Raise (NameError "freesurfer_path")).
Proof.
  intros Hfs Hu Hres H1 H2.
  apply (first_window_fails w a env isdir diff_areas results console
           None u r r' rest); try assumption.
  - unfold resolve_freesurfer. now rewrite Hfs.
  - unfold open_window, bind, shuffle, lift, getitem, global.
    rewrite H1, H2. reflexivity.
Qed.

Lemma fs_option_leaves_path_unbound_witness :
  fs Scenario.cli_fs = Some "/opt/freesurfer" /\
  user Scenario.cli_fs = Some "anna" /\
  run Scenario.linux Scenario.cli_fs Scenario.env Scenario.no_dirs
    Scenario.worklist None Scenario.three_subjects
    = ([], Raise (NameError "freesurfer_path")).
Proof.
  split; [reflexivity|]. split; [reflexivity|].
  apply (fs_option_leaves_path_unbound Scenario.linux Scenario.cli_fs
           Scenario.env Scenario.no_dirs Scenario.worklist None
           Scenario.three_subjects "/opt/freesurfer" "anna"
           (Scenario.subject "S1" 100 120 90) (Scenario.subject "S2" 128 128 128)
           [Scenario.subject "S3" 60 70 80]
           "/data/S1/A.mgz" "/data/S1/B.mgz");
    vm_compute; reflexivity.
Defined.

(** X8. When the first row to work on has no column named after the
    first method, the run raises [KeyError] for that name before anything
    is launched. *)
Theorem missing_method_column_is_fatal
  w a env isdir diff_areas results console fsp u r r' rest :
  resolve_freesurfer a env isdir = Ok fsp ->
  user a = Some u ->
  resume w results diff_areas = Ok (r :: r' :: rest) ->
  seg r !! met1 a = None ->
  run w a env isdir diff_areas results console
    = ([], Raise (KeyError (met1 a))).
Proof.
  intros Hfs Hu Hres H1.
  apply (first_window_fails w a env isdir diff_areas results console
           fsp u r r' rest); try assumption.
  unfold open_window, bind, shuffle, lift, getitem. rewrite H1. reflexivity.
Qed.

Lemma missing_method_column_is_fatal_witness :
  user cli_other = Some "anna" /\
  seg (Scenario.subject "S1" 100 120 90) !! met1 cli_other = None /\
  run Scenario.linux cli_other Scenario.env Scenario.no_dirs
    Scenario.worklist None Scenario.three_subjects
    = ([], Raise (KeyError "C")).
Proof.
  split; [reflexivity|]. split; [vm_compute; reflexivity|].
  apply (missing_method_column_is_fatal Scenario.linux cli_other
           Scenario.env Scenario.no_dirs Scenario.worklist None
           Scenario.three_subjects (Some "/opt/freesurfer") "anna"
           (Scenario.subject "S1" 100 120 90) (Scenario.subject "S2" 128 128 128)
           [Scenario.subject "S3" 60 70 80]);
    vm_compute; reflexivity.
Defined.

(** X9. A row whose first coordinate is missing (NaN in the table)
    stops the run at its window: [int()] raises [ValueError] after the
    image was loaded and before the viewer is started. For the first row
    nothing at all is launched. *)
Theorem nan_coordinate_is_fatal
  w a env isdir diff_areas results console path u r r' rest f1 f2 sh :
  resolve_freesurfer a env isdir = Ok (Some path) ->
  user a = Some u ->
  resume w results diff_areas = Ok (r :: r' :: rest) ->
  seg r !! met1 a = Some f1 ->
  seg r !! met2 a = Some f2 ->
  nib_load w (adapt_path w (image r)) = Some sh ->
  x1 r = Py.Nan ->
  run w a env isdir diff_areas results console = ([], Raise ValueError).
Proof.
  intros Hfs Hu Hres H1 H2 Hload Hnan.
  apply (first_window_fails w a env isdir diff_areas results console
           (Some path) u r r' rest); try assumption.
  unfold open_window, bind, shuffle, lift, getitem, global, run_freeview.
  rewrite H1, H2. cbn. unfold bind, lift. rewrite Hload. cbn.
  unfold Mask.build_mask, Mask.int_center. rewrite Hnan. reflexivity.
Qed.

Lemma nan_coordinate_is_fatal_witness :
  user Scenario.cli = Some "anna" /\
  x1 (blank "S0") = Py.Nan /\
  run Scenario.linux Scenario.cli Scenario.env Scenario.no_dirs
    (blank "S0" :: Scenario.worklist) None Scenario.three_subjects
    = ([], Raise ValueError).
Proof.
  split; [reflexivity|]. split; [reflexivity|].
  apply (nan_coordinate_is_fatal Scenario.linux Scenario.cli
           Scenario.env Scenario.no_dirs (blank "S0" :: Scenario.worklist) None
           Scenario.three_subjects "/opt/freesurfer" "anna"
           (blank "S0") (Scenario.subject "S1" 100 120 90)
           [Scenario.subject "S2" 128 128 128; Scenario.subject "S3" 60 70 80]
           "/data/S0/A.mgz" "/data/S0/B.mgz" (256, 256, 256)%Z);
    vm_compute; reflexivity.
Defined.

(** X10. With fewer than two rows left to work on the run does nothing:
    no window, no question, no record, and it ends normally. A single
    remaining subject is never shown. *)
Theorem fewer_than_two_rows_is_a_no_op
  w a env isdir diff_areas results console fsp u rows :
  resolve_freesurfer a env isdir = Ok fsp ->
  user a = Some u ->
  resume w results diff_areas = Ok rows ->
  length rows <= 1 ->
  run w a env isdir diff_areas results console = ([], Ok tt).
Proof.
  intros Hfs Hu Hres Hlen. unfold run, main.
  rewrite Hfs, bind_lift_ok. unfold check_user. rewrite Hu, bind_lift_ok.
  rewrite Hres, bind_lift_ok.
  destruct rows as [|r [|r' rest]]; [reflexivity|reflexivity|].
  cbn in Hlen. lia.
Qed.

Lemma fewer_than_two_rows_is_a_no_op_witness :
  user Scenario.cli = Some "anna" /\
  length [Scenario.subject "S1" 100 120 90] <= 1 /\
  run Scenario.linux Scenario.cli Scenario.env Scenario.no_dirs
    [Scenario.subject "S1" 100 120 90] None Scenario.three_subjects
    = ([], Ok tt).
Proof.
  split; [reflexivity|]. split; [cbn; lia|].
  apply (fewer_than_two_rows_is_a_no_op Scenario.linux Scenario.cli
           Scenario.env Scenario.no_dirs [Scenario.subject "S1" 100 120 90] None
           Scenario.three_subjects (Some "/opt/freesurfer") "anna"
           [Scenario.subject "S1" 100 120 90]);
    [vm_compute; reflexivity|reflexivity|reflexivity|cbn; lia].
Defined.

(** *** One window *)

(** X11. The block that opens a window keeps files and names together:
    the segmentation shown first is the row's file for the method it
    returns for slot 1, the one shown second that for slot 2, whatever the
    shuffle did. *)
Theorem slot_files_follow_slot_methods w a fsp r idx s t p slots idx' s' :
  open_window w a fsp r idx s = (t, Ok ((p, slots, idx'), s')) ->
  exists f1 f2,
    getitem r (fst slots) = Ok f1 /\ getitem r (snd slots) = Ok f2 /\
    t = window_events w p (subject_id r) (adapt_path w (image r))
          (adapt_path w f1) (adapt_path w f2).
Proof.
  unfold open_window, bind, shuffle, lift, getitem, global, run_freeview.
  destruct (seg r !! met1 a) as [g1|] eqn:H1; [|discriminate].
  destruct (seg r !! met2 a) as [g2|] eqn:H2; [|discriminate].
  destruct fsp as [path|]; [|discriminate].
  cbn. unfold bind, lift.
  destruct (nib_load w (adapt_path w (image r))) as [sh|]; [|discriminate].
  cbn. destruct (Mask.build_mask sh (x1 r, y1 r, z1 r)) as [m|e|c];
    [|discriminate..].
  cbn. destruct (staging w _ _ _) as [e|]; [discriminate|].
  cbn. unfold popen, emit, when, ret, window_events.
  set (i := Py.shuffle2 (randbelow_is_zero w (draws s)) idx).
  destruct (xdotool_installed w); cbn; intros E; injection E as <- <- <- <- _;
    destruct i as [[|i0] [|i1]]; cbn [select pick fst snd];
    rewrite ?H1, ?H2; eexists _, _; conjuncts; reflexivity.
Qed.

Lemma slot_files_follow_slot_methods_witness :
  open_window Scenario.linux Scenario.cli (Some "/opt/freesurfer")
    (Scenario.subject "S1" 100 120 90) (0, 1) (start [])
  = ([EvLaunch 0 "S1" "/data/S1/orig.mgz" "/data/S1/B.mgz" "/data/S1/A.mgz";
      EvSleep 1000; EvXdo WindowUnmap 0],
     Ok ((0, ("B", "A"), (1, 0)),
         {| inputs := []; next_pid := 1; draws := 1; ticks := 0 |})) /\
  exists f1 f2,
    getitem (Scenario.subject "S1" 100 120 90) "B" = Ok f1 /\
    getitem (Scenario.subject "S1" 100 120 90) "A" = Ok f2 /\
    [EvLaunch 0 "S1" "/data/S1/orig.mgz" "/data/S1/B.mgz" "/data/S1/A.mgz";
     EvSleep 1000; EvXdo WindowUnmap 0]
    = window_events Scenario.linux 0 "S1" "/data/S1/orig.mgz" f1 f2.
Proof.
  assert (open_window Scenario.linux Scenario.cli (Some "/opt/freesurfer")
            (Scenario.subject "S1" 100 120 90) (0, 1) (start [])
          = ([EvLaunch 0 "S1" "/data/S1/orig.mgz" "/data/S1/B.mgz" "/data/S1/A.mgz";
              EvSleep 1000; EvXdo WindowUnmap 0],
             Ok ((0, ("B", "A"), (1, 0)),
                 {| inputs := []; next_pid := 1; draws := 1; ticks := 0 |})))
    as H by (vm_compute; reflexivity).
  split; [exact H|].
  exact (slot_files_follow_slot_methods _ _ _ _ _ _ _ _ _ _ _ H).
Defined.

(** X6. When every component of the center is at least 20, the mask
    is built without error and, inside the volume, it is zero exactly at
    the voxels of the cube of 40 voxels per side around the center and one
    elsewhere; a cube that reaches beyond an upper face is cut there. *)
Theorem mask_is_the_cube_away_from_lower_faces sh center c :
  Mask.int_center center = Ok c ->
  (forall a, (20 <= Mask.comp a c)%Z) ->
  exists m, Mask.build_mask sh center = Ok m /\
    forall v, Mask.in_shape sh v -> Mask.item m v = Mask.cube_mask c v.
Proof. exact (MaskFacts.build_mask_clear sh center c). Qed.

Lemma mask_is_the_cube_away_from_lower_faces_witness :
  Mask.int_center (Mask.center_of 250 128 20) = Ok (250, 128, 20)%Z /\
  exists m,
    Mask.build_mask (256, 256, 256)%Z (Mask.center_of 250 128 20) = Ok m /\
    forall v, Mask.in_shape (256, 256, 256)%Z v ->
              Mask.item m v = Mask.cube_mask (250, 128, 20)%Z v.
Proof.
  split; [reflexivity|].
  apply (mask_is_the_cube_away_from_lower_faces (256, 256, 256)%Z
           (Mask.center_of 250 128 20) (250, 128, 20)%Z eq_refl).
  intros []; cbn; lia.
Defined.

(** *** Whole runs *)

(** X3. The records of a run are those of the first [n] rows left by
    the resume filter, one each and in order, and [n] is at most the
    number of those rows minus one: the last row is never recorded. A run
    that ends normally has recorded all rows but the last. *)
Theorem last_row_is_never_recorded
  w a env isdir diff_areas results console rows :
  resume w results diff_areas = Ok rows ->
  exists n,
    recorded (fst (run w a env isdir diff_areas results console)) = seq 0 n /\
    length (appended (fst (run w a env isdir diff_areas results console))) = n /\
    n <= length rows - 1 /\
    (snd (run w a env isdir diff_areas results console) = Ok tt ->
     n = length rows - 1).
Proof.
  intros Hres.
  destruct (run_cases w a env isdir diff_areas results console)
    as [(Ht & Hne)|(u & rows' & Hu & Hres' & Hloop)].
  - exists 0. rewrite Ht. cbn. conjuncts; try reflexivity; [lia|].
    intros E. now destruct Hne.
  - rewrite Hres in Hres'. injection Hres' as <-.
    destruct (loop_records _ _ _ _ _ _ _ Hloop) as (n & Hr & _ & Hn & Hb & Hok).
    exists n. conjuncts; try assumption; [lia|].
    intros E. specialize (Hok E). lia.
Qed.

Lemma last_row_is_never_recorded_witness :
  resume Scenario.linux None Scenario.worklist = Ok Scenario.worklist /\
  exists n,
    recorded (fst (run Scenario.linux Scenario.cli Scenario.env Scenario.no_dirs
                     Scenario.worklist None Scenario.three_subjects)) = seq 0 n /\
    n <= 2.
Proof.
  split; [reflexivity|].
  destruct (last_row_is_never_recorded Scenario.linux Scenario.cli Scenario.env
              Scenario.no_dirs Scenario.worklist None Scenario.three_subjects
              Scenario.worklist eq_refl) as (n & H1 & _ & H2 & _).
  exists n. split; [exact H1|exact H2].
Defined.

(** X12. A run over at least two rows that ends normally has recorded
    every row but the last and leaves exactly one viewer running: the
    window prefetched for the last row is never sent SIGTERM. *)
Theorem completed_run_leaves_last_viewer
  w a env isdir diff_areas results console rows :
  resume w results diff_areas = Ok rows ->
  2 <= length rows ->
  snd (run w a env isdir diff_areas results console) = Ok tt ->
  recorded (fst (run w a env isdir diff_areas results console))
    = seq 0 (length rows - 1) /\
  alive (fst (run w a env isdir diff_areas results console))
    = [length rows - 1].
Proof.
  intros Hres Hlen Hok.
  destruct (run_cases w a env isdir diff_areas results console)
    as [(Ht & Hne)|(u & rows' & Hu & Hres' & Hloop)]; [now destruct Hne|].
  rewrite Hres in Hres'. injection Hres' as <-.
  destruct (loop_records _ _ _ _ _ _ _ Hloop) as (n & Hr & _ & _ & Hb & Hn).
  specialize (Hn Hok).
  assert (n = length rows - 1) as -> by lia.
  split; [exact Hr|].
  unfold alive. change [] with (head_live 0).
  rewrite (loop_completes _ _ _ _ _ _ _ Hloop Hok), Hr, length_seq.
  cbn [Nat.add]. destruct (length rows - 1) eqn:E; [lia|reflexivity].
Qed.

Lemma completed_run_leaves_last_viewer_witness :
  resume Scenario.linux None Scenario.worklist = Ok Scenario.worklist /\
  2 <= length Scenario.worklist /\
  snd (run Scenario.linux Scenario.cli Scenario.env Scenario.no_dirs
         Scenario.worklist None two_subjects) = Ok tt /\
  alive (fst (run Scenario.linux Scenario.cli Scenario.env Scenario.no_dirs
                Scenario.worklist None two_subjects)) = [2].
Proof.
  assert (snd (run Scenario.linux Scenario.cli Scenario.env Scenario.no_dirs
                 Scenario.worklist None two_subjects) = Ok tt) as H
    by (vm_compute; reflexivity).
  assert (2 <= length Scenario.worklist) as Hlen by (cbn; lia).
  split; [reflexivity|]. split; [exact Hlen|]. split; [exact H|].
  exact (proj2 (completed_run_leaves_last_viewer Scenario.linux Scenario.cli
                  Scenario.env Scenario.no_dirs Scenario.worklist None
                  two_subjects Scenario.worklist eq_refl Hlen H)).
Defined.

(** X7. When the console input ends at a question, that read is the
    last event of the run, which dies with [EOFError]: [stop_labeling] is
    not called, so the two viewers held stay alive, and the subject in
    progress gets no record. *)
Theorem end_of_input_leaves_viewers_running
  w a env isdir diff_areas results console pre ps q post :
  fst (run w a env isdir diff_areas results console)
    = pre ++ EvInput ps q None :: post ->
  post = [] /\
  snd (run w a env isdir diff_areas results console) = Raise EOFError /\
  exists p, ps = [p; S p] /\
    alive (fst (run w a env isdir diff_areas results console)) = [S p; p] /\
    recorded (fst (run w a env isdir diff_areas results console)) = seq 0 p.
Proof.
  intros E.
  destruct (run_cases w a env isdir diff_areas results console)
    as [(Ht & Hne)|(u & rows' & Hu & Hres' & Hloop)].
  - rewrite Ht in E. now destruct pre.
  - destruct (loop_eof_read _ _ _ _ _ _ _ Hloop _ _ _ _ E)
      as (-> & Hres & p & _ & -> & H1 & H2).
    split; [reflexivity|]. split; [exact Hres|].
    exists p. split; [reflexivity|]. split; [exact H1|].
    now rewrite H2, Nat.sub_0_r.
Qed.

Lemma end_of_input_leaves_viewers_running_witness :
  fst (run Scenario.linux Scenario.cli Scenario.env Scenario.no_dirs
         Scenario.worklist None [Line "1"])
    = (firstn 19 (fst (run Scenario.linux Scenario.cli Scenario.env
                         Scenario.no_dirs Scenario.worklist None [Line "1"])))
        ++ EvInput [0; 1] QConfidence None :: [] /\
  snd (run Scenario.linux Scenario.cli Scenario.env Scenario.no_dirs
         Scenario.worklist None [Line "1"]) = Raise EOFError.
Proof.
  assert (fst (run Scenario.linux Scenario.cli Scenario.env Scenario.no_dirs
                 Scenario.worklist None [Line "1"])
          = (firstn 19 (fst (run Scenario.linux Scenario.cli Scenario.env
                               Scenario.no_dirs Scenario.worklist None [Line "1"])))
              ++ EvInput [0; 1] QConfidence None :: []) as H
    by (vm_compute; reflexivity).
  split; [exact H|].
  exact (proj1 (proj2 (end_of_input_leaves_viewers_running _ _ _ _ _ _ _ _ _ _ _ H))).
Defined.

(** X13. Every record that a run appends is the record of the row of
    its process: its slot methods are the two methods of the command line
    in one of the two orders, the preferred segmentation is one of them,
    the confidence is one of the three words, the strength is from 0 to 3
    and the failure is "None", one of the two methods or both; the labeler
    is the one of the command line. *)
Theorem record_values_are_documented
  w a env isdir diff_areas results console u rows pre p line post :
  user a = Some u ->
  resume w results diff_areas = Ok rows ->
  fst (run w a env isdir diff_areas results console)
    = pre ++ EvAppend p line :: post ->
  exists r slots ans cmt tm,
    rows !! p = Some r /\
    line = record_line w r slots ans (Py.replace "," ";" cmt) u tm /\
    (slots = (met1 a, met2 a) \/ slots = (met2 a, met1 a)) /\
    (best ans = fst slots \/ best ans = snd slots) /\
    (confidence ans = "random" \/ confidence ans = "uncertain" \/
     confidence ans = "certain") /\
    (0 <= difference_strength ans <= 3)%Z /\
    (fail ans = "None" \/ fail ans = fst slots \/ fail ans = snd slots \/
     fail ans = fst slots +:+ "+" +:+ snd slots).
Proof.
  intros Hu Hres E.
  destruct (run_cases w a env isdir diff_areas results console)
    as [(Ht & Hne)|(u' & rows' & Hu' & Hres' & Hloop)].
  - rewrite Ht in E. now destruct pre.
  - rewrite Hu in Hu'. injection Hu' as <-.
    rewrite Hres in Hres'. injection Hres' as <-.
    destruct (loop_append_after _ _ _ _ _ _ _ Hloop _ _ _ _ E)
      as (_ & r & cmt & Hr & (idx & ans & tm & Hidx & Hans & Hc & Hline) & _).
    destruct Hans as (A1 & A2 & A3 & A4).
    exists r, (select (met1 a, met2 a) idx), ans, cmt, tm.
    conjuncts;
      first [assumption | lia | exact (select_order (met1 a, met2 a) idx Hidx)].
Qed.

Lemma record_values_are_documented_witness :
  user Scenario.cli = Some "anna" /\
  resume Scenario.linux None Scenario.worklist = Ok Scenario.worklist /\
  fst (run Scenario.linux Scenario.cli Scenario.env Scenario.no_dirs
         Scenario.worklist None Scenario.one_subject)
    = (firstn 25 (fst (run Scenario.linux Scenario.cli Scenario.env
                         Scenario.no_dirs Scenario.worklist None
                         Scenario.one_subject)))
        ++ EvAppend 0 ("S1,B,A,B,certain,2,None,fine; but noisy,anna,7.0,12"
                         +:+ newline)
        :: skipn 26 (fst (run Scenario.linux Scenario.cli Scenario.env
                            Scenario.no_dirs Scenario.worklist None
                            Scenario.one_subject)) /\
  exists r, Scenario.worklist !! 0 = Some r.
Proof.
  assert (fst (run Scenario.linux Scenario.cli Scenario.env Scenario.no_dirs
                 Scenario.worklist None Scenario.one_subject)
          = (firstn 25 (fst (run Scenario.linux Scenario.cli Scenario.env
                               Scenario.no_dirs Scenario.worklist None
                               Scenario.one_subject)))
              ++ EvAppend 0 ("S1,B,A,B,certain,2,None,fine; but noisy,anna,7.0,12"
                               +:+ newline)
              :: skipn 26 (fst (run Scenario.linux Scenario.cli Scenario.env
                                  Scenario.no_dirs Scenario.worklist None
                                  Scenario.one_subject))) as H
    by (vm_compute; reflexivity).
  split; [reflexivity|]. split; [reflexivity|]. split; [exact H|].
  destruct (record_values_are_documented Scenario.linux Scenario.cli
              Scenario.env Scenario.no_dirs Scenario.worklist None
              Scenario.one_subject "anna" Scenario.worklist _ _ _ _
              eq_refl eq_refl H) as (r & _ & _ & _ & _ & Hr & _).
  exists r. exact Hr.
Defined.

(** *** The resume filter *)

(** X14. Whatever pandas reads from the results file: the loop runs
    over the rows of the table whose identifier is not, as a text, among
    the values read, all of them and in the order of the table; and every
    window launched and every record appended in the run is that of such
    a row. *)
Theorem filter_keeps_the_rows_not_found
  w a env isdir diff_areas content found console :
  read_first_column w content = Ok found ->
  resume w (Some content) diff_areas = Ok (remove_labeled found diff_areas) /\
  remove_labeled found diff_areas `sublist_of` diff_areas /\
  (forall r, r ∈ remove_labeled found diff_areas
             <-> r ∈ diff_areas /\ CText (ID r) ∉ found) /\
  Forall (kept_event found (remove_labeled found diff_areas))
    (fst (run w a env isdir diff_areas (Some content) console)).
Proof.
  intros Hcol.
  assert (resume w (Some content) diff_areas = Ok (remove_labeled found diff_areas))
    as Hres by (unfold resume; now rewrite Hcol).
  assert (Forall (fun r => CText (ID r) ∉ found) (remove_labeled found diff_areas))
    as Hall.
  { apply Forall_forall. intros r Hr. now apply RunFacts.remove_labeled_spec in Hr. }
  conjuncts.
  - exact Hres.
  - apply RunFacts.remove_labeled_sublist.
  - intros r. apply RunFacts.remove_labeled_spec.
  - destruct (run_cases w a env isdir diff_areas (Some content) console)
      as [(Ht & Hne)|(u & rows & Hu & Hres' & Hloop)].
    + rewrite Ht. constructor.
    + rewrite Hres in Hres'. injection Hres' as <-.
      eapply Forall_impl; [exact (loop_events _ _ _ _ _ _ _ Hloop)|].
      intros e He. destruct e; cbn in *; try exact I.
      * destruct He as (_ & r & Hr & ->). exists r. conjuncts; try easy.
        eapply Forall_lookup_1 in Hall; [exact Hall|exact Hr].
      * destruct He as (_ & r & cmt & Hr & Hrec).
        destruct (record_starts_with_ID _ _ _ _ _ _ Hrec) as (rest & ->).
        exists r, rest. conjuncts; try easy.
        eapply Forall_lookup_1 in Hall; [exact Hall|exact Hr].
Qed.

Lemma filter_keeps_the_rows_not_found_witness :
  read_first_column Scenario.linux Scenario.one_record = Ok [CText "S1"] /\
  resume Scenario.linux (Some Scenario.one_record) Scenario.worklist
    = Ok (remove_labeled [CText "S1"] Scenario.worklist) /\
  remove_labeled [CText "S1"] Scenario.worklist `sublist_of` Scenario.worklist.
Proof.
  assert (read_first_column Scenario.linux Scenario.one_record = Ok [CText "S1"])
    as H by (vm_compute; reflexivity).
  split; [exact H|].
  pose proof (filter_keeps_the_rows_not_found Scenario.linux Scenario.cli
                Scenario.env Scenario.no_dirs Scenario.worklist
                Scenario.one_record [CText "S1"] Scenario.three_subjects H)
    as (H1 & H2 & _).
  split; [exact H1|exact H2].
Defined.

(** X15. When pandas reads the first column of the results file as
    numbers, missing values or truth values (no text among them), the
    filter removes nothing, because the identifiers of the table are
    texts: the run is the run without a results file, and subjects that
    have a record are shown and recorded again. *)
Theorem numeric_first_column_removes_nothing
  w a env isdir diff_areas content found console :
  read_first_column w content = Ok found ->
  Forall (fun c => forall s, c <> CText s) found ->
  resume w (Some content) diff_areas = Ok diff_areas /\
  run w a env isdir diff_areas (Some content) console
    = run w a env isdir diff_areas None console.
Proof.
  intros Hcol Hnum.
  assert (resume w (Some content) diff_areas = resume w None diff_areas) as Hres.
  { unfold resume. rewrite Hcol. cbn [rbind].
    now rewrite (remove_labeled_numbers found diff_areas Hnum). }
  split; [exact Hres|].
  unfold run, main.
  destruct (resolve_freesurfer a env isdir) as [fsp|e|c]; [|reflexivity..].
  rewrite !bind_lift_ok.
  destruct (check_user a) as [u|e|c]; [|reflexivity..].
  rewrite !bind_lift_ok. now rewrite Hres.
Qed.

Lemma numeric_first_column_removes_nothing_witness :
  read_first_column linux_numbers record_007 = Ok [CInt 7] /\
  Forall (fun c => forall s, c <> CText s) [CInt 7] /\
  resume linux_numbers (Some record_007) numbered = Ok numbered /\
  appended (fst (run linux_numbers Scenario.cli Scenario.env Scenario.no_dirs
                   numbered (Some record_007) Scenario.three_subjects))
    = [ record_007;
        "S2,B,A,B,certain,2,None,fine; but noisy,anna,7.0,12" +:+ newline ].
Proof.
  assert (read_first_column linux_numbers record_007 = Ok [CInt 7]) as H
    by (vm_compute; reflexivity).
  assert (Forall (fun c => forall s, c <> CText s) [CInt 7]) as Hnum
    by (repeat constructor; discriminate).
  split; [exact H|]. split; [exact Hnum|].
  destruct (numeric_first_column_removes_nothing linux_numbers Scenario.cli
              Scenario.env Scenario.no_dirs numbered record_007 [CInt 7]
              Scenario.three_subjects H Hnum) as (H1 & H2).
  split; [exact H1|]. rewrite H2. vm_compute. reflexivity.
Defined.

End EdgeFacts.
